(** * ckpool_parser.py: log classification, store upserts, worker liveness
      and the wallet aggregator

    A shallow embedding of [src/ckpool_parser.py].

    Conventions of the embedding.
    - A Python [str] is a [string]; a character stands for a code point
      below 256.  Character classes ([\s], [\d], [\w], [str.strip]) are
      written out for that range.  [str.upper] is modelled on ASCII
      letters only, and statements that go through it carry an explicit
      ASCII hypothesis.
    - A Python [float] is [Fin q] for the exact rational [q] it denotes, or
      one of the non-finite values that [float()] reads from text.  Rounding
      and overflow of binary64 are outside the embedding.
    - A Python value read from JSON or bound to a column is a [pyval].
    - SQLite tables are finite maps keyed by their primary key; the
      append-only [shares] table is a list in rowid order.  A column holds
      the Python value that was bound to it (type affinity is not applied).
    - A [try/except] is an explicit [result]; library calls of which the
      repository has no source ([json.loads], [datetime.strptime], the wall
      clock, [requests]) are section variables or explicit outcomes. *)

From Stdlib Require Import QArith Qabs Qround Lqa ZArith String Ascii List Bool Lia.
From Stdlib Require Import DecimalString DecimalN DecimalFacts.
From stdpp Require Import gmap strings list fin_maps sorting.

Local Open Scope bool_scope.

(** ** Characters and strings, as Python's [str] methods treat them *)

Module Text.

Definition code (c : ascii) : N := N_of_ascii c.

Definition in_range (lo hi : N) (c : ascii) : bool :=
  (lo <=? code c)%N && (code c <=? hi)%N.

Definition is_char (x c : ascii) : bool := Ascii.eqb x c.

Definition is_digit (c : ascii) : bool := in_range 48 57 c.
Definition is_upper (c : ascii) : bool := in_range 65 90 c.
Definition is_lower (c : ascii) : bool := in_range 97 122 c.
Definition is_alpha (c : ascii) : bool := is_upper c || is_lower c.

(** [str.isspace] on code points below 256. *)
Definition is_space (c : ascii) : bool :=
  in_range 9 13 c || in_range 28 32 c || (code c =? 133)%N || (code c =? 160)%N.

(** [str.isalnum] or underscore, on code points below 256: the class [\w]. *)
Definition is_word (c : ascii) : bool :=
  is_digit c || is_alpha c || is_char "_" c
  || (code c =? 170)%N || in_range 178 179 c || (code c =? 181)%N
  || in_range 185 186 c || in_range 188 190 c
  || in_range 192 214 c || in_range 216 246 c || in_range 248 255 c.

Definition is_ascii (c : ascii) : bool := (code c <? 128)%N.

Definition to_upper (c : ascii) : ascii :=
  if is_lower c then ascii_of_N (code c - 32) else c.

Definition to_lower (c : ascii) : ascii :=
  if is_upper c then ascii_of_N (code c + 32) else c.

Fixpoint all_chars (p : ascii -> bool) (s : string) : bool :=
  match s with
  | EmptyString => true
  | String c r => p c && all_chars p r
  end.

Fixpoint map_chars (f : ascii -> ascii) (s : string) : string :=
  match s with
  | EmptyString => EmptyString
  | String c r => String (f c) (map_chars f r)
  end.

Fixpoint drop_chars (p : ascii -> bool) (s : string) : string :=
  match s with
  | EmptyString => EmptyString
  | String c r => if p c then drop_chars p r else String c (drop_chars p r)
  end.

(** [s.upper()] (ASCII) and [s.replace(" ", "")]. *)
Definition upper (s : string) : string := map_chars to_upper s.
Definition remove_spaces (s : string) : string := drop_chars (is_char " ") s.

Fixpoint lstrip (p : ascii -> bool) (s : string) : string :=
  match s with
  | EmptyString => EmptyString
  | String c r => if p c then lstrip p r else s
  end.

Fixpoint rstrip (p : ascii -> bool) (s : string) : string :=
  match s with
  | EmptyString => EmptyString
  | String c r =>
      match rstrip p r with
      | EmptyString => if p c then EmptyString else String c EmptyString
      | r' => String c r'
      end
  end.

(** [s.strip(chars)] and [s.strip()]. *)
Definition strip_chars (p : ascii -> bool) (s : string) : string :=
  lstrip p (rstrip p s).
Definition strip (s : string) : string := strip_chars is_space s.

(** [p in s]. *)
Fixpoint contains (p s : string) : bool :=
  String.prefix p s
  || match s with
     | EmptyString => false
     | String _ r => contains p r
     end.

Definition startswith (s p : string) : bool := String.prefix p s.

Fixpoint endswith (s p : string) : bool :=
  String.eqb s p
  || match s with
     | EmptyString => false
     | String _ r => endswith r p
     end.

(** [s.split(x, 1)] when [x] occurs in [s]. *)
Fixpoint split_once (x : ascii) (s : string) : option (string * string) :=
  match s with
  | EmptyString => None
  | String c r =>
      if Ascii.eqb c x then Some (EmptyString, r)
      else match split_once x r with
           | Some (a, b) => Some (String c a, b)
           | None => None
           end
  end.

Definition is_empty (s : string) : bool :=
  match s with EmptyString => true | _ => false end.

(** Whether the first, and the last, character is of a class. *)
Definition head_in (p : ascii -> bool) (s : string) : bool :=
  match s with
  | String c _ => p c
  | EmptyString => false
  end.

Fixpoint last_in (p : ascii -> bool) (s : string) : bool :=
  match s with
  | EmptyString => false
  | String c EmptyString => p c
  | String _ r => last_in p r
  end.

(** [str(n)] for a non-negative integer, and its signed form. *)
Definition str_of_N (n : N) : string := NilZero.string_of_uint (N.to_uint n).
Definition str_of_Z (z : Z) : string :=
  if (z <? 0)%Z then String "-" (str_of_N (Z.to_N (- z))) else str_of_N (Z.to_N z).

Definition digit_val (c : ascii) : N := (code c - 48)%N.

(** [s < t] and [s <= t], by code points. *)
Fixpoint ltb (s t : string) : bool :=
  match s, t with
  | _, EmptyString => false
  | EmptyString, String _ _ => true
  | String a s', String b t' =>
      (code a <? code b)%N || ((code a =? code b)%N && ltb s' t')
  end.
Definition leb (s t : string) : bool := String.eqb s t || ltb s t.

(** The em dash the module shows for an unknown value.  It is a code point
    above 255 and is written here as the three bytes of its UTF-8 form. *)
Definition EM_DASH : string :=
  String "226" (String "128" (String "148" EmptyString)).

End Text.

(** ** A backtracking matcher for the fragment of [re] the module uses

    Python's [re] tries alternatives left to right and greedy quantifiers
    longest first, and returns the first complete match.  Every quantifier
    in the module's patterns ranges over a single character class
    ([Rep]), or is an optional group ([Opt]). *)

Module Re.

Inductive regex : Type :=
| Eps
| Chr (p : ascii -> bool)
| Seq (r1 r2 : regex)
| Alt (r1 r2 : regex)
| Opt (r : regex)
| Rep (p : ascii -> bool) (lo : nat) (hi : option nat)
| Grp (name : string) (r : regex)
| WordB
| Eol.

(** Captured groups, most recent binding first. *)
Definition caps : Type := list (string * string).

Fixpoint group (cs : caps) (name : string) : option string :=
  match cs with
  | [] => None
  | (n, v) :: r => if String.eqb n name then Some v else group r name
  end.

(** Length of the longest run of class characters at the head of [s],
    capped by [hi]. *)
Fixpoint run (p : ascii -> bool) (hi : option nat) (s : string) : nat :=
  match hi with
  | Some O => O
  | _ =>
      match s with
      | String c r =>
          if p c then S (run p (match hi with Some (S h) => Some h | _ => None end) r)
          else O
      | EmptyString => O
      end
  end.

Fixpoint drop (n : nat) (s : string) : string :=
  match n, s with
  | S m, String _ r => drop m r
  | _, _ => s
  end.

Fixpoint take (n : nat) (s : string) : string :=
  match n, s with
  | S m, String c r => String c (take m r)
  | _, _ => EmptyString
  end.

(** The character before position [n] of [s], [prev] when [n = 0]. *)
Fixpoint last_before (prev : option ascii) (n : nat) (s : string) : option ascii :=
  match n, s with
  | S m, String c r => last_before (Some c) m r
  | _, _ => prev
  end.

(** Greedy choice of a repetition count: [j], then [j-1], ... down to [lo]. *)
Fixpoint try_down {A : Type} (j lo : nat) (f : nat -> option A) : option A :=
  if (j <? lo)%nat then None
  else match f j with
       | Some x => Some x
       | None => match j with
                 | O => None
                 | S j' => try_down j' lo f
                 end
       end.

Definition word_at (c : option ascii) : bool :=
  match c with Some x => Text.is_word x | None => false end.

Definition head (s : string) : option ascii :=
  match s with String c _ => Some c | EmptyString => None end.

Fixpoint mt {A : Type} (r : regex) (prev : option ascii) (s : string) (cs : caps)
    (k : option ascii -> string -> caps -> option A) : option A :=
  match r with
  | Eps => k prev s cs
  | Chr p =>
      match s with
      | String c s' => if p c then k (Some c) s' cs else None
      | EmptyString => None
      end
  | Seq r1 r2 => mt r1 prev s cs (fun prev' s' cs' => mt r2 prev' s' cs' k)
  | Alt r1 r2 =>
      match mt r1 prev s cs k with
      | Some x => Some x
      | None => mt r2 prev s cs k
      end
  | Opt r1 =>
      match mt r1 prev s cs k with
      | Some x => Some x
      | None => k prev s cs
      end
  | Rep p lo hi =>
      try_down (run p hi s) lo (fun j => k (last_before prev j s) (drop j s) cs)
  | Grp name r1 =>
      mt r1 prev s cs
         (fun prev' s' cs' =>
            k prev' s' ((name, take (String.length s - String.length s') s) :: cs'))
  | WordB => if xorb (word_at prev) (word_at (head s)) then k prev s cs else None
  | Eol =>
      match s with
      | EmptyString => k prev s cs
      | String c EmptyString => if Text.is_char "010" c then k prev s cs else None
      | _ => None
      end
  end.

(** [pattern.match(s)]: anchored at the start. *)
Definition rmatch (r : regex) (s : string) : option caps :=
  mt r None s [] (fun _ _ cs => Some cs).

(** [re.fullmatch]. *)
Definition fullmatch (r : regex) (s : string) : option caps :=
  mt r None s [] (fun _ s' cs => if Text.is_empty s' then Some cs else None).

(** Pattern builders. *)
Definition ci (p : ascii -> bool) (c : ascii) : bool :=
  p c || p (Text.to_lower c) || p (Text.to_upper c).

Fixpoint lit (s : string) : regex :=
  match s with
  | EmptyString => Eps
  | String c r => Seq (Chr (Text.is_char c)) (lit r)
  end.

Fixpoint lit_ci (s : string) : regex :=
  match s with
  | EmptyString => Eps
  | String c r => Seq (Chr (ci (Text.is_char c))) (lit_ci r)
  end.

Fixpoint seqs (rs : list regex) : regex :=
  match rs with
  | [] => Eps
  | [r] => r
  | r :: rest => Seq r (seqs rest)
  end.

Definition not_space (c : ascii) : bool := negb (Text.is_space c).
Definition any_but_newline (c : ascii) : bool := negb (Text.is_char "010" c).
Definition any_char (c : ascii) : bool := true.

Definition star (p : ascii -> bool) : regex := Rep p 0 None.
Definition plus (p : ascii -> bool) : regex := Rep p 1 None.

End Re.

(** ** Python numbers *)

Module Num.

Inductive float : Type :=
| Fin (q : Q)
| Inf (neg : bool)
| NaN.

Definition fadd (a b : float) : float :=
  match a, b with
  | Fin x, Fin y => Fin (x + y)
  | NaN, _ | _, NaN => NaN
  | Inf s, Inf t => if Bool.eqb s t then Inf s else NaN
  | Inf s, Fin _ | Fin _, Inf s => Inf s
  end.

Definition fneg (a : float) : float :=
  match a with
  | Fin x => Fin (- x)
  | Inf s => Inf (negb s)
  | NaN => NaN
  end.

Definition Qsign_neg (q : Q) : bool := negb (Qle_bool 0 q).
Definition Qis_zero (q : Q) : bool := Qeq_bool q 0.

Definition fmul (a b : float) : float :=
  match a, b with
  | Fin x, Fin y => Fin (x * y)
  | NaN, _ | _, NaN => NaN
  | Inf s, Inf t => Inf (xorb s t)
  | Inf s, Fin y | Fin y, Inf s =>
      if Qis_zero y then NaN else Inf (xorb s (Qsign_neg y))
  end.

(** [a / b]; [None] is [ZeroDivisionError]. *)
Definition fdiv (a b : float) : option float :=
  match a, b with
  | _, Fin y =>
      if Qis_zero y then None
      else Some (match a with
                 | Fin x => Fin (x / y)
                 | Inf s => Inf (xorb s (Qsign_neg y))
                 | NaN => NaN
                 end)
  | NaN, _ | _, NaN => Some NaN
  | Fin _, Inf _ => Some (Fin 0)
  | Inf _, Inf _ => Some NaN
  end.

(** [a <= b] and [a < b]; every comparison with [nan] is false. *)
Definition fle (a b : float) : bool :=
  match a, b with
  | Fin x, Fin y => Qle_bool x y
  | NaN, _ | _, NaN => false
  | Inf true, _ => true
  | _, Inf false => true
  | Inf false, _ => false
  | _, Inf true => false
  end.

Definition feqb (a b : float) : bool :=
  match a, b with
  | Fin x, Fin y => Qeq_bool x y
  | Inf s, Inf t => Bool.eqb s t
  | _, _ => false
  end.

Definition flt (a b : float) : bool := fle a b && negb (feqb a b).
Definition fge (a b : float) : bool := fle b a.
Definition fgt (a b : float) : bool := flt b a.

(** Equality of the denoted values. *)
Definition feq (a b : float) : Prop :=
  match a, b with
  | Fin x, Fin y => (x == y)%Q
  | Inf s, Inf t => s = t
  | NaN, NaN => True
  | _, _ => False
  end.

Definition of_Z (z : Z) : float := Fin (inject_Z z).

(** A run of decimal digits in which single underscores may stand between
    two digits (PEP 515): value, number of digits, rest of the text. *)
Fixpoint scan_digits (s : string) (acc : N) (cnt : nat) : N * nat * string :=
  match s with
  | String c r =>
      if Text.is_digit c then scan_digits r (10 * acc + Text.digit_val c) (S cnt)
      else if Text.is_char "_" c && (0 <? cnt)%nat then
        match r with
        | String d r' =>
            if Text.is_digit d
            then scan_digits r' (10 * acc + Text.digit_val d) (S cnt)
            else (acc, cnt, s)
        | EmptyString => (acc, cnt, s)
        end
      else (acc, cnt, s)
  | EmptyString => (acc, cnt, s)
  end.

(** An optional sign: [true] for a minus. *)
Definition scan_sign (s : string) : bool * string :=
  match s with
  | String c r =>
      if Text.is_char "-" c then (true, r)
      else if Text.is_char "+" c then (false, r)
      else (false, s)
  | EmptyString => (false, s)
  end.

Definition pow10 (e : Z) : Q := Qpower 10 e.

(** The exponent part: absent, or [e], an optional sign and digits, up to
    the end of the text. *)
Definition scan_exponent (s : string) : option Z :=
  match s with
  | EmptyString => Some 0%Z
  | String c r =>
      if Text.is_char "e" c || Text.is_char "E" c then
        let '(neg, r1) := scan_sign r in
        match scan_digits r1 0 0 with
        | (_, O, _) => None
        | (e, S _, EmptyString) => Some (if neg then (- Z.of_N e)%Z else Z.of_N e)
        | _ => None
        end
      else None
  end.

Definition scan_decimal (s : string) : option Q :=
  let '(i, ni, r1) := scan_digits s 0 0 in
  let '(f, nf, r2) :=
    match r1 with
    | String c r => if Text.is_char "." c then scan_digits r 0 0 else (0%N, O, r1)
    | EmptyString => (0%N, O, r1)
    end in
  if (ni + nf =? 0)%nat then None
  else match scan_exponent r2 with
       | Some e =>
           Some ((inject_Z (Z.of_N i) + inject_Z (Z.of_N f) / pow10 (Z.of_nat nf))
                 * pow10 e)%Q
       | None => None
       end.

(** [float(s)] for a string; [None] is [ValueError]. *)
Definition float_of_str (s0 : string) : option float :=
  let '(neg, s) := scan_sign (Text.strip s0) in
  let w := Text.map_chars Text.to_lower s in
  if String.eqb w "inf" || String.eqb w "infinity" then Some (Inf neg)
  else if String.eqb w "nan" then Some NaN
  else match scan_decimal s with
       | Some q => Some (Fin (if neg then - q else q)%Q)
       | None => None
       end.

(** [int(s)] for a string; [None] is [ValueError]. *)
Definition int_of_str (s0 : string) : option Z :=
  let '(neg, s) := scan_sign (Text.strip s0) in
  match scan_digits s 0 0 with
  | (_, O, _) => None
  | (n, S _, EmptyString) => Some (if neg then (- Z.of_N n)%Z else Z.of_N n)
  | _ => None
  end.

(** [int(x)] for a float: truncation; [None] on [inf] and [nan]. *)
Definition trunc (x : float) : option Z :=
  match x with
  | Fin q => Some (Z.quot (Qnum q) (Zpos (Qden q)))
  | _ => None
  end.

(** Rounding to the nearest integer, ties to even, of a non-negative
    rational. *)
Definition round_half_even (q : Q) : Z :=
  let fl := Qfloor q in
  match (q - inject_Z fl ?= 1 # 2)%Q with
  | Lt => fl
  | Gt => (fl + 1)%Z
  | Eq => if Z.even fl then fl else (fl + 1)%Z
  end.

Definition pad2 (n : Z) : string :=
  if (n <? 10)%Z then String "0" (Text.str_of_Z n) else Text.str_of_Z n.

Definition sign_str (q : Q) : string := if Qsign_neg q then "-"%string else ""%string.

(** [f"{x:.2f}"] and [f"{x:.0f}"]. *)
Definition fmt_fixed2 (x : float) : string :=
  match x with
  | Fin q =>
      let n := round_half_even (Qabs q * 100) in
      sign_str q +:+ Text.str_of_Z (n / 100) +:+ "." +:+ pad2 (n mod 100)
  | Inf false => "inf"
  | Inf true => "-inf"
  | NaN => "nan"
  end.

Definition fmt_fixed0 (x : float) : string :=
  match x with
  | Fin q => sign_str q +:+ Text.str_of_Z (round_half_even (Qabs q))
  | Inf false => "inf"
  | Inf true => "-inf"
  | NaN => "nan"
  end.

End Num.

(** ** Python values *)

#[warnings="-register-all"]
Inductive pyval : Type :=
| PNone
| PBool (b : bool)
| PInt (z : Z)
| PFloat (f : Num.float)
| PStr (s : string)
| PList (l : list pyval)
| PDict (d : gmap string pyval).

(** The outcome of a block that may raise. *)
Inductive result (A : Type) : Type :=
| Ok (a : A)
| Raise.
Arguments Ok {A} a.
Arguments Raise {A}.

#[global] Instance result_ret : MRet result := @Ok.
#[global] Instance result_bind : MBind result :=
  fun A B f r => match r with Ok a => f a | Raise => Raise end.

Definition of_option {A : Type} (o : option A) : result A :=
  match o with Some a => Ok a | None => Raise end.

(** [try: r except Exception: d]. *)
Definition try_or {A : Type} (r : result A) (d : A) : A :=
  match r with Ok a => a | Raise => d end.

Module Py.

(** Truthiness, as [if v], [v or d] and [not v] read it. *)
Definition truthy (v : pyval) : bool :=
  match v with
  | PNone => false
  | PBool b => b
  | PInt z => negb (z =? 0)%Z
  | PFloat (Num.Fin q) => negb (Num.Qis_zero q)
  | PFloat _ => true
  | PStr s => negb (Text.is_empty s)
  | PList l => match l with [] => false | _ => true end
  | PDict d => negb (bool_decide (d = ∅))
  end.

(** [v or d]. *)
Definition or_else (v d : pyval) : pyval := if truthy v then v else d.

(** [d.get(k)] on a dict. *)
Definition get (d : gmap string pyval) (k : string) : pyval :=
  default PNone (d !! k).

(** [int(v)]; [Raise] is [TypeError], [ValueError] or [OverflowError]. *)
Definition int (v : pyval) : result Z :=
  match v with
  | PBool b => Ok (if b then 1 else 0)%Z
  | PInt z => Ok z
  | PFloat f => of_option (Num.trunc f)
  | PStr s => of_option (Num.int_of_str s)
  | _ => Raise
  end.

Definition is_str (v : pyval) : option string :=
  match v with PStr s => Some s | _ => None end.

End Py.

(** ** Units helpers *)

Module Units.

Import Num.

Definition UNIT_MAP : list (string * Q) :=
  [ ("", 1); ("H", 1); ("K", 1e3); ("KH", 1e3); ("M", 1e6); ("MH", 1e6);
    ("G", 1e9); ("GH", 1e9); ("T", 1e12); ("TH", 1e12); ("P", 1e15);
    ("PH", 1e15); ("E", 1e18); ("EH", 1e18) ]%Q.

(** [UNIT_MAP.get(unit, 1.0)]. *)
Fixpoint unit_get (m : list (string * Q)) (u : string) : Q :=
  match m with
  | [] => 1%Q
  | (k, v) :: r => if String.eqb k u then v else unit_get r u
  end.

(** The pattern "([0-9]*\.?[0-9]+)([A-Z]{0,2})$". *)
Definition HASHRATE_RE : Re.regex :=
  Re.seqs
    [ Re.Grp "1" (Re.seqs [ Re.star Text.is_digit; Re.Opt (Re.Chr (Text.is_char "."));
                            Re.plus Text.is_digit ]);
      Re.Grp "2" (Re.Rep Text.is_upper 0 (Some 2%nat));
      Re.Eol ].

(** The text the function works on:
    [str(v).strip().upper().replace(" ", "")]. *)
Definition normal_form (s : string) : string :=
  Text.remove_spaces (Text.upper (Text.strip s)).

(** [_parse_hashrate_to_hs].  [str()] of a list or a dict starts with a
    bracket, which neither [float] nor the pattern accepts. *)
Definition _parse_hashrate_to_hs (v : pyval) : float :=
  match v with
  | PNone => Fin 0
  | PBool b => Fin (if b then 1 else 0)
  | PInt z => of_Z z
  | PFloat f => f
  | PStr s0 =>
      let s := normal_form s0 in
      if String.eqb s Text.EM_DASH || String.eqb s "-" || String.eqb s "" then Fin 0
      else match float_of_str s with
           | Some f => f
           | None =>
               match Re.rmatch HASHRATE_RE s with
               | None => Fin 0
               | Some m =>
                   let num := default NaN (float_of_str (default ""%string (Re.group m "1"))) in
                   let unit := default ""%string (Re.group m "2") in
                   fmul num (Fin (unit_get UNIT_MAP unit))
               end
           end
  | PList _ | PDict _ => Fin 0
  end.

Definition HUMAN_UNITS : list (string * Q) :=
  [ ("E", 1e18); ("P", 1e15); ("T", 1e12); ("G", 1e9); ("M", 1e6); ("K", 1e3) ]%Q.

Fixpoint human_loop (units : list (string * Q)) (hs : float) : string :=
  match units with
  | [] => fmt_fixed0 hs
  | (u, m) :: rest =>
      if fge hs (Fin m)
      then fmt_fixed2 (default NaN (fdiv hs (Fin m))) +:+ u
      else human_loop rest hs
  end.

(** [_human_hashrate]. *)
Definition _human_hashrate (hs : float) : string := human_loop HUMAN_UNITS hs.

End Units.

(** ** Line dialects *)

Module Patterns.

Import Re.

Definition one_of (cs : string) (c : ascii) : bool :=
  Text.contains (String c EmptyString) cs.

(** The class "[\d\-:\. ]". *)
Definition ts_class (c : ascii) : bool := Text.is_digit c || one_of "-:. " c.

(** The optional leading stamp shared by all dialects: a bracketed group
    [ts] of one or more class characters, then any white space. *)
Definition TS_PREFIX : regex :=
  Opt (seqs [ Chr (Text.is_char "["); Grp "ts" (plus ts_class);
              Chr (Text.is_char "]"); star Text.is_space ]).

(** The class "[a-km-zA-HJ-NP-Z1-9]". *)
Definition base58_class (c : ascii) : bool :=
  Text.in_range 97 107 c || Text.in_range 109 122 c || Text.in_range 65 72 c
  || Text.in_range 74 78 c || Text.in_range 80 90 c || Text.in_range 49 57 c.

(** The class "[0-9ac-hj-np-z]". *)
Definition bech32_class (c : ascii) : bool :=
  Text.is_digit c || Text.is_char "a" c || Text.in_range 99 104 c
  || Text.in_range 106 110 c || Text.in_range 112 122 c.

(** [ADDR_RE], under [re.IGNORECASE] as in every pattern that embeds it. *)
Definition ADDR_RE : regex :=
  Seq (Alt (Seq (Chr (one_of "13")) (Rep (ci base58_class) 5 None))
           (seqs [ Opt (Chr (ci (one_of "tb"))); lit_ci "c1";
                   Rep (ci bech32_class) 5 None ]))
      (Opt (lit "...")).

(** The class "[A-Za-z0-9_\-\.]". *)
Definition worker_class (c : ascii) : bool :=
  Text.is_alpha c || Text.is_digit c || one_of "_-." c.

(** [WORKER_RE] *)
Definition WORKER_RE : regex := Rep worker_class 1 (Some 64%nat).

Definition sp : regex := plus Text.is_space.
Definition tail : regex := Seq (star any_but_newline) Eol.

(** [POOL_JSON_RE], compiled with [re.DOTALL] and case sensitive. *)
Definition POOL_JSON_RE : regex :=
  seqs [ TS_PREFIX; lit "Pool:"; star Text.is_space;
         Grp "payload" (seqs [ Chr (Text.is_char "{"); star any_char;
                               Chr (Text.is_char "}") ]);
         star Text.is_space; Eol ].

Definition USER_RE : regex :=
  seqs [ TS_PREFIX; lit_ci "User"; sp; Grp "addr" ADDR_RE; star Text.is_space;
         Opt (Chr (Text.is_char ":")); star Text.is_space;
         Grp "payload" (seqs [ Chr (Text.is_char "{"); star any_but_newline;
                               Chr (Text.is_char "}") ]);
         star Text.is_space; Eol ].

(** The [re.VERBOSE] patterns: the layout whitespace of the source is not
    part of the pattern. *)
Definition AUTH_RE : regex :=
  seqs [ TS_PREFIX; lit_ci "Authorised"; sp; lit_ci "client"; sp;
         plus Text.is_digit; sp; plus not_space; sp; lit_ci "worker"; sp;
         Grp "wallet" ADDR_RE; Chr (Text.is_char "."); Grp "worker" WORKER_RE;
         sp; lit_ci "as"; sp; lit_ci "user"; sp; Grp "addr" ADDR_RE; WordB; tail ].

Definition DROP_RE : regex :=
  seqs [ TS_PREFIX; lit_ci "Dropped"; sp; lit_ci "client"; sp;
         plus Text.is_digit; sp; plus not_space; sp; lit_ci "user"; sp;
         Grp "addr" ADDR_RE; sp; lit_ci "worker"; sp;
         Grp "wallet" ADDR_RE; Chr (Text.is_char "."); Grp "worker" WORKER_RE;
         WordB; tail ].

Definition _AUTH_NO_WORKER_RE : regex :=
  seqs [ TS_PREFIX; lit_ci "Authorised"; sp; lit_ci "client"; sp;
         plus Text.is_digit; sp; plus not_space; sp; lit_ci "worker"; sp;
         Grp "wallet_only" ADDR_RE; sp; lit_ci "as"; sp; lit_ci "user"; sp;
         Grp "addr" ADDR_RE; WordB; tail ].

Definition _DROP_NO_WORKER_RE : regex :=
  seqs [ TS_PREFIX; lit_ci "Dropped"; sp; lit_ci "client"; sp;
         plus Text.is_digit; sp; plus not_space; sp; lit_ci "user"; sp;
         Grp "addr" ADDR_RE; sp; lit_ci "worker"; sp;
         Grp "wallet_only" ADDR_RE; WordB; tail ].

(** The id of a share line: ADDR_RE followed by "(?:\.[A-Za-z0-9_\-\.]{1,64})?". *)
Definition SHARE_ID : regex :=
  Seq ADDR_RE (Opt (Seq (Chr (Text.is_char ".")) (Rep worker_class 1 (Some 64%nat)))).

(** The end of a share line: "\s+(?:at\s+)?diff\s+(?P<rawdiff>\d+(?:/\d+)?).*$". *)
Definition SHARE_DIFF : regex :=
  seqs [ sp; Opt (Seq (lit_ci "at") sp); lit_ci "diff"; sp;
         Grp "rawdiff" (Seq (plus Text.is_digit)
                            (Opt (Seq (Chr (Text.is_char "/")) (plus Text.is_digit))));
         tail ].

Definition SHARE_PATS : list regex :=
  [ seqs [ TS_PREFIX; lit_ci "Share"; sp;
           Grp "status" (Alt (lit_ci "accepted") (lit_ci "rejected")); sp;
           lit_ci "from"; sp; Grp "id" SHARE_ID; SHARE_DIFF ];
    seqs [ TS_PREFIX; Alt (lit_ci "Accepted") (lit_ci "Rejected"); sp;
           lit_ci "share"; sp; lit_ci "from"; sp; Grp "id" SHARE_ID; SHARE_DIFF ] ].

End Patterns.

(** ** Line classifier *)

Module Classifier.

Import Patterns.

(** The events the classifier hands to the reader: the dicts of the
    source, one record per shape. *)
Record worker_event : Type := WorkerEvent {
  we_ts : Z;
  we_wallet : string;
  we_worker : string
}.

Record user_event : Type := UserEvent {
  ue_ts : Z;
  ue_address : string;
  ue_data : gmap string pyval
}.

Record share_event : Type := ShareEvent {
  se_ts : Z;
  se_status : string;
  se_address : string;
  se_worker : option string;
  se_rawdiff : string;
  se_scaled : option Num.float;
  se_ip : option string
}.

(** [_contains_truncator] *)
Definition _contains_truncator (s : option string) : bool :=
  match s with
  | None => false
  | Some s =>
      if Text.is_empty s then false
      else Text.contains "..." s || Text.endswith s "..." || Text.startswith s "..."
  end.

(** The candidate as [_clean_worker] examines it:
    [str(worker).strip()], then [.strip(". ").strip()]. *)
Definition stripped (worker : string) : string :=
  let w := Text.strip worker in
  Text.strip (Text.strip_chars (one_of ". ") w).

(** White space or a dot: what the stripping removes at the two ends. *)
Definition edge_char (c : ascii) : bool := Text.is_space c || one_of ". " c.

(** The test [not w or w == wallet or "..." in w or len(w) > 64]. *)
Definition rejected (w wallet : string) : bool :=
  Text.is_empty w || String.eqb w wallet || Text.contains "..." w
  || (64 <? String.length w)%nat.

(** [_clean_worker] *)
Definition _clean_worker (worker : option string) (wallet : string) : string :=
  match worker with
  | None => "X"
  | Some worker =>
      let w := stripped worker in
      if rejected w wallet
      then "X"
      else match Re.fullmatch WORKER_RE w with
           | Some _ => w
           | None => "X"
           end
  end%string.

(** [_split_addr_worker] *)
Definition _split_addr_worker (s : string) : string * option string :=
  match Text.split_once "." s with
  | Some (a, w) => (a, Some w)
  | None => (s, None)
  end.

(** [_scale_diff]; [None] when the arithmetic raises. *)
Definition _scale_diff (raw : string) : option Num.float :=
  match Text.split_once "/" raw with
  | Some (a, b) =>
      match Num.float_of_str a, Num.float_of_str b with
      | Some x, Some y => Num.fdiv x y
      | _, _ => None
      end
  | None => Num.float_of_str raw
  end.

Definition lower (s : string) : string := Text.map_chars Text.to_lower s.

(** [for k in keys: if k in data: out[rename(k)] = data[k]] *)
Definition copy_keys (keys : list string) (rename : string -> string)
    (data out : gmap string pyval) : gmap string pyval :=
  fold_left (fun o k => match data !! k with
                        | Some v => <[rename k := v]> o
                        | None => o
                        end) keys out.

Definition POOL_HASHRATE_KEYS : list string :=
  [ "hashrate1m"; "hashrate5m"; "hashrate15m"; "hashrate1hr"; "hashrate6hr";
    "hashrate1d"; "hashrate7d" ]%string.
Definition POOL_COUNT_KEYS : list string :=
  [ "runtime"; "lastupdate"; "Users"; "Workers"; "Idle"; "Disconnected" ]%string.
Definition POOL_SHARE_KEYS : list string :=
  [ "accepted"; "rejected"; "bestshare"; "diff"; "SPS1m"; "SPS5m" ]%string.

(** [k.lower() if k[0].isupper() else k] *)
Definition lower_if_capital (k : string) : string :=
  match k with
  | String c _ => if Text.is_upper c then lower k else k
  | EmptyString => k
  end.

Section WithLibraries.

(** [json.loads] on a payload that starts with a brace: the decoded object,
    or [None] for [JSONDecodeError]. *)
Variable json_loads : string -> option (gmap string pyval).

(** The two [TS_FORMATS] tried in order and then [fromisoformat], with the
    conversion to epoch seconds; [None] when all of them raise. *)
Variable decode_ts : string -> option Z.

(** The wall clock read while the line is classified. *)
Variable now : Z.

(** [parse_bracket_ts] *)
Definition parse_bracket_ts (v : option string) : Z :=
  match v with
  | None => now
  | Some s =>
      if Text.is_empty s then now
      else default now (decode_ts (Text.strip s))
  end.

(** [parse_pool_json_line] *)
Definition parse_pool_json_line (line : string) : option (gmap string pyval) :=
  match Re.rmatch POOL_JSON_RE (Text.strip line) with
  | None => None
  | Some m =>
      let ts := parse_bracket_ts (Re.group m "ts") in
      match json_loads (default ""%string (Re.group m "payload")) with
      | None => None
      | Some data =>
          let out := {[ "ts"%string := PInt ts ]} in
          let out := copy_keys POOL_HASHRATE_KEYS id data out in
          let out := copy_keys POOL_COUNT_KEYS lower_if_capital data out in
          let out := copy_keys POOL_SHARE_KEYS lower data out in
          Some out
      end
  end.

(** [parse_user_line] *)
Definition parse_user_line (line : string) : option user_event :=
  match Re.rmatch USER_RE (Text.strip line) with
  | None => None
  | Some m =>
      let ts := parse_bracket_ts (Re.group m "ts") in
      let addr := default ""%string (Re.group m "addr") in
      match json_loads (default ""%string (Re.group m "payload")) with
      | None => None
      | Some data => Some (UserEvent ts addr data)
      end
  end.

(** The body shared by [parse_authorised_line] and [parse_dropped_line]:
    the strict wallet.worker pattern first, then the wallet-only one. *)
Definition parse_worker_line (strict wallet_only : Re.regex) (line : string)
    : option worker_event :=
  let sline := Text.strip line in
  match Re.rmatch strict sline with
  | Some m =>
      let wallet := default ""%string (Re.group m "wallet") in
      let worker := Re.group m "worker" in
      if _contains_truncator (Some wallet) || _contains_truncator worker
      then Some (WorkerEvent (parse_bracket_ts (Re.group m "ts")) wallet "X")
      else Some (WorkerEvent (parse_bracket_ts (Re.group m "ts")) wallet
                             (_clean_worker worker wallet))
  | None =>
      match Re.rmatch wallet_only sline with
      | Some m2 =>
          Some (WorkerEvent (parse_bracket_ts (Re.group m2 "ts"))
                            (default ""%string (Re.group m2 "wallet_only")) "X")
      | None => None
      end
  end.

(** [parse_authorised_line] *)
Definition parse_authorised_line (line : string) : option worker_event :=
  parse_worker_line AUTH_RE _AUTH_NO_WORKER_RE line.

(** [parse_dropped_line] *)
Definition parse_dropped_line (line : string) : option worker_event :=
  parse_worker_line DROP_RE _DROP_NO_WORKER_RE line.

(** The first pattern of the list that matches. *)
Fixpoint first_match (pats : list Re.regex) (s : string) : option Re.caps :=
  match pats with
  | [] => None
  | pat :: rest =>
      match Re.rmatch pat s with
      | Some m => Some m
      | None => first_match rest s
      end
  end.

(** [parse_share_line] *)
Definition parse_share_line (line : string) : option share_event :=
  let s := Text.strip line in
  match first_match SHARE_PATS s with
  | None => None
  | Some m =>
      let ts := parse_bracket_ts (Re.group m "ts") in
      let '(addr, worker) := _split_addr_worker (default ""%string (Re.group m "id")) in
      let rawdiff := default ""%string (Re.group m "rawdiff") in
      let scaled := if Text.is_empty rawdiff then None else _scale_diff rawdiff in
      let status :=
        if Text.contains "Accepted" s || Text.contains "accepted" s
        then "accepted"%string else "rejected"%string in
      Some (ShareEvent ts status addr worker rawdiff scaled None)
  end.

End WithLibraries.

End Classifier.

(** ** The store: tables and upserts *)

Module Store.

Import Classifier.

(** A row of [user_stats] without its key [address]. *)
Record user_row : Type := UserRow {
  ur_ts : Z;
  ur_hashrate1m : pyval;
  ur_hashrate5m : pyval;
  ur_hashrate1hr : pyval;
  ur_hashrate1d : pyval;
  ur_hashrate7d : pyval;
  ur_lastshare : pyval;
  ur_workers : pyval;
  ur_shares : pyval;
  ur_bestshare : pyval;
  ur_bestever : pyval;
  ur_authorised : pyval
}.

(** A row of [workers_seen] without its key [(wallet, worker)]. *)
Record seen_row : Type := SeenRow {
  last_seen : Z;
  active : bool
}.

Record db : Type := Db {
  pool_metrics : gmap Z (gmap string pyval);
  user_stats : gmap string user_row;
  workers_seen : gmap (string * string) seen_row;
  shares : list share_event;
  meta : gmap string string
}.

Definition empty_db : db := Db ∅ ∅ ∅ [] ∅.

Definition with_pool_metrics (c : db) (t : gmap Z (gmap string pyval)) : db :=
  Db t (user_stats c) (workers_seen c) (shares c) (meta c).
Definition with_user_stats (c : db) (t : gmap string user_row) : db :=
  Db (pool_metrics c) t (workers_seen c) (shares c) (meta c).
Definition with_workers_seen (c : db) (t : gmap (string * string) seen_row) : db :=
  Db (pool_metrics c) (user_stats c) t (shares c) (meta c).
Definition with_shares (c : db) (t : list share_event) : db :=
  Db (pool_metrics c) (user_stats c) (workers_seen c) t (meta c).
Definition with_meta (c : db) (t : gmap string string) : db :=
  Db (pool_metrics c) (user_stats c) (workers_seen c) (shares c) t.

(** [sqlite3] binds [None], numbers and text; a list or a dict raises. *)
Definition bindable (v : pyval) : bool :=
  match v with
  | PList _ | PDict _ => false
  | _ => true
  end.

(** [set_meta], [get_meta] *)
Definition set_meta (conn : db) (key val : string) : db :=
  with_meta conn (<[key := val]> (meta conn)).
Definition get_meta (conn : db) (key : string) : option string :=
  meta conn !! key.

(** The key the row is filed under in [upsert_user_stats]: the first of
    [d["user"]], [d["address"]] that is a string starting with the wallet
    and a dot, else the wallet. *)
Fixpoint key_addr_of (wallet : string) (d : gmap string pyval) (ks : list string)
    : string :=
  match ks with
  | [] => wallet
  | k :: rest =>
      match Py.get d k with
      | PStr val =>
          if Text.startswith val (wallet +:+ ".") then val
          else key_addr_of wallet d rest
      | _ => key_addr_of wallet d rest
      end
  end.

(** The values [upsert_user_stats] binds, as the row they make. *)
Definition bound_row (ts : Z) (d : gmap string pyval) : user_row :=
  UserRow ts
    (Py.get d "hashrate1m") (Py.get d "hashrate5m") (Py.get d "hashrate1hr")
    (Py.get d "hashrate1d") (Py.get d "hashrate7d")
    (Py.get d "lastshare") (Py.get d "workers") (Py.get d "shares")
    (Py.or_else (Py.get d "bestshare") (Py.get d "bestever"))
    (Py.get d "bestever") (Py.get d "authorised").

Definition all_bindable (d : gmap string pyval) : bool :=
  forallb bindable
    [ Py.get d "hashrate1m"; Py.get d "hashrate5m"; Py.get d "hashrate1hr";
      Py.get d "hashrate1d"; Py.get d "hashrate7d"; Py.get d "lastshare";
      Py.get d "workers"; Py.get d "shares";
      Py.or_else (Py.get d "bestshare") (Py.get d "bestever");
      Py.get d "bestever"; Py.get d "authorised" ].

(** [upsert_user_stats]: the insert and its [ON CONFLICT] branch both leave
    the row equal to the bound values. *)
Definition upsert_user_stats (conn : db) (rec : user_event) : result db :=
  let d := ue_data rec in
  let wallet := ue_address rec in
  let key_addr := key_addr_of wallet d ["user"; "address"]%string in
  if all_bindable d
  then Ok (with_user_stats conn (<[key_addr := bound_row (ue_ts rec) d]> (user_stats conn)))
  else Raise.

(** [upsert_worker_seen] *)
Definition upsert_worker_seen (conn : db) (wallet worker : string) (ts : Z)
    (act : bool) : db :=
  with_workers_seen conn (<[(wallet, worker) := SeenRow ts act]> (workers_seen conn)).

Definition POOL_COLS : list string :=
  [ "hashrate1m"; "hashrate5m"; "hashrate15m"; "hashrate1hr"; "hashrate6hr";
    "hashrate1d"; "hashrate7d"; "runtime"; "lastupdate"; "users"; "workers";
    "idle"; "disconnected"; "accepted"; "rejected"; "bestshare"; "sps1m";
    "sps5m"; "diff" ]%string.

(** SQL [COALESCE(a, b)] with [None] for [NULL]. *)
Definition coalesce (a b : pyval) : pyval :=
  match a with PNone => b | _ => a end.

(** The value of a column in a stored row; an absent column is [NULL]. *)
Definition col (row : gmap string pyval) (c : string) : pyval := Py.get row c.

(** [upsert_pool_metrics]: a fresh timestamp stores the bound values, a
    present one sets every column to [COALESCE(excluded.c, c)]. *)
Definition upsert_pool_metrics (conn : db) (rec : gmap string pyval) : result db :=
  match rec !! "ts"%string with
  | Some (PInt ts) =>
      if forallb (fun c => bindable (Py.get rec c)) POOL_COLS then
        let old := default ∅ (pool_metrics conn !! ts) in
        let row : gmap string pyval :=
          list_to_map (map (fun c => (c, coalesce (Py.get rec c) (col old c))) POOL_COLS) in
        Ok (with_pool_metrics conn (<[ts := row]> (pool_metrics conn)))
      else Raise
  | _ => Raise
  end.

(** [expire_stale_workers] *)
Definition expire_row (now_ts timeout_s : Z) (r : seen_row) : seen_row :=
  if active r && (timeout_s <? now_ts - last_seen r)%Z
  then SeenRow (last_seen r) false else r.

Definition expire_stale_workers (conn : db) (now_ts timeout_s : Z) : db :=
  with_workers_seen conn (expire_row now_ts timeout_s <$> workers_seen conn).

(** Rows of [workers_seen] in the order of [ORDER BY last_seen DESC]; rows
    with equal [last_seen] come in an order SQL leaves open. *)
Definition more_recent (a b : string * string * seen_row) : Prop :=
  (last_seen b.2 ≤ last_seen a.2)%Z.

#[global] Instance more_recent_dec a b : Decision (more_recent a b) :=
  Z_le_dec _ _.

Definition by_recency (rows : list (string * string * seen_row))
    : list (string * string * seen_row) :=
  merge_sort more_recent rows.

Definition rows_where (conn : db) (p : string * string * seen_row -> bool)
    : list (string * string * seen_row) :=
  by_recency (List.filter p (map_to_list (workers_seen conn))).

(** [_active_workers_for_wallet] *)
Definition _active_workers_for_wallet (conn : db) (wallet : string)
    (now_ts timeout_s : Z) : list string :=
  map (fun r => r.1.2)
      (rows_where conn (fun r => String.eqb r.1.1 wallet && active r.2
                                 && (now_ts - timeout_s <=? last_seen r.2)%Z)).

(** [_refresh_single_worker_if_safe] *)
Definition _refresh_single_worker_if_safe (conn : db) (wallet : string)
    (workers_count : option Z) (now_ts timeout_s : Z) : db :=
  match workers_count with
  | Some 1%Z =>
      match _active_workers_for_wallet conn wallet now_ts timeout_s with
      | [worker] =>
          with_workers_seen conn
            (<[(wallet, worker) := SeenRow now_ts true]> (workers_seen conn))
      | _ => conn
      end
  | _ => conn
  end.

(** [_to_int_safe] *)
Definition _to_int_safe (v : pyval) : option Z :=
  match Py.int v with
  | Ok z => Some z
  | Raise =>
      match v with
      | PStr s =>
          match Num.float_of_str (Text.strip s) with
          | Some f => Num.trunc f
          | None => None
          end
      | _ => None
      end
  end.

End Store.

(** ** Incremental reader *)

Module Ingest.

Import Classifier Store.

(** The lines [f.readline()] returns in turn, each without its newline
    (the reader strips it with [rstrip]). *)
Fixpoint readlines (s : string) : list string :=
  match s with
  | EmptyString => []
  | String c r =>
      if Text.is_char "010" c then EmptyString :: readlines r
      else match readlines r with
           | [] => [String c EmptyString]
           | l :: ls => String c l :: ls
           end
  end.

(** The key of the cursor in [meta]. *)
Definition cursor_key (log_path : string) : string :=
  "log_ingest_cursor:" +:+ log_path.

(** [saved.isdigit()] and [int(saved)] on a stored cursor. *)
Definition saved_offset (saved : option string) : Z :=
  match saved with
  | Some s =>
      match NilZero.uint_of_string s with
      | Some d => Z.of_N (N.of_uint d)
      | None => 0
      end
  | None => 0
  end.

Section WithLibraries.

Variable json_loads : string -> option (gmap string pyval).
Variable decode_ts : string -> option Z.

(** [WORKER_TIMEOUT], read from the environment when the module loads. *)
Variable WORKER_TIMEOUT : Z.

(** [SELECT worker FROM workers_seen WHERE wallet=? ORDER BY last_seen DESC
    LIMIT 1], followed by the test [cur and cur[0]]. *)
Definition latest_worker (conn : db) (wallet : string) : option string :=
  match rows_where conn (fun r => String.eqb r.1.1 wallet) with
  | r :: _ => if Text.is_empty r.1.2 then None else Some r.1.2
  | [] => None
  end.

(** What the reader does with a user-status event. *)
Definition apply_user (conn : db) (usr : user_event) : db * bool :=
  let '(conn, counted) :=
    match upsert_user_stats conn usr with
    | Ok c => (c, true)
    | Raise => (conn, false)
    end in
  let wc := _to_int_safe (Py.get (ue_data usr) "workers") in
  let conn :=
    match wc with
    | Some n =>
        if (0 <? n)%Z then
          match latest_worker conn (ue_address usr) with
          | Some w => upsert_worker_seen conn (ue_address usr) w (ue_ts usr) true
          | None => conn
          end
        else conn
    | None => conn
    end in
  (_refresh_single_worker_if_safe conn (ue_address usr) wc (ue_ts usr) WORKER_TIMEOUT,
   counted).

(** What the reader does with a share event. *)
Definition apply_share (conn : db) (share : share_event) : db :=
  let conn := with_shares conn (shares conn ++ [share]) in
  match se_worker share with
  | Some w =>
      if Text.is_empty w then conn
      else upsert_worker_seen conn (se_address share) w (se_ts share) true
  | None => conn
  end.

(** The body of the read loop for one line; the flag tells whether the
    line was counted.  [now] is the clock as the line is classified. *)
Definition ingest_line (now : Z) (conn : db) (line : string) : db * bool :=
  match parse_pool_json_line json_loads decode_ts now line with
  | Some pj => (try_or (upsert_pool_metrics conn pj) conn, true)
  | None =>
  match parse_user_line json_loads decode_ts now line with
  | Some usr => apply_user conn usr
  | None =>
  match parse_authorised_line decode_ts now line with
  | Some auth =>
      (upsert_worker_seen conn (we_wallet auth) (we_worker auth) (we_ts auth) true, true)
  | None =>
  match parse_dropped_line decode_ts now line with
  | Some drop =>
      (upsert_worker_seen conn (we_wallet drop) (we_worker drop) (we_ts drop) false, true)
  | None =>
  match parse_share_line decode_ts now line with
  | Some share => (apply_share conn share, true)
  | None => (conn, false)
  end end end end end.

(** The read loop; [clock i] is the wall clock while line [i] of this pass
    is classified. *)
Fixpoint ingest_lines (clock : nat -> Z) (i : nat) (conn : db) (n : Z)
    (lines : list string) : db * Z :=
  match lines with
  | [] => (conn, n)
  | line :: rest =>
      let '(conn', counted) := ingest_line (clock i) conn line in
      ingest_lines clock (S i) conn' (if counted then n + 1 else n)%Z rest
  end.

(** [ingest_log] on a file with the given bytes. *)
Definition ingest_log (clock : nat -> Z) (conn : db) (log_path : string)
    (file : string) (from_bytes : Z) : db * Z :=
  let key := cursor_key log_path in
  let from_bytes :=
    if (from_bytes =? 0)%Z then saved_offset (get_meta conn key) else from_bytes in
  (* a negative offset makes [seek] raise; the reader stays at byte 0 *)
  let start := Z.max 0 from_bytes in
  let '(conn', n) :=
    ingest_lines clock 0 conn 0 (readlines (Re.drop (Z.to_nat start) file)) in
  let pos := Z.max start (Z.of_nat (String.length file)) in
  (set_meta conn' key (Text.str_of_Z pos), n).

End WithLibraries.

End Ingest.

(** ** Concrete readings of the library calls

    Used where a statement is evaluated on a concrete log.  [utc_stamp]
    reads a zero-padded stamp of either [TS_FORMATS] shape on a host whose
    local zone is UTC; [json_flat] decodes an object whose members are
    integers, plain strings, [true], [false] or [null].  Both answer [None]
    on any other text. *)

Module Lib.

Local Open Scope Z_scope.

(** Exactly [n] decimal digits. *)
Fixpoint take_digits (n : nat) (s : string) (acc : Z) : option (Z * string) :=
  match n with
  | O => Some (acc, s)
  | S m =>
      match s with
      | String c r =>
          if Text.is_digit c
          then take_digits m r (10 * acc + Z.of_N (Text.digit_val c))
          else None
      | EmptyString => None
      end
  end.

Definition expect (x : ascii) (s : string) : option string :=
  match s with
  | String c r => if Ascii.eqb c x then Some r else None
  | EmptyString => None
  end.

Definition is_leap (y : Z) : bool :=
  ((y mod 4 =? 0) && negb (y mod 100 =? 0) || (y mod 400 =? 0))%Z.

Definition days_in_month (y m : Z) : Z :=
  if (m =? 2)%Z then (if is_leap y then 29 else 28)
  else if ((m =? 4) || (m =? 6) || (m =? 9) || (m =? 11))%Z then 30 else 31.

(** Days from 1970-01-01 to the given civil date. *)
Definition days_from_civil (y m d : Z) : Z :=
  let y' := if (m <=? 2)%Z then y - 1 else y in
  let era := y' / 400 in
  let yoe := y' - era * 400 in
  let mp := (m + 9) mod 12 in
  let doy := (153 * mp + 2) / 5 + d - 1 in
  let doe := yoe * 365 + yoe / 4 - yoe / 100 + doy in
  era * 146097 + doe - 719468.

Definition fraction_ok (s : string) : bool :=
  match s with
  | EmptyString => true
  | String c r =>
      Text.is_char "." c && Text.all_chars Text.is_digit r
      && (1 <=? String.length r)%nat && (String.length r <=? 6)%nat
  end.

Definition utc_stamp (s : string) : option Z :=
  '(y, s) ← take_digits 4 s 0; s ← expect "-" s;
  '(mo, s) ← take_digits 2 s 0; s ← expect "-" s;
  '(d, s) ← take_digits 2 s 0; s ← expect " " s;
  '(h, s) ← take_digits 2 s 0; s ← expect ":" s;
  '(mi, s) ← take_digits 2 s 0; s ← expect ":" s;
  '(sec, s) ← take_digits 2 s 0;
  if ((1 <=? y) && (1 <=? mo) && (mo <=? 12) && (1 <=? d) && (d <=? days_in_month y mo)
      && (h <? 24) && (mi <? 60) && (sec <? 60))%Z && fraction_ok s
  then Some (days_from_civil y mo d * 86400 + h * 3600 + mi * 60 + sec)
  else None.

(** The double quote. *)
Definition dq : ascii := "034".

Definition json_space (c : ascii) : bool :=
  Text.is_char " " c || Text.is_char "009" c || Text.is_char "010" c
  || Text.is_char "013" c.

Definition skip_ws (s : string) : string := Text.lstrip json_space s.

(** The body of a string up to its closing quote; escapes and control
    characters are outside the fragment. *)
Fixpoint scan_string (s : string) : option (string * string) :=
  match s with
  | EmptyString => None
  | String c r =>
      if Ascii.eqb c dq then Some (EmptyString, r)
      else if Text.is_char "\" c || (Text.code c <? 32)%N then None
      else '(a, rest) ← scan_string r; Some (String c a, rest)
  end.

Fixpoint scan_nat (s : string) (acc : Z) (cnt : nat) : Z * nat * string :=
  match s with
  | String c r =>
      if Text.is_digit c
      then scan_nat r (10 * acc + Z.of_N (Text.digit_val c)) (S cnt)
      else (acc, cnt, s)
  | EmptyString => (acc, cnt, s)
  end.

(** An integer literal: no leading zero, no fraction, no exponent. *)
Definition scan_int (s : string) : option (pyval * string) :=
  let '(neg, s1) :=
    match s with
    | String c r => if Text.is_char "-" c then (true, r) else (false, s)
    | EmptyString => (false, s)
    end in
  let '(n, cnt, rest) := scan_nat s1 0 0 in
  let leading_zero :=
    match s1 with
    | String c _ => Text.is_char "0" c && (1 <? cnt)%nat
    | EmptyString => false
    end in
  let goes_on :=
    match rest with
    | String c _ => Text.is_char "." c || Text.is_char "e" c || Text.is_char "E" c
    | EmptyString => false
    end in
  if (cnt =? 0)%nat || leading_zero || goes_on then None
  else Some (PInt (if neg then - n else n), rest).

Definition scan_value (s : string) : option (pyval * string) :=
  match s with
  | String c r =>
      if Ascii.eqb c dq then '(a, rest) ← scan_string r; Some (PStr a, rest)
      else if String.prefix "true" s then Some (PBool true, Re.drop 4 s)
      else if String.prefix "false" s then Some (PBool false, Re.drop 5 s)
      else if String.prefix "null" s then Some (PNone, Re.drop 4 s)
      else scan_int s
  | EmptyString => None
  end.

(** The members of an object, from the first key to the closing brace. *)
Fixpoint scan_members (fuel : nat) (s : string) (acc : gmap string pyval)
    : option (gmap string pyval * string) :=
  match fuel with
  | O => None
  | S fuel =>
      s ← expect dq (skip_ws s);
      '(key, s) ← scan_string s;
      s ← expect ":" (skip_ws s);
      '(v, s) ← scan_value (skip_ws s);
      match skip_ws s with
      | String c r =>
          if Text.is_char "," c then scan_members fuel r (<[key := v]> acc)
          else if Text.is_char "}" c then Some (<[key := v]> acc, r)
          else None
      | EmptyString => None
      end
  end.

Definition json_flat (s : string) : option (gmap string pyval) :=
  s1 ← expect "{" (skip_ws s);
  '(d, rest) ←
    match skip_ws s1 with
    | String c r =>
        if Text.is_char "}" c then Some (∅, r)
        else scan_members (String.length s) s1 ∅
    | EmptyString => None
    end;
  if Text.is_empty (skip_ws rest) then Some d else None.

End Lib.

(** ** Wallet aggregator and snapshot builder *)

Module Snapshot.

Import Num Units Classifier Store.

(** The running sums kept per wallet in [per_wallet]. *)
Record agg : Type := Agg {
  ag_ts : Z;
  ag_hashrate1m_sum : float;
  ag_hashrate5m_sum : float;
  ag_hashrate1hr_sum : float;
  ag_lastshare : pyval;
  ag_workers_reported : Z;
  ag_shares : Z;
  ag_bestshare : pyval
}.

(** A row of [users] in the snapshot. *)
Record wallet_row : Type := WalletRow {
  wr_wallet : string;
  wr_address : string;
  wr_user : string;
  wr_worker : string;
  wr_active_workers : list string;
  wr_shares : Z;
  wr_lastshare : pyval;
  wr_hashrate1m : string;
  wr_hashrate5m : string;
  wr_hashrate1hr : string;
  wr_bestshare : pyval;
  wr_workers : Z
}.

Record totals : Type := Totals {
  workers_count : Z;
  users_count : Z;
  total_hashrate1m : pyval;
  runtime_s : pyval
}.

Record snapshot : Type := Snap {
  pool : gmap string pyval;
  users : list wallet_row;
  snap_totals : option totals
}.

Definition zero : pyval := PInt 0.

Definition as_number (v : pyval) : option float :=
  match v with
  | PBool b => Some (Fin (if b then 1 else 0))
  | PInt z => Some (of_Z z)
  | PFloat f => Some f
  | _ => None
  end.

(** [a > b]; [Raise] is the [TypeError] of an unordered pair. *)
Definition py_gt (a b : pyval) : result bool :=
  match as_number a, as_number b with
  | Some x, Some y => Ok (fgt x y)
  | _, _ =>
      match a, b with
      | PStr s, PStr t => Ok (Text.ltb t s)
      | _, _ => Raise
      end
  end.

(** [max(a, b)] *)
Definition py_max (a b : pyval) : result pyval :=
  g ← py_gt b a; Ok (if g : bool then b else a).

Definition hs_of (v : pyval) : float := _parse_hashrate_to_hs (Py.or_else v zero).

(** The first record of a wallet seeds its sums. *)
Definition seed (r : user_row) : result agg :=
  w ← Py.int (Py.or_else (ur_workers r) zero);
  s ← Py.int (Py.or_else (ur_shares r) zero);
  Ok (Agg (ur_ts r) (hs_of (ur_hashrate1m r)) (hs_of (ur_hashrate5m r))
          (hs_of (ur_hashrate1hr r))
          (Py.or_else (ur_lastshare r) (PInt (ur_ts r)))
          w s (Py.or_else (ur_bestshare r) zero)).

(** A later record of the same wallet is folded into them. *)
Definition merge_row (cur : agg) (r : user_row) : result agg :=
  let ts :=
    if negb (ur_ts r =? 0)%Z && (ag_ts cur <? ur_ts r)%Z then ur_ts r else ag_ts cur in
  let lastshare :=
    if Py.truthy (ur_lastshare r) then
      match (a ← Py.int (Py.or_else (ur_lastshare r) zero);
             b ← Py.int (Py.or_else (ag_lastshare cur) zero);
             Ok (b <? a)%Z) with
      | Ok true => ur_lastshare r
      | _ => ag_lastshare cur
      end
    else ag_lastshare cur in
  w ← Py.int (Py.or_else (ur_workers r) zero);
  let shares :=
    try_or (s ← Py.int (Py.or_else (ur_shares r) zero); Ok (ag_shares cur + s)%Z)
           (ag_shares cur) in
  best ← py_max (Py.or_else (ag_bestshare cur) zero) (Py.or_else (ur_bestshare r) zero);
  Ok (Agg ts
          (fadd (ag_hashrate1m_sum cur) (hs_of (ur_hashrate1m r)))
          (fadd (ag_hashrate5m_sum cur) (hs_of (ur_hashrate5m r)))
          (fadd (ag_hashrate1hr_sum cur) (hs_of (ur_hashrate1hr r)))
          lastshare (Z.max (ag_workers_reported cur) w) shares best).

(** The loop over [raw_rows] that fills [per_wallet]. *)
Definition add_row (acc : result (gmap string agg)) (kr : string * user_row)
    : result (gmap string agg) :=
  per_wallet ← acc;
  let wallet := (_split_addr_worker kr.1).1 in
  a ← match per_wallet !! wallet with
      | None => seed kr.2
      | Some cur => merge_row cur kr.2
      end;
  Ok (<[wallet := a]> per_wallet).

Definition aggregate (raw_rows : list (string * user_row)) : result (gmap string agg) :=
  fold_left add_row raw_rows (Ok ∅).

(** A summed hashrate as the row shows it. *)
Definition render (x : float) : string :=
  if fgt x (Fin 0) then _human_hashrate x else Text.EM_DASH.

(** [ORDER BY wallet, last_seen DESC] *)
Definition wallet_then_recent (a b : string * string * seen_row) : Prop :=
  Text.ltb a.1.1 b.1.1 = true
  ∨ (a.1.1 = b.1.1 ∧ (last_seen b.2 ≤ last_seen a.2)%Z).

#[global] Instance wallet_then_recent_dec a b : Decision (wallet_then_recent a b).
Proof. unfold wallet_then_recent. apply _. Defined.

(** The rows seen since the cutoff, gathered per wallet with [setdefault]. *)
Definition gather (m : gmap string (list (string * Z))) (r : string * string * seen_row)
    : gmap string (list (string * Z)) :=
  <[r.1.1 := default [] (m !! r.1.1) ++ [(r.1.2, last_seen r.2)]]> m.

Definition active_by_wallet (conn : db) (cutoff : Z) : gmap string (list (string * Z)) :=
  fold_left gather
    (merge_sort wallet_then_recent
       (List.filter (fun r => (cutoff <=? last_seen r.2)%Z)
                    (map_to_list (workers_seen conn))))
    ∅.

(** The names of a wallet's rows, empty names dropped and repeats removed,
    first occurrence kept. *)
Fixpoint seen_names (rows : list (string * Z)) (seen : list string) : list string :=
  match rows with
  | [] => []
  | (name, _) :: rest =>
      if Text.is_empty name || bool_decide (name ∈ seen) then seen_names rest seen
      else name :: seen_names rest (name :: seen)
  end.

Definition make_row (per_wallet : gmap string agg)
    (by_wallet : gmap string (list (string * Z))) (wallet : string) : wallet_row :=
  let snap := per_wallet !! wallet in
  let names := seen_names (default [] (by_wallet !! wallet)) [] in
  let workers_count_fallback :=
    match snap with Some a => ag_workers_reported a | None => 0%Z end in
  WalletRow wallet wallet wallet ""
    names
    (match snap with Some a => ag_shares a | None => 0%Z end)
    (match snap with
     | Some a => Py.or_else (ag_lastshare a) (PInt (ag_ts a))
     | None => PNone
     end)
    (match snap with Some a => render (ag_hashrate1m_sum a) | None => Text.EM_DASH end)
    (match snap with Some a => render (ag_hashrate5m_sum a) | None => Text.EM_DASH end)
    (match snap with Some a => render (ag_hashrate1hr_sum a) | None => Text.EM_DASH end)
    (match snap with Some a => ag_bestshare a | None => PNone end)
    (match names with
     | _ :: _ => Z.of_nat (length names)
     | [] =>
         if (workers_count_fallback =? 0)%Z
         then (match snap with Some _ => 1 | None => 0 end)%Z
         else workers_count_fallback
     end).

(** The sort key [(-hashrate5m, wallet)] and its order. *)
Definition sort_key (u : wallet_row) : float * string :=
  (fneg (_parse_hashrate_to_hs (PStr (wr_hashrate5m u))), wr_wallet u).

Definition key_le (a b : wallet_row) : Prop :=
  flt (sort_key a).1 (sort_key b).1 = true
  ∨ (feqb (sort_key a).1 (sort_key b).1 = true
     ∧ Text.leb (sort_key a).2 (sort_key b).2 = true).

#[global] Instance key_le_dec a b : Decision (key_le a b).
Proof. unfold key_le. apply _. Defined.

(** [get_pool_snapshot]: the row of the greatest timestamp, under the keys
    the UI reads. *)
Definition POOL_KEYS : list (string * string) :=
  [ ("hashrate1m", "hashrate1m"); ("hashrate5m", "hashrate5m");
    ("hashrate15m", "hashrate15m"); ("hashrate1hr", "hashrate1hr");
    ("hashrate6hr", "hashrate6hr"); ("hashrate1d", "hashrate1d");
    ("hashrate7d", "hashrate7d"); ("runtime", "runtime");
    ("lastupdate", "lastupdate"); ("users", "Users"); ("workers", "Workers");
    ("idle", "Idle"); ("disconnected", "Disconnected"); ("accepted", "accepted");
    ("rejected", "rejected"); ("bestshare", "bestshare"); ("sps1m", "SPS1m");
    ("sps5m", "SPS5m"); ("diff", "diff") ]%string.

Definition max_key (m : gmap Z (gmap string pyval)) : option Z :=
  match map_to_list m with
  | [] => None
  | (k, _) :: rest => Some (fold_left Z.max (map fst rest) k)
  end.

Definition get_pool_snapshot (conn : db) : gmap string pyval :=
  match max_key (pool_metrics conn) with
  | None => ∅
  | Some ts =>
      let row := default ∅ (pool_metrics conn !! ts) in
      list_to_map (("ts"%string, PInt ts)
                   :: map (fun ck => (ck.2, col row ck.1)) POOL_KEYS)
  end.

(** [get_pool_runtime_seconds]: [MIN(ts)] of a table counts when it is
    neither [NULL] nor zero. *)
Definition min_of (l : list Z) : option Z :=
  match l with
  | [] => None
  | x :: rest => Some (fold_left Z.min rest x)
  end.

Definition table_min (l : list Z) : list Z :=
  match min_of l with
  | Some t => if (t =? 0)%Z then [] else [t]
  | None => []
  end.

Definition get_pool_runtime_seconds (conn : db) (now : Z) : Z :=
  let mins :=
    table_min (map fst (map_to_list (pool_metrics conn)))
    ++ table_min (map (fun kr => ur_ts kr.2) (map_to_list (user_stats conn)))
    ++ table_min (map se_ts (shares conn)) in
  match min_of mins with
  | Some earliest => if (earliest =? 0)%Z then 0%Z else Z.max 0 (now - earliest)
  | None => 0%Z
  end.

(** A row whose count columns hold what the schema declares: an integer
    or [NULL] in [workers] and [shares], a number or [NULL] in
    [bestshare]. *)
Definition is_count (v : pyval) : bool :=
  match v with PNone | PInt _ => true | _ => false end.
Definition is_numeric (v : pyval) : bool :=
  match v with PNone | PInt _ | PFloat _ => true | _ => false end.
Definition typed_row (r : user_row) : bool :=
  is_count (ur_workers r) && is_count (ur_shares r) && is_numeric (ur_bestshare r).


Definition sum_float (l : list float) : float := fold_left fadd l (Fin 0).
Definition sum_Z (l : list Z) : Z := fold_left Z.add l 0%Z.

Section WithLibraries.

Variable json_loads : string -> option (gmap string pyval).
Variable decode_ts : string -> option Z.
Variable WORKER_TIMEOUT : Z.

(** [CKPoolState._build_from_log].  [log] is the path and the bytes of the
    log file when it is configured and exists; [now] is the clock after the
    ingestion.  The first component is the store as the call leaves it: the
    ingestion commits, while the expiry sweep runs on a connection that is
    closed without a commit. *)
Definition _build_from_log (conn : db) (log : option (string * string))
    (clock : nat -> Z) (now : Z) : db * result snapshot :=
  let stored :=
    match log with
    | Some (log_path, file) =>
        (Ingest.ingest_log json_loads decode_ts WORKER_TIMEOUT clock conn log_path file 0).1
    | None => conn
    end in
  let pool := get_pool_snapshot stored in
  let runtime := get_pool_runtime_seconds stored now in
  let conn := expire_stale_workers stored now WORKER_TIMEOUT in
  (stored,
   per_wallet ← aggregate (map_to_list (user_stats conn));
   let by_wallet := active_by_wallet conn (now - WORKER_TIMEOUT) in
   let wallets : gset string := dom per_wallet ∪ dom by_wallet in
   let users := map (make_row per_wallet by_wallet) (elements wallets) in
   let total_h1_hs :=
     sum_float (map (fun u => _parse_hashrate_to_hs (PStr (wr_hashrate1m u))) users) in
   let workers_total :=
     let n := sum_Z (map (fun u => Z.of_nat (length (wr_active_workers u))) users) in
     if (n =? 0)%Z then sum_Z (map wr_workers users) else n in
   let total :=
     if fgt total_h1_hs (Fin 0) then PStr (_human_hashrate total_h1_hs)
     else Py.or_else (Py.get pool "hashrate1m") PNone in
   let tot :=
     Totals workers_total (Z.of_nat (length users)) total
            (Py.or_else (Py.get pool "runtime") (PInt runtime)) in
   let pool := if Py.truthy total then <["hashrate1m"%string := total]> pool else pool in
   Ok (Snap pool (merge_sort key_le users) (Some tot))).

End WithLibraries.

End Snapshot.

(** ** Remote status mode *)

Module Http.

(** What the three library calls of [_fetch_status_http] can do:
    [requests.get] raises; [raise_for_status] raises (the library does so
    for a 4xx or 5xx status); [r.json()] raises; or [r.json()] returns. *)
Inductive fetched : Type :=
| ConnectionFailed
| StatusRejected
| BodyMalformed
| Body (data : pyval).

Definition EMPTY : pyval :=
  PDict (<["pool"%string := PDict ∅]>
         (<["users"%string := PList []]> {[ "totals"%string := PDict ∅ ]})).

(** The return of the [not isinstance(data, dict)] branch. *)
Definition EMPTY_NO_TOTALS : pyval :=
  PDict (<["pool"%string := PDict ∅]> {[ "users"%string := PList [] ]}).

(** [s.split(".", 1)[0]] *)
Definition before_dot (s : string) : string :=
  match Text.split_once "." s with
  | Some (a, _) => a
  | None => s
  end.

Section WithRepr.

(** [str(v)] of a value that is not a string. *)
Variable repr : pyval -> string.

Definition py_str (v : pyval) : string :=
  match v with
  | PStr s => s
  | _ => repr v
  end.

(** The body of [for u in users]; a [u] without [get], a [user] without
    [split] and a [wallet] that cannot be joined to a string raise. *)
Definition fix_user (u : pyval) : result pyval :=
  match u with
  | PDict d =>
      wallet ←
        (if Py.truthy (Py.get d "wallet") then Ok (Py.get d "wallet")
         else match Py.or_else (Py.get d "user") (PStr "") with
              | PStr s => Ok (PStr (before_dot s))
              | _ => Raise
              end);
      let user_s := py_str (Py.or_else (Py.get d "user") (PStr "")) in
      match wallet with
      | PStr w =>
          let wrk :=
            if Text.startswith user_s (w +:+ ".")
            then Re.drop (String.length w + 1) user_s else ""%string in
          Ok (PDict (<["worker"%string := PStr wrk]>
                     (<["address"%string := wallet]>
                      (<["wallet"%string := wallet]> d))))
      | _ => Raise
      end
  | _ => Raise
  end.

Fixpoint fix_users (us : list pyval) : result (list pyval) :=
  match us with
  | [] => Ok []
  | u :: rest => u' ← fix_user u; rest' ← fix_users rest; Ok (u' :: rest')
  end.

(** [for u in users] over whatever [data.get("users") or []] is: a list is
    walked; a dict or a string yields strings, which have no [get]; any other
    truthy value is not iterable. *)
Definition walk_users (users : pyval) : result (list pyval) :=
  match users with
  | PList l => fix_users l
  | _ => if Py.truthy users then Raise else Ok []
  end.

(** The statements under [try], from the decoded body on. *)
Definition from_body (data : pyval) : result pyval :=
  let data :=
    match data with
    | PDict d =>
        match d !! "status"%string with
        | Some (PDict st) => PDict st
        | _ => data
        end
    | _ => data
    end in
  match data with
  | PDict d =>
      let pool := Py.or_else (Py.get d "pool") (PDict ∅) in
      users ← walk_users (Py.get d "users");
      Ok (PDict (<["pool"%string := pool]>
                 (<["users"%string := PList users]> {[ "totals"%string := PDict ∅ ]})))
  | _ => Ok EMPTY_NO_TOTALS
  end.

(** [CKPoolState._fetch_status_http] *)
Definition _fetch_status_http (r : fetched) : pyval :=
  match r with
  | Body data => try_or (from_body data) EMPTY
  | _ => EMPTY
  end.

(** The outcomes the claim calls a failed fetch: an exception of one of
    the library calls, a body that is not a dict, or a body whose walk
    raises. *)
Definition is_failure (r : fetched) : bool :=
  match r with
  | Body (PDict d) =>
      match from_body (PDict d) with
      | Ok _ => false
      | Raise => true
      end
  | _ => true
  end.

End WithRepr.

(** A snapshot with its two mandatory keys, and an empty one. *)
Definition well_formed (v : pyval) : Prop :=
  exists d pool users,
    v = PDict d /\ d !! "pool"%string = Some pool
    /\ d !! "users"%string = Some (PList users).

Definition empty_snapshot (v : pyval) : Prop :=
  exists d,
    v = PDict d /\ d !! "pool"%string = Some (PDict ∅)
    /\ d !! "users"%string = Some (PList []).

End Http.

(** ** What ingestion keeps *)

Module Keeps.

Import Store.

(** [c'] holds everything [c] holds: the share log of [c] is the start of
    the share log of [c'], and every key of a keyed table of [c] is a key
    of that table in [c']. *)
Definition extends (c c' : db) : Prop :=
  (exists more, shares c' = shares c ++ more)
  /\ dom (workers_seen c) ⊆ dom (workers_seen c')
  /\ dom (user_stats c) ⊆ dom (user_stats c')
  /\ dom (pool_metrics c) ⊆ dom (pool_metrics c').

End Keeps.

(** ** Retry-safe commit and execute *)

Module Retry.

(** What one call of [conn.commit()] or [conn.execute()] does: it returns,
    it raises an [OperationalError] whose text mentions a lock, or it
    raises anything else. *)
Inductive attempt : Type :=
| Done
| Locked
| Failed.

(** How the loop ends: it returned from attempt number [attempts], it
    let the exception of attempt number [attempts] through, or it ran out
    of attempts and raised the persistent-lock error. *)
Inductive outcome : Type :=
| Returned (attempts : nat)
| Reraised (attempts : nat)
| GaveUp.

(** [for i in range(retries)]: [i] is the index of the next attempt, [left]
    the number of attempts left, [slept] the time slept so far; [pause i] is
    the sleep after a locked attempt [i]. *)
Fixpoint retry_loop (pause : nat -> Q) (tries : nat -> attempt) (i left : nat)
    (slept : Q) : outcome * Q :=
  match left with
  | O => (GaveUp, slept)
  | S left' =>
      match tries i with
      | Done => (Returned (S i), slept)
      | Failed => (Reraised (S i), slept)
      | Locked => retry_loop pause tries (S i) left' (slept + pause i)%Q
      end
  end.

(** [safe_commit]: the pause is [delay]. *)
Definition safe_commit (tries : nat -> attempt) (retries : Z) (delay : Q) : outcome * Q :=
  retry_loop (fun _ => delay) tries 0 (Z.to_nat retries) 0.

(** [execute_with_retry]: the pause is [delay * (i + 1)]. *)
Definition execute_with_retry (tries : nat -> attempt) (retries : Z) (delay : Q)
    : outcome * Q :=
  retry_loop (fun i => delay * inject_Z (Z.of_nat i + 1))%Q tries 0 (Z.to_nat retries) 0.

End Retry.

(** ** The throttled state object *)

Module State.

Import Store.

(** The two fields of [CKPoolState] that [refresh] writes. *)
Record state (S : Type) : Type := MkState {
  _last_refresh_ts : Z;
  _snapshot : S
}.
Arguments MkState {S} _ _.
Arguments _last_refresh_ts {S} _.
Arguments _snapshot {S} _.

(** [CKPoolState.refresh].  [build] stands for the builder of the
    configured mode: from the store it gives the store it leaves and the
    snapshot, or an exception; [now] is the clock read by [refresh]. *)
Definition refresh {S : Type} (build : db -> db * result S) (now : Z)
    (st : state S) (conn : db) : state S * db :=
  if (now =? _last_refresh_ts st)%Z then (st, conn)
  else
    let '(conn', r) := build conn in
    (MkState now (match r with Ok s => s | Raise => _snapshot st end), conn').

(** [CKPoolState.snapshot]: [blank] is the test that the cached snapshot
    has neither pool metrics nor users. *)
Definition snapshot {S : Type} (blank : S -> bool) (build : db -> db * result S)
    (now : Z) (st : state S) (conn : db) : S * (state S * db) :=
  let r := if blank (_snapshot st) then refresh build now st conn else (st, conn) in
  (_snapshot r.1, r).

(** The builder of the log mode and its blank test. *)
Definition log_blank (s : Snapshot.snapshot) : bool :=
  negb (Py.truthy (PDict (Snapshot.pool s)))
  && match Snapshot.users s with [] => true | _ => false end.

(** The state [__init__] leaves. *)
Definition initial : state Snapshot.snapshot :=
  MkState 0 (Snapshot.Snap ∅ [] None).

End State.

(** ** Blocks ledger *)

Module Ledger.

(** A row of [blocks] without its key [height]; [None] is [NULL].  The
    columns [blockhash], [txid] and [address] are declared [TEXT], so a
    number stored in them is kept as its text. *)
Record block_row : Type := BlockRow {
  blockhash : option string;
  block_ts : option Z;
  reward_btc : option Num.float;
  txid : option string;
  address : option string
}.

(** The dict the three readers yield for a row of the file. *)
Record block_rec : Type := BlockRec {
  height : Z;
  rec_blockhash : pyval;
  rec_ts : option Z;
  rec_reward_btc : option Num.float;
  rec_txid : pyval;
  rec_address : pyval
}.

(** A dict of [get_wallet_rewards]. *)
Record reward : Type := Reward {
  rw_height : Z;
  rw_hash : option string;
  rw_ts : option Z;
  rw_reward_btc : option Num.float;
  rw_txid : option string
}.




(** An integer [sqlite3] can bind. *)
Definition fits_int64 (z : Z) : bool :=
  (- 2 ^ 63 <=? z)%Z && (z <? 2 ^ 63)%Z.

(** SQL [COALESCE] on a column. *)
Definition coalesce {A : Type} (a b : option A) : option A :=
  match a with Some _ => a | None => b end.

Definition merge_block (new old : block_row) : block_row :=
  BlockRow (coalesce (blockhash new) (blockhash old))
           (coalesce (block_ts new) (block_ts old))
           (coalesce (reward_btc new) (reward_btc old))
           (coalesce (txid new) (txid old))
           (coalesce (address new) (address old)).


(** [ORDER BY ts DESC]: [NULL] sorts below every number. *)
Definition ts_desc (a b : option Z) : Prop :=
  match a, b with
  | Some x, Some y => (y <= x)%Z
  | Some _, None => True
  | None, Some _ => False
  | None, None => True
  end.

#[global] Instance ts_desc_dec a b : Decision (ts_desc a b).
Proof. unfold ts_desc. destruct a, b; apply _. Defined.

Definition newer (a b : Z * block_row) : Prop :=
  ts_desc (block_ts a.2) (block_ts b.2).

#[global] Instance newer_dec a b : Decision (newer a b).
Proof. unfold newer. apply _. Defined.

Definition reward_of (hr : Z * block_row) : reward :=
  Reward hr.1 (blockhash hr.2) (block_ts hr.2) (reward_btc hr.2) (txid hr.2).

(** [get_wallet_rewards]: the blocks credited to the address, newest
    first. *)
Definition get_wallet_rewards (blocks : gmap Z block_row) (addr : string)
    : list reward :=
  map reward_of
    (merge_sort newer
       (List.filter (fun hr => bool_decide (address hr.2 = Some addr))
                    (map_to_list blocks))).

Section WithLibraries.

(** The three [strptime] formats of [_to_int_ts] tried in order, then
    [fromisoformat]; [None] when all raise. *)
Variable decode_date : string -> option Z.

(** The text SQLite keeps for a float stored in a [TEXT] column. *)
Variable float_text : Num.float -> string.




(** What a [TEXT] column keeps of a bound value: text as it is, a number
    as its text, a NaN as [NULL]; [Raise] when the value cannot be bound. *)
Definition to_text (v : pyval) : result (option string) :=
  match v with
  | PNone => Ok None
  | PBool b => Ok (Some (if b then "1" else "0")%string)
  | PInt z => if fits_int64 z then Ok (Some (Text.str_of_Z z)) else Raise
  | PFloat Num.NaN => Ok None
  | PFloat f => Ok (Some (float_text f))
  | PStr s => Ok (Some s)
  | PList _ | PDict _ => Raise
  end.

(** What a [REAL] column keeps: a NaN is bound as [NULL]. *)
Definition to_real (o : option Num.float) : option Num.float :=
  match o with
  | Some Num.NaN => None
  | _ => o
  end.

(** [_upsert_block] on the [blocks] table. *)
Definition _upsert_block (blocks : gmap Z block_row) (rec : block_rec)
    : result (gmap Z block_row) :=
  if fits_int64 (height rec) && from_option fits_int64 true (rec_ts rec) then
    bh ← to_text (rec_blockhash rec);
    tx ← to_text (rec_txid rec);
    ad ← to_text (rec_address rec);
    let new := BlockRow bh (rec_ts rec) (to_real (rec_reward_btc rec)) tx ad in
    Ok (<[height rec := match blocks !! height rec with
                        | Some old => merge_block new old
                        | None => new
                        end]> blocks)
  else Raise.



End WithLibraries.

End Ledger.

(** ** Logs used in the scenarios *)

Module Scenario.

Definition nl : string := String "010" EmptyString.
Definition quote : string := String Lib.dq EmptyString.

(** A file with the given lines, each ended by a newline. *)
Definition file_of (lines : list string) : string :=
  fold_right (fun l acc => l +:+ nl +:+ acc) EmptyString lines.

(** An address the patterns accept. *)
Definition WALLET : string := "1BoatSLRHtKNngkdXEeobR76b53LETtpyT".


(** A log in which a user-status line reporting one worker stands between
    the authorisations of two workers. *)
Definition two_workers_log : string :=
  file_of
    [ "[2024-01-01 00:00:50] Authorised client 1 10.0.0.1 worker " +:+ WALLET
        +:+ ".rig1 as user " +:+ WALLET;
      "[2024-01-01 00:01:40] User " +:+ WALLET +:+ ":{" +:+ quote +:+ "workers"
        +:+ quote +:+ ": 1}";
      "[2024-01-01 00:03:20] Authorised client 2 10.0.0.1 worker " +:+ WALLET
        +:+ ".rig2 as user " +:+ WALLET ].

End Scenario.

(** * Properties *)

(** A decidable closed proposition, settled by evaluation. *)
Ltac by_compute := apply (bool_decide_unpack _); vm_compute; exact I.

(** ** Worker liveness: the expiry sweep *)

Section Liveness.

Import Store.

Lemma expire_lookup (conn : db) (now_ts timeout_s : Z) (k : string * string) :
  workers_seen (expire_stale_workers conn now_ts timeout_s) !! k
  = expire_row now_ts timeout_s <$> workers_seen conn !! k.
Proof. unfold expire_stale_workers; simpl. apply lookup_fmap. Qed.

Lemma expire_row_stale (T now_ts timeout_s : Z) :
  (timeout_s < now_ts - T)%Z ->
  expire_row now_ts timeout_s (SeenRow T true) = SeenRow T false.
Proof.
  intros H. unfold expire_row; simpl.
  destruct (Z.ltb_spec timeout_s (now_ts - T)); [reflexivity | lia].
Qed.

Lemma expire_row_fresh (r : seen_row) (now_ts timeout_s : Z) :
  (now_ts - last_seen r <= timeout_s)%Z ->
  expire_row now_ts timeout_s r = r.
Proof.
  intros H. unfold expire_row.
  destruct (Z.ltb_spec timeout_s (now_ts - last_seen r)); [lia |].
  now rewrite andb_false_r.
Qed.

(** C2. A row that is active with [last_seen = T] is set inactive by a
    sweep with timeout [W] run at time [T + W + 1], and is left active by a
    sweep run at time [T + W - 1]; its [last_seen] is kept in both cases. *)
Theorem expire_sweep_boundary (conn : db) (k : string * string) (T W : Z) :
  workers_seen conn !! k = Some (SeenRow T true) ->
  workers_seen (expire_stale_workers conn (T + W + 1) W) !! k = Some (SeenRow T false)
  /\ workers_seen (expire_stale_workers conn (T + W - 1) W) !! k = Some (SeenRow T true).
Proof.
  intros Hk. rewrite !expire_lookup, Hk; simpl. split; f_equal.
  - apply expire_row_stale. lia.
  - apply (expire_row_fresh (SeenRow T true)). simpl. lia.
Qed.

Lemma expire_sweep_boundary_witness :
  let conn := upsert_worker_seen empty_db "1BoatSLRHtKNngkdXEeobR76b53LETtpyT" "rig1" 1000 true in
  let k := ("1BoatSLRHtKNngkdXEeobR76b53LETtpyT", "rig1")%string in
  workers_seen conn !! k = Some (SeenRow 1000 true)
  /\ workers_seen (expire_stale_workers conn (1000 + 300 + 1) 300) !! k
     = Some (SeenRow 1000 false)
  /\ workers_seen (expire_stale_workers conn (1000 + 300 - 1) 300) !! k
     = Some (SeenRow 1000 true).
Proof.
  intros conn k.
  assert (Hk : workers_seen conn !! k = Some (SeenRow 1000 true))
    by (vm_compute; reflexivity).
  split; [exact Hk | exact (expire_sweep_boundary conn k 1000 300 Hk)].
Defined.

End Liveness.

(** ** Pool metrics: merge of non-null fields *)

Section PoolMetrics.

Import Store.

Lemma POOL_COLS_NoDup : NoDup POOL_COLS.
Proof. by_compute. Qed.

Lemma lookup_tabulate (f : string -> pyval) (cols : list string) (c : string) :
  NoDup cols -> c ∈ cols ->
  (list_to_map (map (fun c => (c, f c)) cols) : gmap string pyval) !! c = Some (f c).
Proof.
  intros Hnd Hin. apply elem_of_list_to_map_1.
  - assert (E : (map (fun c => (c, f c)) cols).*1 = cols).
    { clear. induction cols as [| x xs IH]; simpl; [reflexivity | now f_equal]. }
    rewrite E. exact Hnd.
  - apply (list_elem_of_fmap_2 (fun c => (c, f c))). exact Hin.
Qed.



End PoolMetrics.

(** ** Remote status mode never raises *)

Section RemoteStatus.

Import Http.

Lemma EMPTY_is_empty : empty_snapshot EMPTY.
Proof. eexists. split; [reflexivity |]. split; vm_compute; reflexivity. Qed.

Lemma EMPTY_NO_TOTALS_is_empty : empty_snapshot EMPTY_NO_TOTALS.
Proof. eexists. split; [reflexivity |]. split; vm_compute; reflexivity. Qed.

Lemma empty_is_well_formed (v : pyval) : empty_snapshot v -> well_formed v.
Proof. intros (d & -> & Hp & Hu). now exists d, (PDict ∅), []. Qed.

Lemma from_body_well_formed (repr : pyval -> string) (data v : pyval) :
  from_body repr data = Ok v -> well_formed v.
Proof.
  unfold from_body. intros H.
  set (data' := match data with PDict d => _ | _ => data end) in H.
  destruct data' as [| | | | | | d];
    try (injection H as <-; apply empty_is_well_formed, EMPTY_NO_TOTALS_is_empty).
  destruct (walk_users repr (Py.get d "users")) as [users |]; [| discriminate].
  injection H as <-.
  exists (<["pool"%string := Py.or_else (Py.get d "pool") (PDict ∅)]>
            (<["users"%string := PList users]> {[ "totals"%string := PDict ∅ ]})),
    (Py.or_else (Py.get d "pool") (PDict ∅)), users.
  split; [reflexivity |]. split.
  - apply lookup_insert_eq.
  - rewrite lookup_insert_ne by discriminate. apply lookup_insert_eq.
Qed.

(** C9. Whatever the remote fetch does, [_fetch_status_http] returns a
    snapshot with its pool and its user list (the model is a total
    function: every exception under the [try] is caught); and when the
    fetch fails - the connection raises, the status check raises, the body
    does not decode, the body is not a dict, or walking its users raises -
    the snapshot has empty pool metrics and an empty user list. *)
Theorem remote_fetch_degrades_to_empty (repr : pyval -> string) (r : fetched) :
  well_formed (_fetch_status_http repr r)
  /\ (is_failure repr r = true -> empty_snapshot (_fetch_status_http repr r)).
Proof.
  assert (Hempty : well_formed EMPTY /\ (true = true -> empty_snapshot EMPTY)).
  { split; [apply empty_is_well_formed |]; auto using EMPTY_is_empty. }
  destruct r as [| | | data]; try exact Hempty.
  unfold _fetch_status_http, is_failure.
  destruct (from_body repr data) as [v |] eqn:Hb; simpl.
  - split; [exact (from_body_well_formed repr data v Hb) |].
    destruct data; try (rewrite Hb; discriminate);
      intros _; unfold from_body in Hb; injection Hb as <-;
      apply EMPTY_NO_TOTALS_is_empty.
  - split; [apply empty_is_well_formed |]; auto using EMPTY_is_empty.
Qed.

Lemma remote_fetch_degrades_to_empty_witness :
  let bad := Body (PDict {[ "users"%string := PList [PInt 5] ]}) in
  is_failure (fun _ => ""%string) bad = true
  /\ empty_snapshot (_fetch_status_http (fun _ => ""%string) bad).
Proof.
  intros bad.
  assert (H : is_failure (fun _ => ""%string) bad = true) by (vm_compute; reflexivity).
  split; [exact H |].
  exact (proj2 (remote_fetch_degrades_to_empty (fun _ => ""%string) bad) H).
Defined.

End RemoteStatus.

(** ** Share lines: where the status comes from *)

Section ShareStatus.

Import Text Classifier.

Lemma prefix_nil_r (p : string) : String.prefix p "" = is_empty p.
Proof. now destruct p. Qed.

Lemma prefix_nil_l (s : string) : String.prefix "" s = true.
Proof. now destruct s. Qed.

Lemma prefix_cons (a b : ascii) (p s : string) :
  String.prefix (String a p) (String b s) = Ascii.eqb a b && String.prefix p s.
Proof.
  simpl. destruct (ascii_dec a b) as [-> | Hne].
  - now rewrite Ascii.eqb_refl.
  - apply Ascii.eqb_neq in Hne. now rewrite Hne.
Qed.

Lemma append_nil_l (s : string) : "" +:+ s = s.
Proof. reflexivity. Qed.

Lemma append_cons (a : ascii) (s t : string) : String a s +:+ t = String a (s +:+ t).
Proof. reflexivity. Qed.

Lemma app_last_nonempty (q : string) (c : ascii) :
  is_empty (q +:+ String c "") = false.
Proof. now destruct q. Qed.

Lemma class_differs (f : ascii -> bool) (a c : ascii) :
  f a = true -> f c = false -> Ascii.eqb c a = false.
Proof.
  intros Ha Hc. apply Ascii.eqb_neq. intros ->. congruence.
Qed.

(** Stripping a class from the right of [s] does not change whether [s]
    starts with a text whose last character is outside the class. *)
Lemma prefix_rstrip (f : ascii -> bool) (c : ascii) (q s : string) :
  f c = false ->
  String.prefix (q +:+ String c "") (rstrip f s) = String.prefix (q +:+ String c "") s.
Proof.
  intros Hc. revert q. induction s as [| a r IH]; intros q; [reflexivity |].
  cbn [rstrip]. destruct q as [| b q'].
  - rewrite append_nil_l.
    destruct (rstrip f r) as [| x y]; [destruct (f a) eqn:Ha |];
      rewrite ?prefix_cons, ?prefix_nil_r; cbn [String.prefix is_empty];
      rewrite ?prefix_nil_l, ?andb_true_r; try reflexivity.
    now rewrite (class_differs f a c).
  - rewrite append_cons, prefix_cons. specialize (IH q').
    destruct (rstrip f r) as [| x y].
    + rewrite prefix_nil_r, app_last_nonempty in IH. rewrite <- IH, andb_false_r.
      destruct (f a); [reflexivity |].
      now rewrite prefix_cons, prefix_nil_r, app_last_nonempty, andb_false_r.
    + now rewrite prefix_cons, IH.
Qed.

Lemma contains_nil_r (p : string) : contains p "" = is_empty p.
Proof. now destruct p. Qed.

Lemma contains_cons (p : string) (a : ascii) (s : string) :
  contains p (String a s) = String.prefix p (String a s) || contains p s.
Proof. reflexivity. Qed.

Lemma contains_rstrip (f : ascii -> bool) (c : ascii) (q s : string) :
  f c = false ->
  contains (q +:+ String c "") (rstrip f s) = contains (q +:+ String c "") s.
Proof.
  intros Hc. induction s as [| a r IH]; [reflexivity |].
  rewrite (contains_cons _ a r), <- (prefix_rstrip f c q (String a r) Hc).
  cbn [rstrip]. destruct (rstrip f r) as [| x y] eqn:Hr.
  - rewrite contains_nil_r, app_last_nonempty in IH. rewrite <- IH, orb_false_r.
    destruct (f a).
    + now rewrite contains_nil_r, prefix_nil_r.
    + now rewrite contains_cons, contains_nil_r, app_last_nonempty, orb_false_r.
  - now rewrite contains_cons, IH.
Qed.

Lemma contains_lstrip (f : ascii -> bool) (c : ascii) (q s : string) :
  f c = false ->
  contains (String c q) (lstrip f s) = contains (String c q) s.
Proof.
  intros Hc. induction s as [| a r IH]; [reflexivity |].
  cbn [lstrip]. destruct (f a) eqn:Ha; [| reflexivity].
  rewrite IH, (contains_cons _ a r), prefix_cons.
  now rewrite (class_differs f a c).
Qed.

(** A text that starts and ends outside the stripped class occurs in the
    stripped string exactly when it occurs in the string. *)
Lemma contains_strip_chars (f : ascii -> bool) (c d : ascii) (q q' s : string) :
  f c = false -> f d = false -> String c q = q' +:+ String d "" ->
  contains (String c q) (strip_chars f s) = contains (String c q) s.
Proof.
  intros Hc Hd E. unfold strip_chars. rewrite contains_lstrip by assumption.
  rewrite E. now apply contains_rstrip.
Qed.

Lemma contains_accepted_strip (line : string) :
  contains "accepted" (strip line) = contains "accepted" line.
Proof. now apply (contains_strip_chars is_space "a" "d" _ "accepte"). Qed.

Lemma contains_Accepted_strip (line : string) :
  contains "Accepted" (strip line) = contains "Accepted" line.
Proof. now apply (contains_strip_chars is_space "A" "d" _ "Accepte"). Qed.

(** C10. For every line one of the two share dialects matches, the status
    of the event is "accepted" if and only if "accepted" or "Accepted"
    occurs somewhere in the line, and "rejected" otherwise.  The status
    word the pattern matched does not decide it: a line whose status word is
    "ACCEPTED" is recorded as rejected, and a line whose status word is
    "rejected" but which goes on with "accepted" is recorded as accepted. *)
Theorem share_status_is_substring_test (decode_ts : string -> option Z) (now : Z) :
  (forall (line : string) (ev : share_event),
      parse_share_line decode_ts now line = Some ev ->
      (se_status ev = "accepted"%string
       <-> contains "accepted" line = true \/ contains "Accepted" line = true)
      /\ (se_status ev = "rejected"%string
          <-> contains "accepted" line = false /\ contains "Accepted" line = false))
  /\ (exists m ev,
         let line := "Share ACCEPTED from 1BoatSLRHtKNngkdXEeobR76b53LETtpyT diff 1"%string in
         first_match Patterns.SHARE_PATS line = Some m
         /\ Re.group m "status" = Some "ACCEPTED"%string
         /\ parse_share_line decode_ts now line = Some ev
         /\ se_status ev = "rejected"%string)
  /\ (exists m ev,
         let line :=
           "Share rejected from 1BoatSLRHtKNngkdXEeobR76b53LETtpyT diff 1 (was accepted)"%string in
         first_match Patterns.SHARE_PATS line = Some m
         /\ Re.group m "status" = Some "rejected"%string
         /\ parse_share_line decode_ts now line = Some ev
         /\ se_status ev = "accepted"%string).
Proof.
  split; [| split].
  - intros line ev H. unfold parse_share_line in H.
    destruct (first_match Patterns.SHARE_PATS (strip line)) as [m |]; [| discriminate].
    destruct (_split_addr_worker _) as [addr worker].
    injection H as <-. cbn [se_status].
    rewrite contains_accepted_strip, contains_Accepted_strip.
    destruct (contains "Accepted" line), (contains "accepted" line); cbn;
      (split; split; intros H; try discriminate; try reflexivity; intuition discriminate).
  - eexists _, _. cbv zeta. repeat split; vm_compute; reflexivity.
  - eexists _, _. cbv zeta. repeat split; vm_compute; reflexivity.
Qed.

Lemma share_status_is_substring_test_witness :
  let line := "Accepted share from bc1qar0srrr7xfkvy5l643lydnw9re59gtzzwf5mdq diff 3/4"%string in
  exists ev,
    parse_share_line Lib.utc_stamp 1000 line = Some ev
    /\ se_status ev = "accepted"%string
    /\ contains "Accepted" line = true.
Proof.
  intros line.
  destruct (parse_share_line Lib.utc_stamp 1000 line) as [ev |] eqn:H;
    [| vm_compute in H; discriminate].
  exists ev. split; [reflexivity |].
  assert (Hc : contains "Accepted" line = true) by (vm_compute; reflexivity).
  split; [| exact Hc].
  apply (proj1 (share_status_is_substring_test Lib.utc_stamp 1000) line ev H).
  right. exact Hc.
Defined.

End ShareStatus.

(** ** Worker-name sanitization *)

Section Sanitization.

Import Text Classifier.

Lemma run_le_length (p : ascii -> bool) (s : string) (hi : option nat) :
  (Re.run p hi s <= String.length s)%nat.
Proof.
  revert hi. induction s as [| a r IH]; intros hi.
  - destruct hi as [[| h] |]; simpl; lia.
  - destruct hi as [[| h] |]; simpl; try lia; destruct (p a); simpl;
      try lia; apply le_n_S, IH.
Qed.

Lemma run_all (p : ascii -> bool) (s : string) (h : nat) :
  all_chars p s = true -> (String.length s <= h)%nat ->
  Re.run p (Some h) s = String.length s.
Proof.
  revert h. induction s as [| a r IH]; intros h Hall Hlen.
  - now destruct h.
  - simpl in Hall, Hlen. apply andb_prop in Hall as [Ha Hr].
    destruct h as [| h]; [lia |]. simpl. rewrite Ha. f_equal. apply IH; [assumption | lia].
Qed.

Lemma run_not_all (p : ascii -> bool) (s : string) (hi : option nat) :
  all_chars p s = false -> (Re.run p hi s < String.length s)%nat.
Proof.
  revert hi. induction s as [| a r IH]; intros hi Hall; [discriminate |].
  simpl in Hall. destruct hi as [[| h] |]; simpl; try lia; destruct (p a); simpl in *;
    try lia; apply (proj1 (Nat.succ_lt_mono _ _)), IH, Hall.
Qed.

Lemma drop_length (s : string) : Re.drop (String.length s) s = ""%string.
Proof. induction s; simpl; auto. Qed.

Lemma drop_short (s : string) (i : nat) :
  (i < String.length s)%nat -> is_empty (Re.drop i s) = false.
Proof.
  revert i. induction s as [| a r IH]; intros i Hi; simpl in Hi; [lia |].
  destruct i as [| i]; [reflexivity |]. simpl. apply IH. lia.
Qed.

Lemma try_down_none {A : Type} (j lo : nat) (f : nat -> option A) :
  (forall i, (i <= j)%nat -> f i = None) -> Re.try_down j lo f = None.
Proof.
  induction j as [| j IH]; intros H; simpl.
  - destruct (0 <? lo)%nat; [reflexivity |]. now rewrite H.
  - destruct (S j <? lo)%nat; [reflexivity |]. rewrite H by lia.
    apply IH. intros i Hi. apply H. lia.
Qed.

Lemma try_down_first {A : Type} (j lo : nat) (f : nat -> option A) (x : A) :
  (lo <= j)%nat -> f j = Some x -> Re.try_down j lo f = Some x.
Proof.
  intros Hlo Hf. destruct j; simpl.
  - replace (0 <? lo)%nat with false by (symmetry; apply Nat.ltb_ge; lia).
    now rewrite Hf.
  - replace (S j <? lo)%nat with false by (symmetry; apply Nat.ltb_ge; lia).
    now rewrite Hf.
Qed.

(** [re.fullmatch(WORKER_RE, w)] succeeds exactly on one to 64 characters
    of the worker class. *)
Lemma fullmatch_worker (w : string) :
  is_empty w = false -> (String.length w <= 64)%nat ->
  Re.fullmatch Patterns.WORKER_RE w
  = if all_chars Patterns.worker_class w then Some [] else None.
Proof.
  intros Hne Hlen. unfold Re.fullmatch, Patterns.WORKER_RE. cbn [Re.mt].
  destruct (all_chars Patterns.worker_class w) eqn:Hall.
  - rewrite run_all by assumption. apply try_down_first.
    + destruct w; [discriminate | simpl; lia].
    + now rewrite drop_length.
  - apply try_down_none. intros i Hi.
    rewrite drop_short; [reflexivity |].
    pose proof (run_not_all Patterns.worker_class w (Some 64%nat) Hall). lia.
Qed.

Lemma lstrip_id (p : ascii -> bool) (s : string) :
  head_in p s = false -> lstrip p s = s.
Proof. destruct s as [| a r]; simpl; [reflexivity |]. now intros ->. Qed.

Lemma rstrip_id (p : ascii -> bool) (s : string) :
  last_in p s = false -> rstrip p s = s.
Proof.
  induction s as [| a r IH]; [reflexivity |]. intros H.
  destruct r as [| b r'].
  - simpl in *. now rewrite H.
  - change (last_in p (String a (String b r'))) with (last_in p (String b r')) in H.
    cbn [rstrip]. cbn [rstrip] in IH. now rewrite (IH H).
Qed.

Lemma strip_chars_id (p : ascii -> bool) (s : string) :
  head_in p s = false -> last_in p s = false -> strip_chars p s = s.
Proof.
  intros Hh Hl. unfold strip_chars. rewrite rstrip_id by assumption.
  now apply lstrip_id.
Qed.

Lemma head_in_weaken (p q : ascii -> bool) (s : string) :
  (forall c, p c = true -> q c = true) -> head_in q s = false -> head_in p s = false.
Proof.
  intros Hpq. destruct s as [| a r]; simpl; [reflexivity |].
  intros Hq. destruct (p a) eqn:Hp; [| reflexivity]. apply Hpq in Hp. congruence.
Qed.

Lemma last_in_weaken (p q : ascii -> bool) (s : string) :
  (forall c, p c = true -> q c = true) -> last_in q s = false -> last_in p s = false.
Proof.
  intros Hpq. induction s as [| a r IH]; [reflexivity |].
  destruct r as [| b r'].
  - simpl. intros Hq. destruct (p a) eqn:Hp; [| reflexivity]. apply Hpq in Hp. congruence.
  - exact IH.
Qed.

(** A candidate with no white space and no dot at either end is examined
    as it stands. *)
Lemma stripped_id (c : string) :
  head_in edge_char c = false -> last_in edge_char c = false -> stripped c = c.
Proof.
  intros Hh Hl. unfold stripped, strip.
  assert (Hs : forall x, is_space x = true -> edge_char x = true)
    by (intros x Hx; unfold edge_char; now rewrite Hx).
  assert (Hd : forall x, Patterns.one_of ". " x = true -> edge_char x = true)
    by (intros x Hx; unfold edge_char; rewrite Hx; apply orb_true_r).
  rewrite (strip_chars_id is_space c) by eauto using head_in_weaken, last_in_weaken.
  rewrite (strip_chars_id (Patterns.one_of ". ") c)
    by eauto using head_in_weaken, last_in_weaken.
  apply strip_chars_id; eauto using head_in_weaken, last_in_weaken.
Qed.

Lemma clean_worker_unfold (c wallet : string) :
  _clean_worker (Some c) wallet
  = if rejected (stripped c) wallet then "X"%string
    else if all_chars Patterns.worker_class (stripped c) then stripped c else "X"%string.
Proof.
  unfold _clean_worker, rejected. cbv zeta.
  destruct (is_empty (stripped c)) eqn:He; [reflexivity |].
  destruct (String.eqb (stripped c) wallet); [reflexivity |].
  destruct (contains "..." (stripped c)); [reflexivity |].
  destruct (Nat.ltb_spec 64 (String.length (stripped c))); [reflexivity |].
  cbn [orb]. rewrite fullmatch_worker by (assumption || lia).
  now destruct (all_chars _ _).
Qed.

(** C3, as the code has it.  Sanitization examines the candidate with the
    white space and the dots at its two ends removed.  If that text is
    empty, equal to the wallet, holds three consecutive dots or is longer
    than 64 characters the result is "X"; otherwise the text is returned when
    all its characters are of the worker-name class, and "X" when not.  A
    candidate that neither starts nor ends with white space or a dot is
    examined as it stands, so for it the claim holds as written. *)
Theorem clean_worker_examines_stripped_candidate (c wallet : string) :
  (rejected (stripped c) wallet = true -> _clean_worker (Some c) wallet = "X"%string)
  /\ (rejected (stripped c) wallet = false ->
      all_chars Patterns.worker_class (stripped c) = true ->
      _clean_worker (Some c) wallet = stripped c)
  /\ (all_chars Patterns.worker_class (stripped c) = false ->
      _clean_worker (Some c) wallet = "X"%string)
  /\ (head_in edge_char c = false -> last_in edge_char c = false ->
      stripped c = c
      /\ (rejected c wallet = true -> _clean_worker (Some c) wallet = "X"%string)
      /\ (rejected c wallet = false -> all_chars Patterns.worker_class c = true ->
          _clean_worker (Some c) wallet = c)).
Proof.
  rewrite clean_worker_unfold. split; [| split; [| split]].
  - now intros ->.
  - now intros -> ->.
  - intros ->. now destruct (rejected _ _).
  - intros Hh Hl. rewrite (stripped_id c Hh Hl). split; [reflexivity | split].
    + now intros ->.
    + now intros -> ->.
Qed.

Lemma clean_worker_examines_stripped_candidate_witness :
  rejected (stripped "rig...1") "1BoatSLRHtKNngkdXEeobR76b53LETtpyT" = true
  /\ _clean_worker (Some "rig...1"%string) "1BoatSLRHtKNngkdXEeobR76b53LETtpyT" = "X"%string
  /\ head_in edge_char "rig-1_a.b" = false
  /\ last_in edge_char "rig-1_a.b" = false
  /\ _clean_worker (Some "rig-1_a.b"%string) "1BoatSLRHtKNngkdXEeobR76b53LETtpyT"
     = "rig-1_a.b"%string.
Proof.
  pose proof (clean_worker_examines_stripped_candidate
                "rig...1" "1BoatSLRHtKNngkdXEeobR76b53LETtpyT") as (H1 & _).
  pose proof (clean_worker_examines_stripped_candidate
                "rig-1_a.b" "1BoatSLRHtKNngkdXEeobR76b53LETtpyT") as (_ & _ & _ & H4).
  assert (Hr : rejected (stripped "rig...1") "1BoatSLRHtKNngkdXEeobR76b53LETtpyT" = true)
    by (vm_compute; reflexivity).
  assert (Hh : head_in edge_char "rig-1_a.b" = false) by (vm_compute; reflexivity).
  assert (Hl : last_in edge_char "rig-1_a.b" = false) by (vm_compute; reflexivity).
  split; [exact Hr |]. split; [exact (H1 Hr) |].
  split; [exact Hh |]. split; [exact Hl |].
  destruct (H4 Hh Hl) as (_ & _ & H). apply H; vm_compute; reflexivity.
Defined.

(** C3 as written fails where the candidate has dots at an end: a name
    ending in three dots is trimmed and returned, a candidate equal to a
    wallet that ends in a dot is returned without it, a 65-character
    candidate with a final dot is returned with 64 characters, and a lone
    dot, which is of the worker-name class, becomes "X". *)
Lemma clean_worker_trailing_dots_counterexample :
  (contains "..." "rig1..." = true
   /\ _clean_worker (Some "rig1..."%string) "1BoatSLRHtKNngkdXEeobR76b53LETtpyT"
      = "rig1"%string)
  /\ _clean_worker (Some "1BoatSLRHt."%string) "1BoatSLRHt." = "1BoatSLRHt"%string
  /\ (let c := "a123456789b123456789c123456789d123456789e123456789f123456789g123."%string in
      String.length c = 65%nat
      /\ _clean_worker (Some c) "1BoatSLRHtKNngkdXEeobR76b53LETtpyT"
         = "a123456789b123456789c123456789d123456789e123456789f123456789g123"%string)
  /\ (rejected "." "1BoatSLRHtKNngkdXEeobR76b53LETtpyT" = false
      /\ all_chars Patterns.worker_class "." = true
      /\ _clean_worker (Some "."%string) "1BoatSLRHtKNngkdXEeobR76b53LETtpyT" = "X"%string).
Proof. repeat split; vm_compute; reflexivity. Qed.

End Sanitization.

(** ** Hashrate formatting and the round trip *)

Section HashrateFormat.

Import Num Units.

Lemma fge_Fin (q m : Q) : fge (Fin q) (Fin m) = Qle_bool m q.
Proof. reflexivity. Qed.









End HashrateFormat.

(** ** Aggregation of sub-accounts *)

Section Aggregation.

Import Num Units Classifier Store Snapshot.

(** Rendering depends on the value only, not on the fraction that denotes
    it. *)
Lemma round_half_even_comp (x y : Q) :
  (x == y)%Q -> round_half_even x = round_half_even y.
Proof.
  intros E. unfold round_half_even. rewrite (Qfloor_comp x y E).
  assert (E' : (x - inject_Z (Qfloor y) == y - inject_Z (Qfloor y))%Q) by now rewrite E.
  now rewrite (Qcompare_comp _ _ E' (1 # 2) (1 # 2) (Qeq_refl _)).
Qed.

Lemma sign_str_comp (x y : Q) : (x == y)%Q -> sign_str x = sign_str y.
Proof. intros E. unfold sign_str, Qsign_neg. now rewrite E. Qed.

Lemma fmt_fixed2_comp (x y : Q) :
  (x == y)%Q -> fmt_fixed2 (Fin x) = fmt_fixed2 (Fin y).
Proof.
  intros E. unfold fmt_fixed2.
  rewrite (sign_str_comp x y E).
  assert (E' : (Qabs x * 100 == Qabs y * 100)%Q) by now rewrite E.
  now rewrite (round_half_even_comp _ _ E').
Qed.

Lemma fmt_fixed0_comp (x y : Q) :
  (x == y)%Q -> fmt_fixed0 (Fin x) = fmt_fixed0 (Fin y).
Proof.
  intros E. unfold fmt_fixed0.
  rewrite (sign_str_comp x y E).
  assert (E' : (Qabs x == Qabs y)%Q) by now rewrite E.
  now rewrite (round_half_even_comp _ _ E').
Qed.

Lemma human_loop_comp (units : list (string * Q)) (x y : Q) :
  (x == y)%Q -> human_loop units (Fin x) = human_loop units (Fin y).
Proof.
  intros E. induction units as [| [u m] units IH]; cbn [human_loop].
  - now apply fmt_fixed0_comp.
  - rewrite !fge_Fin, IH. rewrite (Qleb_comp m m (Qeq_refl m) x y E).
    destruct (Qle_bool m y); [| reflexivity].
    unfold fdiv. destruct (Qis_zero m); [reflexivity |].
    cbn [default from_option]. f_equal. apply fmt_fixed2_comp. now rewrite E.
Qed.

Lemma render_comp (x y : Q) : (x == y)%Q -> render (Fin x) = render (Fin y).
Proof.
  intros E. unfold render, fgt, flt, fle, feqb, _human_hashrate.
  rewrite (Qleb_comp 0%Q 0%Q (Qeq_refl 0%Q) x y E), (Qeqb_comp 0%Q 0%Q (Qeq_refl 0%Q) x y E).
  now rewrite (human_loop_comp HUMAN_UNITS x y E).
Qed.

Lemma feq_Fin (x : float) (q : Q) : feq x (Fin q) -> exists p, x = Fin p /\ (p == q)%Q.
Proof. destruct x as [p | |]; simpl; [eauto | contradiction ..]. Qed.

(** A value that normalizes to something other than zero is truthy, so
    [h1 or 0] is [h1]. *)
Lemma hs_of_nonzero (v : pyval) (q : Q) :
  feq (_parse_hashrate_to_hs v) (Fin q) -> ~ (q == 0)%Q ->
  hs_of v = _parse_hashrate_to_hs v.
Proof.
  intros H Hq. unfold hs_of, Py.or_else.
  destruct (Py.truthy v) eqn:Ht; [reflexivity |]. exfalso. apply Hq.
  destruct v as [| [|] | z | [p | |] | s | l | d]; simpl in Ht; try discriminate;
    simpl in H; try (symmetry; exact H).
  - destruct (Z.eqb_spec z 0) as [-> |]; [| discriminate]. symmetry. exact H.
  - apply negb_false_iff, Qeq_bool_iff in Ht. now rewrite <- H.
  - destruct s; [| discriminate]. vm_compute in H. symmetry. exact H.
Qed.

Lemma split_once_app (w r : string) :
  Text.contains "." w = false ->
  Text.split_once "." (w +:+ String "." r) = Some (w, r).
Proof.
  induction w as [| c w IH]; intros H; [reflexivity |].
  rewrite contains_cons, prefix_cons, prefix_nil_l, andb_true_r in H.
  apply orb_false_elim in H as [Hc Hw].
  rewrite append_cons. cbn [Text.split_once].
  rewrite Ascii.eqb_sym, Hc. now rewrite (IH Hw).
Qed.

Lemma split_subaccount (w r : string) :
  Text.contains "." w = false ->
  (_split_addr_worker (w +:+ String "." r)).1 = w.
Proof. intros H. unfold _split_addr_worker. now rewrite (split_once_app w r H). Qed.

Lemma or_else_zero_count (v : pyval) :
  is_count v = true -> exists z, Py.int (Py.or_else v zero) = Ok z.
Proof.
  destruct v; try discriminate; intros _; unfold Py.or_else; simpl; eauto.
  destruct (negb _); simpl; eauto.
Qed.

Lemma or_else_zero_numeric (v : pyval) :
  is_numeric v = true -> is_Some (as_number (Py.or_else v zero)).
Proof.
  destruct v; try discriminate; intros _; unfold Py.or_else; simpl; eauto.
  - destruct (negb _); simpl; eauto.
  - destruct f; simpl; eauto. destruct (negb _); simpl; eauto.
Qed.

Lemma seed_ok (r : user_row) :
  typed_row r = true ->
  exists a, seed r = Ok a
            /\ ag_hashrate1m_sum a = hs_of (ur_hashrate1m r)
            /\ is_Some (as_number (ag_bestshare a)).
Proof.
  unfold typed_row. intros H.
  apply andb_prop in H as [H Hb]. apply andb_prop in H as [Hw Hs].
  destruct (or_else_zero_count _ Hw) as [w Ew], (or_else_zero_count _ Hs) as [s Es].
  unfold seed. rewrite Ew, Es. simpl. eexists. split; [reflexivity |].
  split; [reflexivity |]. now apply or_else_zero_numeric.
Qed.

Lemma py_max_numeric (a b : pyval) :
  is_Some (as_number a) -> is_Some (as_number b) ->
  exists m, py_max a b = Ok m /\ is_Some (as_number m).
Proof.
  intros [x Hx] [y Hy]. unfold py_max, py_gt. rewrite Hx, Hy. simpl.
  destruct (fgt y x); eauto.
Qed.

Lemma or_else_numeric (v : pyval) :
  is_Some (as_number v) -> is_Some (as_number (Py.or_else v zero)).
Proof. intros H. unfold Py.or_else. destruct (Py.truthy v); [exact H | simpl; eauto]. Qed.

Lemma merge_ok (cur : agg) (r : user_row) :
  typed_row r = true -> is_Some (as_number (ag_bestshare cur)) ->
  exists a, merge_row cur r = Ok a
            /\ ag_hashrate1m_sum a
               = fadd (ag_hashrate1m_sum cur) (hs_of (ur_hashrate1m r)).
Proof.
  unfold typed_row. intros H Hcur.
  apply andb_prop in H as [H Hb]. apply andb_prop in H as [Hw Hs].
  destruct (or_else_zero_count _ Hw) as [w Ew].
  destruct (py_max_numeric _ _ (or_else_numeric _ Hcur) (or_else_zero_numeric _ Hb))
    as (m & Em & _).
  unfold merge_row. rewrite Ew. cbn [mbind result_bind]. rewrite Em.
  cbn [mbind result_bind]. eexists. split; reflexivity.
Qed.

(** Two sub-account rows of one wallet fold into one entry whose
    one-minute sum is the sum of the two, in whichever order the rows
    arrive. *)
Lemma aggregate_pair (w sa sb : string) (ra rb : user_row) :
  Text.contains "." w = false ->
  typed_row ra = true -> typed_row rb = true ->
  exists a,
    aggregate [(w +:+ String "." sa, ra); (w +:+ String "." sb, rb)] = Ok {[ w := a ]}
    /\ ag_hashrate1m_sum a
       = fadd (hs_of (ur_hashrate1m ra)) (hs_of (ur_hashrate1m rb)).
Proof.
  intros Hw Ha Hb.
  destruct (seed_ok ra Ha) as (a0 & E0 & H0 & N0).
  destruct (merge_ok a0 rb Hb N0) as (a1 & E1 & H1).
  exists a1. split; [| now rewrite H1, H0].
  unfold aggregate. cbn [fold_left]. unfold add_row at 2. cbn [mbind result_bind fst snd].
  rewrite (split_subaccount w sa Hw), lookup_empty, E0. cbn [mbind result_bind].
  unfold add_row. cbn [mbind result_bind fst snd].
  rewrite (split_subaccount w sb Hw), insert_empty, lookup_singleton_eq, E1.
  cbn [mbind result_bind]. now rewrite insert_singleton_eq.
Qed.

Lemma subaccount_keys_differ (w : string) : w +:+ ".a" <> w +:+ ".b".
Proof.
  induction w as [| c w IH]; [discriminate |].
  rewrite !append_cons. intros H. injection H as H. contradiction.
Qed.

Lemma fadd_comm_feq (x y : float) (q : Q) :
  feq (fadd x y) (Fin q) -> feq (fadd y x) (Fin q).
Proof.
  destruct x as [a | [|] |], y as [b | [|] |]; simpl; try contradiction.
  intros H. now rewrite Qplus_comm.
Qed.

(** C6. When [user_stats] holds exactly the two rows [wallet.a] and
    [wallet.b], whose one-minute hashrates normalize to 1e12 and 2e12, the
    snapshot built from the store has exactly one row for the wallet, and
    that row shows the one-minute hashrate "3.00T". *)
Theorem subaccounts_sum_into_one_wallet_row
    (json_loads : string -> option (gmap string pyval))
    (decode_ts : string -> option Z) (WORKER_TIMEOUT : Z)
    (conn : db) (wallet : string) (ra rb : user_row) (clock : nat -> Z) (now : Z) :
  Text.contains "." wallet = false ->
  user_stats conn = {[ wallet +:+ ".a" := ra; wallet +:+ ".b" := rb ]} ->
  feq (_parse_hashrate_to_hs (ur_hashrate1m ra)) (Fin 1e12) ->
  feq (_parse_hashrate_to_hs (ur_hashrate1m rb)) (Fin 2e12) ->
  typed_row ra = true -> typed_row rb = true ->
  exists snap row,
    (_build_from_log json_loads decode_ts WORKER_TIMEOUT conn None clock now).2 = Ok snap
    /\ NoDup (map wr_wallet (users snap))
    /\ row ∈ users snap
    /\ wr_wallet row = wallet
    /\ wr_hashrate1m row = "3.00T"%string.
Proof.
  intros Hw Hus Ha Hb Ta Tb.
  assert (Hsum : exists a, aggregate (map_to_list (user_stats conn)) = Ok {[ wallet := a ]}
                           /\ feq (ag_hashrate1m_sum a) (Fin 3e12)).
  { assert (Hperm : [(wallet +:+ ".a", ra); (wallet +:+ ".b", rb)]
                    ≡ₚ map_to_list (user_stats conn)).
    { rewrite Hus, map_to_list_insert, map_to_list_singleton; [reflexivity |].
      apply lookup_singleton_ne. intros E. symmetry in E.
      exact (subaccount_keys_differ wallet E). }
    assert (Hadd : feq (fadd (hs_of (ur_hashrate1m ra)) (hs_of (ur_hashrate1m rb)))
                       (Fin 3e12)).
    { rewrite (hs_of_nonzero _ _ Ha), (hs_of_nonzero _ _ Hb) by discriminate.
      destruct (feq_Fin _ _ Ha) as (p & -> & Ep), (feq_Fin _ _ Hb) as (q & -> & Eq).
      simpl. rewrite Ep, Eq. reflexivity. }
    apply Permutation_length_2_inv in Hperm as [-> | ->].
    - destruct (aggregate_pair wallet "a" "b" ra rb Hw Ta Tb) as (a & E & H).
      exists a. split; [exact E | now rewrite H].
    - destruct (aggregate_pair wallet "b" "a" rb ra Hw Tb Ta) as (a & E & H).
      exists a. split; [exact E |]. rewrite H. now apply fadd_comm_feq. }
  destruct Hsum as (a & Eagg & Hsum).
  destruct (feq_Fin _ _ Hsum) as (q & Eq & Hq).
  unfold _build_from_log. cbn [snd].
  change (user_stats (expire_stale_workers conn now WORKER_TIMEOUT))
    with (user_stats conn).
  rewrite Eagg. cbn [mbind result_bind].
  set (by_wallet := active_by_wallet _ _).
  set (wallets := dom _ ∪ dom by_wallet).
  eexists. exists (make_row {[ wallet := a ]} by_wallet wallet).
  split; [reflexivity |]. cbn [users]. split; [| split; [| split]].
  - rewrite merge_sort_Permutation.
    assert (E : map wr_wallet (map (make_row {[ wallet := a ]} by_wallet) (elements wallets))
                = elements wallets).
    { induction (elements wallets) as [| x xs IH]; simpl; [reflexivity | now f_equal]. }
    rewrite E. apply NoDup_elements.
  - rewrite merge_sort_Permutation. apply list_elem_of_fmap_2, elem_of_elements.
    subst wallets. rewrite dom_singleton_L. set_solver.
  - reflexivity.
  - unfold make_row. cbn [wr_hashrate1m]. rewrite lookup_singleton_eq, Eq.
    rewrite (render_comp q 3e12 Hq). vm_compute. reflexivity.
Qed.

Lemma subaccounts_sum_into_one_wallet_row_witness :
  let wallet := "1BoatSLRHtKNngkdXEeobR76b53LETtpyT"%string in
  let ra := UserRow 1000 (PStr "1000000000000.0") PNone PNone PNone PNone PNone
                    (PInt 1) (PInt 10) PNone PNone PNone in
  let rb := UserRow 1000 (PFloat (Fin 2e12)) PNone PNone PNone PNone PNone
                    (PInt 1) (PInt 5) (PInt 7) PNone PNone in
  let conn :=
    with_user_stats empty_db {[ wallet +:+ ".a" := ra; wallet +:+ ".b" := rb ]} in
  exists snap row,
    (_build_from_log Lib.json_flat Lib.utc_stamp 300 conn None (fun _ => 2000%Z) 2000).2
    = Ok snap
    /\ NoDup (map wr_wallet (users snap))
    /\ row ∈ users snap
    /\ wr_wallet row = wallet
    /\ wr_hashrate1m row = "3.00T"%string.
Proof.
  intros wallet ra rb conn.
  apply (subaccounts_sum_into_one_wallet_row Lib.json_flat Lib.utc_stamp 300 conn wallet
           ra rb (fun _ => 2000%Z) 2000);
    vm_compute; reflexivity.
Defined.

End Aggregation.

(** ** The end-to-end scenario *)

Section EndToEnd.

Import Num Classifier Store Snapshot Scenario.



End EndToEnd.

(** ** Ingesting a log twice *)

Section Reingest.

Import Classifier Store Ingest Scenario.

Variable json_loads : string -> option (gmap string pyval).
Variable decode_ts : string -> option Z.
Variable WORKER_TIMEOUT : Z.

Local Notation "'ingest_line'" :=
  (Ingest.ingest_line json_loads decode_ts WORKER_TIMEOUT).
Local Notation "'ingest_lines'" :=
  (Ingest.ingest_lines json_loads decode_ts WORKER_TIMEOUT).
Local Notation "'ingest_log'" :=
  (Ingest.ingest_log json_loads decode_ts WORKER_TIMEOUT).

(** *** The cursor *)

Lemma to_uint_nonnil (n : N) : N.to_uint n <> Decimal.Nil.
Proof.
  rewrite <- (DecimalN.Unsigned.of_to n) at 1. rewrite DecimalN.Unsigned.to_of.
  apply DecimalFacts.unorm_nonnil.
Qed.

Lemma saved_offset_str (z : Z) :
  (0 <= z)%Z -> saved_offset (Some (Text.str_of_Z z)) = z.
Proof.
  intros Hz. unfold saved_offset, Text.str_of_Z, Text.str_of_N.
  destruct (Z.ltb_spec z 0); [lia |].
  rewrite NilZero.usu by apply to_uint_nonnil.
  rewrite DecimalN.Unsigned.of_to. lia.
Qed.

Lemma drop_all (s : string) (n : nat) :
  (String.length s <= n)%nat -> Re.drop n s = ""%string.
Proof.
  revert n. induction s as [| a r IH]; intros n Hn.
  - now destruct n.
  - destruct n as [| n]; simpl in *; [lia |]. apply IH. lia.
Qed.




(** *** What the read loop does to [user_stats] and [meta] *)













End Reingest.



(** * Further properties of the module *)

(** ** The expiry sweep *)

Section SweepLaws.

Import Store.

Lemma expire_row_spec (now_ts timeout_s : Z) (r : seen_row) :
  expire_row now_ts timeout_s r
  = SeenRow (last_seen r) (active r && (now_ts - last_seen r <=? timeout_s)%Z).
Proof.
  unfold expire_row. destruct r as [ls [|]]; cbn [active last_seen andb].
  - destruct (Z.ltb_spec timeout_s (now_ts - ls)), (Z.leb_spec (now_ts - ls) timeout_s);
      (reflexivity || lia).
  - reflexivity.
Qed.

Lemma expire_row_idempotent (now_ts timeout_s : Z) (r : seen_row) :
  expire_row now_ts timeout_s (expire_row now_ts timeout_s r)
  = expire_row now_ts timeout_s r.
Proof.
  rewrite !expire_row_spec. cbn [active last_seen].
  now destruct (active r), (now_ts - last_seen r <=? timeout_s)%Z.
Qed.

(** X1. The sweep touches nothing but the [active] flag of [workers_seen]: no
    row appears or disappears, [last_seen] is kept, and a row is active
    afterwards exactly when it was active before and was seen within the
    timeout.  In particular the sweep never activates a row, and running it
    again at the same time changes nothing. *)
Theorem expire_sweep_only_clears_stale_flags (conn : db) (now_ts timeout_s : Z) :
  (forall k,
      workers_seen (expire_stale_workers conn now_ts timeout_s) !! k
      = (fun r => SeenRow (last_seen r)
                          (active r && (now_ts - last_seen r <=? timeout_s)%Z))
          <$> workers_seen conn !! k)
  /\ expire_stale_workers (expire_stale_workers conn now_ts timeout_s) now_ts timeout_s
     = expire_stale_workers conn now_ts timeout_s
  /\ pool_metrics (expire_stale_workers conn now_ts timeout_s) = pool_metrics conn
  /\ user_stats (expire_stale_workers conn now_ts timeout_s) = user_stats conn
  /\ shares (expire_stale_workers conn now_ts timeout_s) = shares conn
  /\ meta (expire_stale_workers conn now_ts timeout_s) = meta conn.
Proof.
  split; [| split; [| repeat split]].
  - intros k. rewrite expire_lookup.
    destruct (workers_seen conn !! k) as [r |]; cbn; [| reflexivity].
    now rewrite expire_row_spec.
  - unfold expire_stale_workers, with_workers_seen. cbn [workers_seen pool_metrics
      user_stats shares meta]. f_equal.
    rewrite <- map_fmap_compose. apply map_fmap_ext. intros k r _.
    apply expire_row_idempotent.
Qed.

End SweepLaws.

(** ** Small helpers of the classifier *)

Section ClassifierHelpers.

Import Text Classifier.

Lemma prefix_refl (s : string) : String.prefix s s = true.
Proof. induction s as [| a s IH]; [reflexivity |]. now rewrite prefix_cons, Ascii.eqb_refl. Qed.

Lemma contains_prefix (p s : string) : String.prefix p s = true -> contains p s = true.
Proof. intros H. destruct s; cbn [contains]; now rewrite H. Qed.

Lemma contains_endswith (p s : string) : endswith s p = true -> contains p s = true.
Proof.
  induction s as [| a r IH]; cbn [endswith]; intros H.
  - rewrite orb_false_r in H. apply String.eqb_eq in H. subst p. reflexivity.
  - apply orb_prop in H as [H | H].
    + apply String.eqb_eq in H. subst p. apply contains_prefix, prefix_refl.
    + rewrite contains_cons, (IH H). apply orb_true_r.
Qed.

(** X2. The three tests of [_contains_truncator] amount to the first one: the
    string holds three consecutive dots somewhere. *)
Theorem contains_truncator_is_substring_test (s : string) :
  _contains_truncator (Some s) = contains "..." s
  /\ _contains_truncator None = false.
Proof.
  split; [| reflexivity]. unfold _contains_truncator, startswith.
  destruct s as [| a r]; [reflexivity |]. cbn [is_empty].
  destruct (contains "..." (String a r)) eqn:Hc; [reflexivity |]. cbn [orb].
  destruct (endswith (String a r) "...") eqn:He.
  - apply contains_endswith in He. congruence.
  - destruct (String.prefix "..." (String a r)) eqn:Hp; [| reflexivity].
    apply contains_prefix in Hp. congruence.
Qed.

Lemma split_once_spec (x : ascii) (s a b : string) :
  split_once x s = Some (a, b) ->
  s = a +:+ String x b /\ contains (String x "") a = false.
Proof.
  revert a. induction s as [| c r IH]; intros a H; [discriminate |].
  cbn [split_once] in H. destruct (Ascii.eqb c x) eqn:E.
  - apply Ascii.eqb_eq in E. subst c. injection H as <- <-. now split.
  - destruct (split_once x r) as [[a' b'] |]; [| discriminate].
    injection H as <- <-. destruct (IH a' eq_refl) as [-> Hc]. split; [reflexivity |].
    rewrite contains_cons, prefix_cons, prefix_nil_l, andb_true_r, Hc, orb_false_r.
    now rewrite Ascii.eqb_sym.
Qed.

Lemma split_once_none (x : ascii) (s : string) :
  split_once x s = None <-> contains (String x "") s = false.
Proof.
  induction s as [| c r IH]; [now split |].
  rewrite contains_cons, prefix_cons, prefix_nil_l, andb_true_r. cbn [split_once].
  rewrite (Ascii.eqb_sym x c). destruct (Ascii.eqb c x); cbn [orb].
  - split; discriminate.
  - rewrite <- IH. destruct (split_once x r) as [[a b] |]; split; congruence.
Qed.

(** X3. [_split_addr_worker] cuts at the first dot and loses nothing: with a
    worker part, the address has no dot and address, dot and worker give
    the string back; without one, the string has no dot and is the address. *)
Theorem split_addr_worker_round_trip (s : string) :
  (forall a w,
      _split_addr_worker s = (a, Some w)
      <-> s = a +:+ String "." w /\ contains "." a = false)
  /\ (forall a,
         _split_addr_worker s = (a, None) <-> a = s /\ contains "." s = false).
Proof.
  unfold _split_addr_worker. split.
  - intros a w. split.
    + destruct (split_once "." s) as [[a' w'] |] eqn:E; [| discriminate].
      intros H. injection H as <- <-. now apply split_once_spec.
    + intros [-> Hc]. now rewrite (split_once_app a w Hc).
  - intros a. split.
    + destruct (split_once "." s) as [[a' w'] |] eqn:E; [discriminate |].
      intros H. injection H as <-. split; [reflexivity |]. now apply split_once_none.
    + intros [-> Hc]. apply split_once_none in Hc. now rewrite Hc.
Qed.

Lemma split_addr_worker_round_trip_witness :
  "1BoatSLRHt.rig.1"%string = "1BoatSLRHt" +:+ String "." "rig.1"
  /\ contains "." "1BoatSLRHt" = false
  /\ _split_addr_worker "1BoatSLRHt.rig.1" = ("1BoatSLRHt"%string, Some "rig.1"%string).
Proof.
  assert (H : "1BoatSLRHt.rig.1"%string = "1BoatSLRHt" +:+ String "." "rig.1"
              /\ contains "." "1BoatSLRHt" = false) by (split; reflexivity).
  split; [exact (proj1 H) |]. split; [exact (proj2 H) |].
  exact (proj2 (proj1 (split_addr_worker_round_trip "1BoatSLRHt.rig.1")
                  "1BoatSLRHt"%string "rig.1"%string) H).
Defined.

(** X4. What the classifier hands on as a worker name is the sentinel "X" or a
    clean name: one to 64 characters of the worker class, without three
    consecutive dots, and different from the wallet. *)
Theorem worker_event_names_are_clean
    (decode_ts : string -> option Z) (now : Z) (line : string) (ev : worker_event) :
  parse_authorised_line decode_ts now line = Some ev
  \/ parse_dropped_line decode_ts now line = Some ev ->
  we_worker ev = "X"%string
  \/ (all_chars Patterns.worker_class (we_worker ev) = true
      /\ (1 <= String.length (we_worker ev) <= 64)%nat
      /\ contains "..." (we_worker ev) = false
      /\ we_worker ev <> we_wallet ev).
Proof.
  assert (Hgen : forall strict wallet_only,
             parse_worker_line decode_ts now strict wallet_only line = Some ev ->
             we_worker ev = "X"%string
             \/ (all_chars Patterns.worker_class (we_worker ev) = true
                 /\ (1 <= String.length (we_worker ev) <= 64)%nat
                 /\ contains "..." (we_worker ev) = false
                 /\ we_worker ev <> we_wallet ev)).
  { intros strict wallet_only H. unfold parse_worker_line in H.
    destruct (Re.rmatch strict (strip line)) as [m |].
    - destruct (_contains_truncator _ || _contains_truncator _).
      + injection H as <-. now left.
      + injection H as <-. cbn [we_worker we_wallet].
        destruct (Re.group m "worker") as [c |]; [| now left].
        rewrite clean_worker_unfold. unfold rejected.
        destruct (is_empty (stripped c)) eqn:He; [now left |].
        destruct (String.eqb_spec (stripped c) (default ""%string (Re.group m "wallet")));
          [now left |].
        destruct (contains "..." (stripped c)) eqn:Hd; [now left |].
        destruct (Nat.ltb_spec 64 (String.length (stripped c))); [now left |].
        cbn [orb]. destruct (all_chars Patterns.worker_class (stripped c)) eqn:Ha;
          [| now left].
        right. repeat split; try assumption.
        destruct (stripped c); [discriminate | cbn; lia].
    - destruct (Re.rmatch wallet_only (strip line)); [| discriminate].
      injection H as <-. now left. }
  intros [H | H]; exact (Hgen _ _ H).
Qed.

Lemma worker_event_names_are_clean_witness :
  let line :=
    "Authorised client 7 10.0.0.9 worker 1BoatSLRHtKNngkdXEeobR76b53LETtpyT.rig_2 as user 1BoatSLRHtKNngkdXEeobR76b53LETtpyT"%string in
  exists ev,
    parse_authorised_line Lib.utc_stamp 1000 line = Some ev
    /\ we_worker ev = "rig_2"%string
    /\ (we_worker ev = "X"%string
        \/ (all_chars Patterns.worker_class (we_worker ev) = true
            /\ (1 <= String.length (we_worker ev) <= 64)%nat
            /\ contains "..." (we_worker ev) = false
            /\ we_worker ev <> we_wallet ev)).
Proof.
  intros line.
  destruct (parse_authorised_line Lib.utc_stamp 1000 line) as [ev |] eqn:H;
    [| vm_compute in H; discriminate].
  exists ev. split; [reflexivity |]. split.
  - vm_compute in H. injection H as <-. reflexivity.
  - exact (worker_event_names_are_clean Lib.utc_stamp 1000 line ev (or_introl H)).
Defined.

End ClassifierHelpers.

(** ** The incremental reader *)

Section IngestLaws.

Import Classifier Store Ingest Keeps.

Variable json_loads : string -> option (gmap string pyval).
Variable decode_ts : string -> option Z.
Variable WORKER_TIMEOUT : Z.

Local Notation "'ingest_line'" :=
  (Ingest.ingest_line json_loads decode_ts WORKER_TIMEOUT).
Local Notation "'ingest_lines'" :=
  (Ingest.ingest_lines json_loads decode_ts WORKER_TIMEOUT).
Local Notation "'ingest_log'" :=
  (Ingest.ingest_log json_loads decode_ts WORKER_TIMEOUT).

(** *** Nothing is deleted *)

Lemma extends_refl (c : db) : extends c c.
Proof. unfold extends. repeat split; try reflexivity. exists []. now rewrite app_nil_r. Qed.

Lemma extends_trans (a b c : db) : extends a b -> extends b c -> extends a c.
Proof.
  intros ([m1 H1] & Hw1 & Hu1 & Hp1) ([m2 H2] & Hw2 & Hu2 & Hp2).
  repeat split; try (etransitivity; eassumption).
  exists (m1 ++ m2). now rewrite H2, H1, app_assoc.
Qed.

Lemma extends_worker_seen (c : db) (wallet worker : string) (ts : Z) (act : bool) :
  extends c (upsert_worker_seen c wallet worker ts act).
Proof.
  unfold extends, upsert_worker_seen, with_workers_seen. cbn.
  repeat split; try reflexivity.
  - exists []. now rewrite app_nil_r.
  - apply dom_insert_subseteq.
Qed.

Lemma extends_refresh (c : db) (wallet : string) (wc : option Z) (now t : Z) :
  extends c (_refresh_single_worker_if_safe c wallet wc now t).
Proof.
  unfold _refresh_single_worker_if_safe.
  destruct wc as [[| [| |] |] |]; try apply extends_refl.
  destruct (_active_workers_for_wallet c wallet now t) as [| w [| w' ws]];
    try apply extends_refl.
  apply (extends_worker_seen c wallet w now true).
Qed.

Lemma extends_user_stats (c c' : db) (usr : user_event) :
  upsert_user_stats c usr = Ok c' -> extends c c'.
Proof.
  unfold upsert_user_stats. destruct (all_bindable _); [| discriminate].
  intros H. injection H as <-. unfold extends, with_user_stats. cbn.
  repeat split; try reflexivity.
  - exists []. now rewrite app_nil_r.
  - apply dom_insert_subseteq.
Qed.

Lemma extends_pool_metrics (c c' : db) (rec : gmap string pyval) :
  upsert_pool_metrics c rec = Ok c' -> extends c c'.
Proof.
  unfold upsert_pool_metrics. intros H.
  destruct (rec !! "ts"%string) as [[] |]; try discriminate.
  set (row := list_to_map _) in H.
  destruct (forallb _ POOL_COLS); [| discriminate].
  injection H as <-. unfold extends, with_pool_metrics. cbn.
  repeat split; try reflexivity.
  - exists []. now rewrite app_nil_r.
  - apply dom_insert_subseteq.
Qed.

Lemma extends_apply_user (c : db) (usr : user_event) :
  extends c (apply_user WORKER_TIMEOUT c usr).1.
Proof.
  unfold apply_user.
  assert (H1 : exists c1 b, (match upsert_user_stats c usr with
                             | Ok c0 => (c0, true) | Raise => (c, false) end) = (c1, b)
                            /\ extends c c1).
  { destruct (upsert_user_stats c usr) as [c0 |] eqn:E.
    - exists c0, true. split; [reflexivity |]. exact (extends_user_stats _ _ _ E).
    - exists c, false. split; [reflexivity | apply extends_refl]. }
  destruct H1 as (c1 & b & -> & H1). cbn [fst].
  eapply extends_trans; [exact H1 |].
  eapply extends_trans; [| apply extends_refresh].
  destruct (_to_int_safe _) as [n |]; [| apply extends_refl].
  destruct (0 <? n)%Z; [| apply extends_refl].
  destruct (latest_worker c1 _); [apply extends_worker_seen | apply extends_refl].
Qed.

Lemma extends_apply_share (c : db) (sh : share_event) :
  extends c (apply_share c sh).
Proof.
  unfold apply_share.
  assert (H : extends c (with_shares c (shares c ++ [sh]))).
  { unfold extends, with_shares. cbn. repeat split; try reflexivity. now exists [sh]. }
  destruct (se_worker sh) as [w |]; [| exact H].
  destruct (Text.is_empty w); [exact H |].
  eapply extends_trans; [exact H | apply extends_worker_seen].
Qed.

Lemma extends_ingest_line (now : Z) (c : db) (line : string) :
  extends c (ingest_line now c line).1.
Proof.
  unfold Ingest.ingest_line.
  destruct (parse_pool_json_line _ _ _ _) as [pj |].
  { cbn [fst]. unfold try_or. destruct (upsert_pool_metrics c pj) eqn:E.
    - exact (extends_pool_metrics _ _ _ E).
    - apply extends_refl. }
  destruct (parse_user_line _ _ _ _) as [usr |]; [apply extends_apply_user |].
  destruct (parse_authorised_line _ _ _) as [a |]; [apply extends_worker_seen |].
  destruct (parse_dropped_line _ _ _) as [d |]; [apply extends_worker_seen |].
  destruct (parse_share_line _ _ _) as [sh |]; [apply extends_apply_share |].
  apply extends_refl.
Qed.

Lemma extends_ingest_lines (clock : nat -> Z) (lines : list string) (i : nat) (c : db) (n : Z) :
  extends c (ingest_lines clock i c n lines).1
  /\ (n <= (ingest_lines clock i c n lines).2 <= n + Z.of_nat (length lines))%Z.
Proof.
  revert i c n. induction lines as [| line rest IH]; intros i c n.
  - cbn. split; [apply extends_refl | lia].
  - cbn [Ingest.ingest_lines length].
    pose proof (extends_ingest_line (clock i) c line) as H.
    destruct (ingest_line (clock i) c line) as [c' counted]. cbn [fst] in H.
    destruct (IH (S i) c' (if counted then n + 1 else n)%Z) as [H' Hn].
    split; [exact (extends_trans _ _ _ H H') |].
    destruct counted; lia.
Qed.

Lemma readlines_cons (a : ascii) (s : string) :
  (length (readlines s) <= length (readlines (String a s)))%nat.
Proof.
  cbn [readlines]. destruct (Text.is_char "010" a); [cbn; lia |].
  destruct (readlines s); cbn; lia.
Qed.

Lemma readlines_drop (n : nat) (s : string) :
  (length (readlines (Re.drop n s)) <= length (readlines s))%nat.
Proof.
  revert n. induction s as [| a s IH]; intros n; [now destruct n |].
  destruct n as [| n]; [reflexivity |]. cbn [Re.drop].
  etransitivity; [apply IH | apply readlines_cons].
Qed.

Lemma extends_set_meta (c : db) (k v : string) : extends c (set_meta c k v).
Proof.
  unfold extends, set_meta, with_meta. cbn. repeat split; try reflexivity.
  exists []. now rewrite app_nil_r.
Qed.

(** X5. A call of [ingest_log] deletes nothing: the shares recorded before are
    the start of the share log afterwards, and every key of [workers_seen],
    [user_stats] and [pool_metrics] is still a key.  The number it returns
    lies between zero and the number of lines of the file. *)
Theorem ingest_log_never_deletes (clock : nat -> Z) (conn : db)
    (log_path file : string) (from_bytes : Z) :
  extends conn (ingest_log clock conn log_path file from_bytes).1
  /\ (0 <= (ingest_log clock conn log_path file from_bytes).2
      <= Z.of_nat (length (readlines file)))%Z.
Proof.
  unfold Ingest.ingest_log.
  set (start := Z.max 0 _).
  pose proof (extends_ingest_lines clock
                (readlines (Re.drop (Z.to_nat start) file)) 0 conn 0) as [H Hn].
  pose proof (readlines_drop (Z.to_nat start) file) as Hd.
  destruct (Ingest.ingest_lines _ _ _ _ _ _ _ _) as [c n]. cbn [fst snd] in *.
  split; [| lia].
  exact (extends_trans _ _ _ H (extends_set_meta _ _ _)).
Qed.

(** *** Resuming at the cursor *)

Lemma drop_app_le (n : nat) (s t : string) :
  (n <= String.length s)%nat -> Re.drop n (s +:+ t) = Re.drop n s +:+ t.
Proof.
  revert n. induction s as [| a s IH]; intros n Hn.
  - cbn in Hn. assert (n = 0%nat) as -> by lia. rewrite append_nil_l. now destruct t.
  - destruct n as [| n]; [reflexivity |]. rewrite append_cons. cbn [Re.drop].
    apply IH. cbn in Hn. lia.
Qed.

Lemma drop_app_ge (n : nat) (s t : string) :
  (String.length s <= n)%nat -> Re.drop n (s +:+ t) = Re.drop (n - String.length s) t.
Proof.
  revert n. induction s as [| a s IH]; intros n Hn.
  - rewrite append_nil_l. cbn [String.length]. now rewrite Nat.sub_0_r.
  - destruct n as [| n]; [cbn in Hn; lia |]. rewrite append_cons. cbn [Re.drop String.length].
    apply IH. cbn in Hn. lia.
Qed.

Lemma drop_zero (s : string) : Re.drop 0 s = s.
Proof. now destruct s. Qed.

Lemma length_append (s t : string) :
  String.length (s +:+ t) = (String.length s + String.length t)%nat.
Proof.
  induction s as [| a s IH]; [now rewrite append_nil_l |].
  rewrite append_cons. cbn [String.length]. now rewrite IH.
Qed.

(** A text that ends in a newline is cut into whole lines, so what follows
    it is cut on its own. *)
Lemma readlines_app (g t : string) :
  readlines ((g +:+ Scenario.nl) +:+ t) = readlines (g +:+ Scenario.nl) ++ readlines t.
Proof.
  induction g as [| a g IH].
  - rewrite append_nil_l. unfold Scenario.nl. rewrite append_cons, append_nil_l. reflexivity.
  - rewrite !append_cons. cbn [readlines]. destruct (Text.is_char "010" a).
    + now rewrite IH.
    + rewrite IH. destruct (readlines (g +:+ Scenario.nl)) as [| l ls] eqn:E; [| reflexivity].
      exfalso. clear IH. revert E. clear. destruct g as [| b g].
      * rewrite append_nil_l. discriminate.
      * rewrite append_cons. cbn [readlines]. destruct (Text.is_char "010" b); [discriminate |].
        destruct (readlines (g +:+ Scenario.nl)); discriminate.
Qed.

Lemma set_meta_twice (c : db) (k v v' : string) :
  set_meta (set_meta c k v) k v' = set_meta c k v'.
Proof. unfold set_meta, with_meta. cbn. now rewrite insert_insert_eq. Qed.

(** The read loop neither reads nor writes [meta]. *)
Lemma refresh_set_meta (c : db) (k v wallet : string) (wc : option Z) (now t : Z) :
  _refresh_single_worker_if_safe (set_meta c k v) wallet wc now t
  = set_meta (_refresh_single_worker_if_safe c wallet wc now t) k v.
Proof.
  unfold _refresh_single_worker_if_safe.
  destruct wc as [[| [| |] |] |]; try reflexivity.
  change (_active_workers_for_wallet (set_meta c k v) wallet now t)
    with (_active_workers_for_wallet c wallet now t).
  destruct (_active_workers_for_wallet c wallet now t) as [| w [| w' ws]]; reflexivity.
Qed.

Lemma ingest_line_set_meta (now : Z) (c : db) (k v line : string) :
  ingest_line now (set_meta c k v) line
  = (set_meta (ingest_line now c line).1 k v, (ingest_line now c line).2).
Proof.
  unfold Ingest.ingest_line.
  destruct (parse_pool_json_line _ _ _ _) as [pj |].
  { cbn [fst snd]. f_equal. unfold upsert_pool_metrics.
    destruct (pj !! "ts"%string) as [[] |]; try reflexivity.
    change (pool_metrics (set_meta c k v)) with (pool_metrics c).
    set (row := list_to_map _).
    destruct (forallb _ POOL_COLS); reflexivity. }
  destruct (parse_user_line _ _ _ _) as [usr |].
  { assert (Hl : forall c0 w, latest_worker (set_meta c0 k v) w = latest_worker c0 w)
      by reflexivity.
    unfold apply_user, upsert_user_stats.
    destruct (all_bindable (ue_data usr)); cbv beta iota zeta; cbn [fst snd];
      change (user_stats (set_meta c k v)) with (user_stats c);
      try change (with_user_stats (set_meta c k v) ?U)
        with (set_meta (with_user_stats c U) k v);
      (f_equal; rewrite <- refresh_set_meta; f_equal;
       destruct (_to_int_safe _) as [n |]; [| reflexivity];
       destruct (0 <? n)%Z; [| reflexivity];
       rewrite Hl;
       match goal with
       | |- context [latest_worker ?X ?w] => destruct (latest_worker X w)
       end; reflexivity). }
  destruct (parse_authorised_line _ _ _) as [a |]; [reflexivity |].
  destruct (parse_dropped_line _ _ _) as [d |]; [reflexivity |].
  destruct (parse_share_line _ _ _) as [sh |]; [| reflexivity].
  cbn [fst snd]. f_equal. unfold apply_share.
  destruct (se_worker sh) as [w |]; [destruct (Text.is_empty w) |]; reflexivity.
Qed.

Lemma ingest_lines_set_meta (clock : nat -> Z) (lines : list string) (i : nat)
    (c : db) (n : Z) (k v : string) :
  ingest_lines clock i (set_meta c k v) n lines
  = (set_meta (ingest_lines clock i c n lines).1 k v, (ingest_lines clock i c n lines).2).
Proof.
  revert i c n. induction lines as [| line rest IH]; intros i c n; [reflexivity |].
  cbn [Ingest.ingest_lines]. rewrite ingest_line_set_meta.
  destruct (ingest_line (clock i) c line) as [c' counted]. cbn [fst snd]. apply IH.
Qed.

Lemma ingest_lines_count (clock : nat -> Z) (lines : list string) (i : nat)
    (c : db) (n : Z) :
  ingest_lines clock i c n lines
  = ((ingest_lines clock i c 0 lines).1, (n + (ingest_lines clock i c 0 lines).2)%Z).
Proof.
  revert i c n.
  induction lines as [| line rest IH]; intros i c n; [cbn; f_equal; lia |].
  cbn [Ingest.ingest_lines]. destruct (ingest_line (clock i) c line) as [c' counted].
  rewrite (IH _ _ (if counted then n + 1 else n)%Z).
  rewrite (IH _ _ (if counted then 0 + 1 else 0)%Z). cbn [fst snd].
  f_equal. destruct counted; lia.
Qed.

Lemma ingest_lines_shift (clock clock' : nat -> Z) (k : nat) (lines : list string)
    (i : nat) (c : db) (n : Z) :
  (forall j, clock' j = clock (k + j)%nat) ->
  ingest_lines clock' i c n lines = ingest_lines clock (k + i) c n lines.
Proof.
  intros Hc. revert i c n. induction lines as [| line rest IH]; intros i c n; [reflexivity |].
  cbn [Ingest.ingest_lines]. rewrite Hc.
  destruct (ingest_line (clock (k + i)%nat) c line) as [c' counted].
  rewrite IH. now rewrite Nat.add_succ_r.
Qed.

Lemma ingest_lines_app (clock : nat -> Z) (l1 l2 : list string) (i : nat) (c : db) (n : Z) :
  ingest_lines clock i c n (l1 ++ l2)
  = ingest_lines clock (length l1 + i) (ingest_lines clock i c n l1).1
                 (ingest_lines clock i c n l1).2 l2.
Proof.
  revert i c n. induction l1 as [| line rest IH]; intros i c n; [reflexivity |].
  cbn [Ingest.ingest_lines app length].
  destruct (ingest_line (clock i) c line) as [c' counted].
  rewrite IH. now rewrite Nat.add_succ_r.
Qed.

Lemma saved_offset_nonneg (saved : option string) : (0 <= saved_offset saved)%Z.
Proof.
  unfold saved_offset. destruct saved as [s |]; [| lia].
  destruct (NilZero.uint_of_string s); lia.
Qed.

Lemma ingest_log_from_cursor (clock : nat -> Z) (c : db) (log_path file : string) :
  let start := saved_offset (get_meta c (cursor_key log_path)) in
  let r := ingest_lines clock 0 c 0 (readlines (Re.drop (Z.to_nat start) file)) in
  ingest_log clock c log_path file 0
  = (set_meta r.1 (cursor_key log_path)
       (Text.str_of_Z (Z.max start (Z.of_nat (String.length file)))), r.2).
Proof.
  intros start r. unfold Ingest.ingest_log. rewrite Z.eqb_refl.
  pose proof (saved_offset_nonneg (get_meta c (cursor_key log_path))) as H.
  fold start in H |- *. rewrite (Z.max_r 0 start H). fold r.
  now destruct r.
Qed.

Lemma cursor_after_set (c : db) (log_path : string) (pos : Z) :
  (0 <= pos)%Z ->
  saved_offset (get_meta (set_meta c (cursor_key log_path) (Text.str_of_Z pos))
                  (cursor_key log_path)) = pos.
Proof.
  intros H. unfold get_meta, set_meta, with_meta. cbn [meta].
  rewrite lookup_insert_eq. now apply saved_offset_str.
Qed.

(** X6. A log that has grown by whole lines since the last call is picked up
    where that call stopped: the two calls together leave the store that a
    single call on the grown file leaves, and their counts add up.  The
    bytes written before the first call end in a newline; the clock of the
    second call goes on where the first one stopped. *)
Theorem ingest_log_resumes_at_cursor (clock clock' : nat -> Z) (conn : db)
    (log_path written appended : string) :
  let start := saved_offset (get_meta conn (cursor_key log_path)) in
  let lines_read := length (readlines (Re.drop (Z.to_nat start) (written +:+ Scenario.nl))) in
  (forall j, clock' j = clock (lines_read + j)%nat) ->
  let first := ingest_log clock conn log_path (written +:+ Scenario.nl) 0 in
  let second := ingest_log clock' first.1 log_path ((written +:+ Scenario.nl) +:+ appended) 0 in
  let once := ingest_log clock conn log_path ((written +:+ Scenario.nl) +:+ appended) 0 in
  second.1 = once.1 /\ (first.2 + second.2 = once.2)%Z.
Proof.
  intros start lines_read Hclock first second once.
  pose proof (saved_offset_nonneg (get_meta conn (cursor_key log_path))) as Hs.
  fold start in Hs.
  set (f1 := written +:+ Scenario.nl) in *.
  assert (Hlen : String.length (f1 +:+ appended)
                 = (String.length f1 + String.length appended)%nat)
    by apply length_append.
  assert (Hf1 : String.length f1 = S (String.length written)).
  { subst f1. rewrite length_append. cbn. lia. }
  subst first second once.
  rewrite (ingest_log_from_cursor clock conn log_path f1). fold start. cbn [fst snd].
  rewrite (ingest_log_from_cursor clock'). rewrite cursor_after_set by lia.
  rewrite (ingest_log_from_cursor clock conn log_path (f1 +:+ appended)). fold start.
  rewrite ingest_lines_set_meta. cbn [fst snd]. rewrite set_meta_twice.
  fold lines_read in Hclock.
  set (len1 := Z.of_nat (String.length f1)).
  destruct (Z.le_gt_cases start len1) as [Hle | Hgt].
  - rewrite (Z.max_r start len1 Hle).
    replace (Z.to_nat len1) with (String.length f1) by (subst len1; lia).
    rewrite (drop_app_ge _ f1 appended) by lia. rewrite Nat.sub_diag, drop_zero.
    rewrite (drop_app_le (Z.to_nat start) f1 appended) by (subst len1; lia).
    rewrite !Z.max_r by (subst len1; lia).
    assert (Hcut : readlines (Re.drop (Z.to_nat start) f1 +:+ appended)
                   = readlines (Re.drop (Z.to_nat start) f1) ++ readlines appended).
    { destruct (Nat.le_gt_cases (Z.to_nat start) (String.length written)) as [Hw | Hw].
      - subst f1. rewrite (drop_app_le _ written Scenario.nl Hw). apply readlines_app.
      - rewrite (drop_all f1) by lia. now rewrite append_nil_l. }
    rewrite Hcut, ingest_lines_app. rewrite Nat.add_0_r. fold lines_read.
    set (r1 := ingest_lines clock 0 conn 0 _).
    rewrite (ingest_lines_shift clock clock' lines_read _ 0 r1.1 0 Hclock).
    rewrite Nat.add_0_r.
    rewrite (ingest_lines_count clock (readlines appended) lines_read r1.1 r1.2).
    cbn [fst snd]. split; reflexivity.
  - rewrite (Z.max_l start len1) by lia.
    assert (Hnone : Re.drop (Z.to_nat start) f1 = ""%string)
      by (apply drop_all; subst len1; lia).
    assert (H0 : lines_read = 0%nat) by (subst lines_read; now rewrite Hnone).
    rewrite Hnone. cbn [readlines Ingest.ingest_lines fst snd].
    rewrite (ingest_lines_shift clock clock' 0 _ 0 conn 0)
      by (intros j; rewrite Hclock, H0; reflexivity).
    cbn [Nat.add].
    replace (Z.max (Z.max start len1) (Z.of_nat (String.length (f1 +:+ appended))))
      with (Z.max start (Z.of_nat (String.length (f1 +:+ appended)))) by (subst len1; lia).
    split; [reflexivity | lia].
Qed.

End IngestLaws.

Lemma ingest_log_resumes_at_cursor_witness :
  let ingest := Ingest.ingest_log Lib.json_flat Lib.utc_stamp 300 in
  let clock := fun _ : nat => 1704067200%Z in
  let written :=
    ("Authorised client 1 10.0.0.1 worker " +:+ Scenario.WALLET +:+ ".rig1 as user "
     +:+ Scenario.WALLET)%string in
  let appended :=
    ("Share accepted from " +:+ Scenario.WALLET +:+ ".rig1 at diff 1000"
     +:+ Scenario.nl)%string in
  let start :=
    Ingest.saved_offset (Store.get_meta Store.empty_db (Ingest.cursor_key "ckpool.log")) in
  let lines_read :=
    length (Ingest.readlines (Re.drop (Z.to_nat start) (written +:+ Scenario.nl))) in
  (forall j, clock j = clock (lines_read + j)%nat)
  /\ (let first := ingest clock Store.empty_db "ckpool.log"%string
                     (written +:+ Scenario.nl)%string 0%Z in
      let second := ingest clock first.1 "ckpool.log"%string
                      ((written +:+ Scenario.nl) +:+ appended)%string 0%Z in
      let once := ingest clock Store.empty_db "ckpool.log"%string
                    ((written +:+ Scenario.nl) +:+ appended)%string 0%Z in
      second.1 = once.1 /\ (first.2 + second.2 = once.2)%Z).
Proof.
  intros ingest clock written appended start lines_read.
  assert (H : forall j, clock j = clock (lines_read + j)%nat) by reflexivity.
  split; [exact H |].
  exact (ingest_log_resumes_at_cursor Lib.json_flat Lib.utc_stamp 300 clock clock
           Store.empty_db "ckpool.log"%string written appended H).
Defined.

(** ** The store *)

Section StoreLaws.

Import Text Classifier Store.

(** *** Pool metrics *)

Lemma Ok_inj {A : Type} (a b : A) : Ok a = Ok b -> a = b.
Proof. intros H. now injection H. Qed.

Lemma coalesce_twice (a b : pyval) : coalesce a (coalesce a b) = coalesce a b.
Proof. now destruct a. Qed.

Lemma tabulate_ext (f g : string -> pyval) (cols : list string) :
  (forall c, c ∈ cols -> f c = g c) ->
  map (fun c => (c, f c)) cols = map (fun c => (c, g c)) cols.
Proof.
  intros H. apply map_ext_in. intros c Hc. f_equal. apply H. now apply list_elem_of_In.
Qed.

(** X7. Writing the same record of pool metrics a second time changes
    nothing. *)
Theorem pool_upsert_is_idempotent (conn conn' : db) (rec : gmap string pyval) :
  upsert_pool_metrics conn rec = Ok conn' ->
  upsert_pool_metrics conn' rec = Ok conn'.
Proof.
  unfold upsert_pool_metrics.
  destruct (rec !! "ts"%string) as [[| | ts | | | |] |]; try discriminate.
  destruct (forallb _ POOL_COLS); [| discriminate].
  set (f := fun c => coalesce (Py.get rec c) (col (default ∅ (pool_metrics conn !! ts)) c)).
  set (row := list_to_map (map (fun c => (c, f c)) POOL_COLS) : gmap string pyval).
  intros H.
  assert (E : conn' = with_pool_metrics conn (<[ts := row]> (pool_metrics conn)))
    by (symmetry; exact (Ok_inj _ _ H)).
  clear H. subst conn'.
  change (pool_metrics (with_pool_metrics conn ?t)) with t.
  rewrite lookup_insert_eq. change (default ∅ (Some row)) with row.
  assert (Hrow : list_to_map (map (fun c => (c, coalesce (Py.get rec c) (col row c))) POOL_COLS)
                 = row).
  { unfold row at 2. f_equal. apply tabulate_ext. intros c Hc.
    unfold col at 1, Py.get at 2. unfold row.
    rewrite (lookup_tabulate f POOL_COLS c POOL_COLS_NoDup Hc).
    unfold f. apply coalesce_twice. }
  rewrite Hrow. rewrite insert_insert_eq. reflexivity.
Qed.

Lemma pool_upsert_is_idempotent_witness :
  let rec : gmap string pyval :=
    {[ "ts"%string := PInt 1000; "runtime"%string := PInt 60 ]} in
  exists conn',
    upsert_pool_metrics empty_db rec = Ok conn'
    /\ upsert_pool_metrics conn' rec = Ok conn'.
Proof.
  intros rec.
  destruct (upsert_pool_metrics empty_db rec) as [conn' |] eqn:H;
    [| vm_compute in H; discriminate].
  exists conn'. split; [reflexivity |].
  exact (pool_upsert_is_idempotent empty_db conn' rec H).
Defined.

(** *** The key of a user row *)


Lemma append_assoc (a b c : string) : (a +:+ b) +:+ c = a +:+ (b +:+ c).
Proof.
  induction a as [| x a IH]; [now rewrite !append_nil_l |].
  rewrite !append_cons. now rewrite IH.
Qed.




(** *** The names known as active *)

Lemma rows_where_spec (conn : db) (p : string * string * seen_row -> bool)
    (x : string * string * seen_row) :
  x ∈ rows_where conn p <-> workers_seen conn !! x.1 = Some x.2 /\ p x = true.
Proof.
  unfold rows_where, by_recency. rewrite merge_sort_Permutation.
  rewrite list_elem_of_In, filter_In, <- list_elem_of_In.
  destruct x as [k r]. now rewrite elem_of_map_to_list.
Qed.

Lemma rows_where_NoDup (conn : db) (p : string * string * seen_row -> bool) :
  NoDup (rows_where conn p).*1.
Proof.
  unfold rows_where, by_recency. rewrite merge_sort_Permutation.
  generalize (NoDup_fst_map_to_list (workers_seen conn)).
  induction (map_to_list (workers_seen conn)) as [| x l IH]; [intros _; constructor |].
  cbn [fmap list_fmap List.filter]. intros H. apply NoDup_cons in H as [Hx Hl].
  destruct (p x); [| exact (IH Hl)].
  cbn [fmap list_fmap]. apply NoDup_cons. split; [| exact (IH Hl)].
  intros Hin. apply Hx. apply list_elem_of_fmap in Hin as (y & -> & Hy).
  apply list_elem_of_fmap. exists y. split; [reflexivity |].
  apply list_elem_of_In in Hy. apply filter_In in Hy as [Hy _]. now apply list_elem_of_In.
Qed.

Lemma active_workers_mem (conn : db) (wallet : string) (now_ts timeout_s : Z) (w : string) :
  w ∈ _active_workers_for_wallet conn wallet now_ts timeout_s
  <-> exists r, workers_seen conn !! (wallet, w) = Some r
                /\ active r = true /\ (now_ts - timeout_s <= last_seen r)%Z.
Proof.
  unfold _active_workers_for_wallet.
  set (p := fun r : string * string * seen_row =>
              String.eqb r.1.1 wallet && active r.2 && (now_ts - timeout_s <=? last_seen r.2)%Z).
  assert (Hp : forall x, p x = true
                         <-> x.1.1 = wallet /\ active x.2 = true
                             /\ (now_ts - timeout_s <= last_seen x.2)%Z).
  { intros x. unfold p. rewrite !andb_true_iff, String.eqb_eq, Z.leb_le. tauto. }
  change (map ?f ?l) with (f <$> l). rewrite list_elem_of_fmap. split.
  - intros (x & -> & Hx). apply rows_where_spec in Hx as [Hx Hpx].
    apply Hp in Hpx as (Hw & Ha & Hf). exists x.2. destruct x as [[a b] r].
    cbn in *. subst a. auto.
  - intros (r & Hr & Ha & Hf). exists (wallet, w, r). split; [reflexivity |].
    apply rows_where_spec. split; [exact Hr |]. apply Hp. auto.
Qed.

(** X9. The names [_active_workers_for_wallet] returns are the workers of the
    wallet whose row is flagged active and was seen within the timeout,
    each once. *)
Theorem active_workers_are_the_fresh_active_rows (conn : db) (wallet : string)
    (now_ts timeout_s : Z) :
  (forall w,
      w ∈ _active_workers_for_wallet conn wallet now_ts timeout_s
      <-> exists r, workers_seen conn !! (wallet, w) = Some r
                    /\ active r = true /\ (now_ts - timeout_s <= last_seen r)%Z)
  /\ NoDup (_active_workers_for_wallet conn wallet now_ts timeout_s).
Proof.
  split; [intros w; apply active_workers_mem |].
  unfold _active_workers_for_wallet.
  set (p := fun r : string * string * seen_row =>
              String.eqb r.1.1 wallet && active r.2 && (now_ts - timeout_s <=? last_seen r.2)%Z).
  assert (Hp : forall x, p x = true -> x.1.1 = wallet).
  { intros x. unfold p. rewrite !andb_true_iff, String.eqb_eq. tauto. }
  change (map ?f ?l) with (f <$> l).
  assert (E : (fun r : string * string * seen_row => r.1.2) <$> rows_where conn p
              = snd <$> (rows_where conn p).*1).
  { rewrite <- list_fmap_compose. reflexivity. }
  rewrite E. apply NoDup_fmap_2_strong; [| apply rows_where_NoDup].
  intros [a b] [a' b'] Hx Hy Hxy. cbn in Hxy. subst b'.
  apply list_elem_of_fmap in Hx as (x & Ex & Hx).
  apply list_elem_of_fmap in Hy as (y & Ey & Hy).
  apply rows_where_spec in Hx as [_ Hx]. apply rows_where_spec in Hy as [_ Hy].
  apply Hp in Hx. apply Hp in Hy.
  rewrite <- Ex in Hx. rewrite <- Ey in Hy. cbn in Hx, Hy. congruence.
Qed.


End StoreLaws.

(** ** The snapshot built from the store *)

Section SnapshotLaws.

Import Text Num Units Classifier Store Snapshot.

(** *** Names of a wallet's workers *)

Lemma seen_names_spec (rows : list (string * Z)) (seen : list string) (n : string) :
  n ∈ seen_names rows seen <-> is_empty n = false /\ (n ∉ seen) /\ (n ∈ rows.*1).
Proof.
  revert seen. induction rows as [| [name ts] rest IH]; intros seen.
  - cbn. rewrite !elem_of_nil. tauto.
  - cbn [seen_names fmap list_fmap fst]. rewrite elem_of_cons.
    destruct (is_empty name || bool_decide (name ∈ seen)) eqn:E.
    + rewrite IH. apply orb_prop in E. split.
      * intros (H1 & H2 & H3). auto.
      * intros (H1 & H2 & [-> | H3]); [| auto].
        destruct E as [E | E]; [congruence |].
        apply bool_decide_eq_true in E. contradiction.
    + apply orb_false_elim in E as [E1 E2]. apply bool_decide_eq_false in E2.
      rewrite elem_of_cons, IH, not_elem_of_cons. split.
      * intros [-> | (H1 & [H2 H2'] & H3)]; auto.
      * intros (H1 & H2 & [-> | H3]); [now left |].
        destruct (decide (n = name)) as [-> | Hne]; [now left | right; auto].
Qed.

Lemma seen_names_NoDup (rows : list (string * Z)) (seen : list string) :
  NoDup (seen_names rows seen).
Proof.
  revert seen. induction rows as [| [name ts] rest IH]; intros seen; [constructor |].
  cbn [seen_names]. destruct (is_empty name || bool_decide (name ∈ seen)); [apply IH |].
  apply NoDup_cons. split; [| apply IH].
  rewrite seen_names_spec, not_elem_of_cons. tauto.
Qed.

(** *** Rows gathered per wallet *)

Lemma gather_fold (l : list (string * string * seen_row))
    (m : gmap string (list (string * Z))) (w : string) :
  default [] (fold_left gather l m !! w)
  = default [] (m !! w)
    ++ map (fun r => (r.1.2, last_seen r.2)) (List.filter (fun r => String.eqb r.1.1 w) l).
Proof.
  revert m. induction l as [| r l IH]; intros m; [cbn; now rewrite app_nil_r |].
  cbn [fold_left List.filter]. rewrite IH. unfold gather.
  destruct (String.eqb_spec r.1.1 w) as [-> | Hne].
  - rewrite lookup_insert_eq. cbn [default map id]. now rewrite <- app_assoc.
  - now rewrite lookup_insert_ne.
Qed.

Lemma gather_dom (l : list (string * string * seen_row))
    (m : gmap string (list (string * Z))) (w : string) :
  w ∈ dom (fold_left gather l m) <-> w ∈ dom m \/ exists r, r ∈ l /\ r.1.1 = w.
Proof.
  revert m. induction l as [| r l IH]; intros m.
  - cbn. split; [now left |]. intros [H | (r & Hr & _)]; [exact H |].
    now apply elem_of_nil in Hr.
  - cbn [fold_left]. rewrite IH. unfold gather. rewrite dom_insert, elem_of_union,
      elem_of_singleton. split.
    + intros [[-> | H] | (x & Hx & Hw)]; [right | now left | right].
      * exists r. split; [left | reflexivity].
      * exists x. split; [now right | exact Hw].
    + intros [H | (x & Hx & Hw)]; [left; now right |].
      apply elem_of_cons in Hx as [-> | Hx]; [left; now left |].
      right. exists x. auto.
Qed.

(** The rows the snapshot query selects. *)
Lemma selected_rows_spec (conn : db) (cutoff : Z) (x : string * string * seen_row) :
  x ∈ merge_sort wallet_then_recent
        (List.filter (fun r => (cutoff <=? last_seen r.2)%Z)
                     (map_to_list (workers_seen conn)))
  <-> workers_seen conn !! x.1 = Some x.2 /\ (cutoff <= last_seen x.2)%Z.
Proof.
  rewrite merge_sort_Permutation.
  rewrite list_elem_of_In, filter_In, <- list_elem_of_In, Z.leb_le.
  destruct x as [k r]. now rewrite elem_of_map_to_list.
Qed.

Lemma active_by_wallet_dom (conn : db) (cutoff : Z) (w : string) :
  w ∈ dom (active_by_wallet conn cutoff)
  <-> exists worker r, workers_seen conn !! (w, worker) = Some r
                       /\ (cutoff <= last_seen r)%Z.
Proof.
  unfold active_by_wallet. rewrite gather_dom, dom_empty, elem_of_empty. split.
  - intros [[] | (x & Hx & <-)]. apply selected_rows_spec in Hx as [Hx Hc].
    exists x.1.2, x.2. destruct x as [[a b] r]. auto.
  - intros (worker & r & Hr & Hc). right. exists (w, worker, r). split; [| reflexivity].
    apply selected_rows_spec. auto.
Qed.

Lemma active_by_wallet_names (conn : db) (cutoff : Z) (w n : string) :
  n ∈ (default [] (active_by_wallet conn cutoff !! w)).*1
  <-> exists r, workers_seen conn !! (w, n) = Some r /\ (cutoff <= last_seen r)%Z.
Proof.
  unfold active_by_wallet. rewrite gather_fold, lookup_empty. cbn [default app].
  change (map ?f ?l) with (f <$> l). rewrite <- list_fmap_compose.
  rewrite list_elem_of_fmap. split.
  - intros (x & -> & Hx). apply list_elem_of_In, filter_In in Hx as [Hx Hw].
    apply list_elem_of_In, selected_rows_spec in Hx as [Hx Hc].
    apply String.eqb_eq in Hw. exists x.2. destruct x as [[a b] r]. cbn in *. subst a. auto.
  - intros (r & Hr & Hc). exists (w, n, r). split; [reflexivity |].
    apply list_elem_of_In, filter_In. split; [| apply String.eqb_refl].
    apply list_elem_of_In, selected_rows_spec. auto.
Qed.

(** *** Wallets that have a user row *)

Lemma add_row_raise (rows : list (string * user_row)) :
  fold_left add_row rows Raise = Raise.
Proof. induction rows as [| kr rows IH]; [reflexivity | exact IH]. Qed.

Lemma aggregate_dom (rows : list (string * user_row)) (acc per_wallet : gmap string agg)
    (w : string) :
  fold_left add_row rows (Ok acc) = Ok per_wallet ->
  w ∈ dom per_wallet
  <-> w ∈ dom acc \/ exists kr, kr ∈ rows /\ (_split_addr_worker kr.1).1 = w.
Proof.
  revert acc. induction rows as [| kr rows IH]; intros acc H.
  - apply Ok_inj in H. subst. split; [now left |].
    intros [H | (r & Hr & _)]; [exact H |]. now apply elem_of_nil in Hr.
  - cbn [fold_left] in H.
    destruct (add_row (Ok acc) kr) as [acc' |] eqn:E;
      [| rewrite add_row_raise in H; discriminate].
    rewrite (IH acc' H). clear IH H.
    assert (Hd : dom acc' = {[ (_split_addr_worker kr.1).1 ]} ∪ dom acc).
    { unfold add_row in E. cbn [mbind result_bind] in E.
      destruct (match acc !! (_split_addr_worker kr.1).1 with
                | Some cur => merge_row cur kr.2
                | None => seed kr.2
                end) as [a |]; [| discriminate].
      apply Ok_inj in E. subst acc'. apply dom_insert_L. }
    rewrite Hd, elem_of_union, elem_of_singleton. split.
    + intros [[-> | H] | (x & Hx & Hw)]; [right | now left | right].
      * exists kr. split; [left | reflexivity].
      * exists x. split; [now right | exact Hw].
    + intros [H | (x & Hx & Hw)]; [left; now right |].
      apply elem_of_cons in Hx as [-> | Hx]; [left; now left |].
      right. exists x. auto.
Qed.

(** *** Pool snapshot and runtime *)

Lemma fold_max_spec (l : list Z) (k : Z) :
  (fold_left Z.max l k = k \/ fold_left Z.max l k ∈ l)
  /\ (k <= fold_left Z.max l k)%Z
  /\ forall x, x ∈ l -> (x <= fold_left Z.max l k)%Z.
Proof.
  revert k. induction l as [| a l IH]; intros k.
  - cbn. split; [now left |]. split; [lia |]. intros x Hx. now apply elem_of_nil in Hx.
  - cbn [fold_left]. destruct (IH (Z.max k a)) as (H1 & H2 & H3). split; [| split].
    + destruct H1 as [H1 | H1]; [| right; now right].
      rewrite H1. destruct (Z.max_spec k a) as [[_ ->] | [_ ->]]; [right; left | now left].
    + lia.
    + intros x Hx. apply elem_of_cons in Hx as [-> | Hx]; [lia | now apply H3].
Qed.

Lemma fold_min_spec (l : list Z) (k : Z) :
  (fold_left Z.min l k = k \/ fold_left Z.min l k ∈ l)
  /\ (fold_left Z.min l k <= k)%Z
  /\ forall x, x ∈ l -> (fold_left Z.min l k <= x)%Z.
Proof.
  revert k. induction l as [| a l IH]; intros k.
  - cbn. split; [now left |]. split; [lia |]. intros x Hx. now apply elem_of_nil in Hx.
  - cbn [fold_left]. destruct (IH (Z.min k a)) as (H1 & H2 & H3). split; [| split].
    + destruct H1 as [H1 | H1]; [| right; now right].
      rewrite H1. destruct (Z.min_spec k a) as [[_ ->] | [_ ->]]; [now left | right; left].
    + lia.
    + intros x Hx. apply elem_of_cons in Hx as [-> | Hx]; [lia | now apply H3].
Qed.

Lemma max_key_spec (m : gmap Z (gmap string pyval)) (k : Z) :
  max_key m = Some k -> k ∈ dom m /\ forall k', k' ∈ dom m -> (k' <= k)%Z.
Proof.
  unfold max_key.
  assert (Hd : forall x, x ∈ dom m <-> x ∈ (map_to_list m).*1).
  { intros x. rewrite elem_of_dom, list_elem_of_fmap. split.
    - intros [r Hr]. exists (x, r). split; [reflexivity | now apply elem_of_map_to_list].
    - intros ([a r] & -> & Hr). exists r. now apply elem_of_map_to_list. }
  destruct (map_to_list m) as [| [k0 r0] rest]; [discriminate |].
  intros H. injection H as <-. change (map fst rest) with (rest.*1).
  destruct (fold_max_spec (rest.*1) k0) as (H1 & H2 & H3). split.
  - apply Hd. cbn [fmap list_fmap fst]. destruct H1 as [-> | H1]; [left | now right].
  - intros k' Hk'. apply Hd in Hk'. cbn [fmap list_fmap fst] in Hk'.
    apply elem_of_cons in Hk' as [-> | Hk']; [exact H2 | now apply H3].
Qed.

Lemma POOL_KEYS_NoDup : NoDup ("ts"%string :: map snd POOL_KEYS).
Proof. by_compute. Qed.

(** X11. [get_pool_snapshot] answers with the row of the greatest timestamp,
    each column under the key the UI reads, and with an empty dict when the
    table is empty. *)
Theorem pool_snapshot_is_latest_row (conn : db) :
  (pool_metrics conn = ∅ -> get_pool_snapshot conn = ∅)
  /\ (forall ts row,
         pool_metrics conn !! ts = Some row ->
         (forall ts', ts' ∈ dom (pool_metrics conn) -> (ts' <= ts)%Z) ->
         get_pool_snapshot conn !! "ts"%string = Some (PInt ts)
         /\ forall ck, ck ∈ POOL_KEYS -> get_pool_snapshot conn !! ck.2 = Some (col row ck.1)).
Proof.
  unfold get_pool_snapshot. split.
  - intros ->. reflexivity.
  - intros ts row Hrow Hmax.
    destruct (max_key (pool_metrics conn)) as [k |] eqn:E.
    + destruct (max_key_spec _ _ E) as [Hk Hle].
      assert (k = ts) as ->.
      { apply Z.le_antisymm; [now apply Hmax |]. apply Hle, elem_of_dom. now exists row. }
      rewrite Hrow. change (default ∅ (Some row)) with row.
      set (l := ("ts"%string, PInt ts) :: map (fun ck => (ck.2, col row ck.1)) POOL_KEYS).
      assert (Hnd : NoDup l.*1).
      { assert (El : l.*1 = "ts"%string :: map snd POOL_KEYS).
          by reflexivity.
        rewrite El. exact POOL_KEYS_NoDup. }
      split.
      * apply elem_of_list_to_map_1; [exact Hnd | left].
      * intros ck Hck. apply elem_of_list_to_map_1; [exact Hnd |]. right.
        change (map ?f ?x) with (f <$> x).
        apply (list_elem_of_fmap_2 (fun ck => (ck.2, col row ck.1))). exact Hck.
    + exfalso. unfold max_key in E.
      destruct (map_to_list (pool_metrics conn)) as [| [k0 r0] rest] eqn:El; [| discriminate].
      apply map_to_list_empty_iff in El. rewrite El in Hrow. discriminate.
Qed.

Lemma pool_snapshot_is_latest_row_witness :
  let older : gmap string pyval := {[ "users"%string := PInt 1 ]} in
  let newer : gmap string pyval := {[ "users"%string := PInt 2 ]} in
  let conn := with_pool_metrics empty_db {[ 1000%Z := older; 2000%Z := newer ]} in
  pool_metrics conn !! 2000%Z = Some newer
  /\ (forall ts', ts' ∈ dom (pool_metrics conn) -> (ts' <= 2000)%Z)
  /\ get_pool_snapshot conn !! "ts"%string = Some (PInt 2000).
Proof.
  intros older newer conn.
  assert (H1 : pool_metrics conn !! 2000%Z = Some newer) by (vm_compute; reflexivity).
  assert (H2 : forall ts', ts' ∈ dom (pool_metrics conn) -> (ts' <= 2000)%Z).
  { intros ts' H. unfold conn, with_pool_metrics in H. cbn [pool_metrics] in H.
    rewrite dom_insert, dom_singleton in H.
    apply elem_of_union in H as [H | H]; apply elem_of_singleton in H; lia. }
  split; [exact H1 |]. split; [exact H2 |].
  exact (proj1 (proj2 (pool_snapshot_is_latest_row conn) 2000%Z newer H1 H2)).
Defined.

Lemma min_of_spec (l : list Z) (m : Z) :
  min_of l = Some m -> m ∈ l /\ forall x, x ∈ l -> (m <= x)%Z.
Proof.
  destruct l as [| a l]; [discriminate |]. cbn [min_of]. intros H. injection H as <-.
  destruct (fold_min_spec l a) as (H1 & H2 & H3). split.
  - destruct H1 as [-> | H1]; [left | now right].
  - intros x Hx. apply elem_of_cons in Hx as [-> | Hx]; [exact H2 | now apply H3].
Qed.

Lemma table_min_spec (l : list Z) :
  (forall m, m ∈ table_min l -> m ∈ l)
  /\ (Forall (fun t => t <> 0%Z) l ->
      forall x, x ∈ l -> exists m, m ∈ table_min l /\ (m <= x)%Z).
Proof.
  unfold table_min. destruct (min_of l) as [m |] eqn:E.
  - destruct (min_of_spec l m E) as [Hin Hle]. split.
    + intros m'. destruct (m =? 0)%Z; [intros H; now apply elem_of_nil in H |].
      intros H. apply list_elem_of_singleton in H. now subst.
    + intros Hnz x Hx. rewrite Forall_forall in Hnz.
      destruct (Z.eqb_spec m 0) as [-> | _]; [now destruct (Hnz 0%Z Hin) |].
      exists m. split; [left | now apply Hle].
  - destruct l; [| discriminate]. split.
    + intros m H. now apply elem_of_nil in H.
    + intros _ x Hx. now apply elem_of_nil in Hx.
Qed.

(** X12. The runtime the snapshot falls back on is never negative.  When no
    stored timestamp is zero it is the age of the earliest record of
    [pool_metrics], [user_stats] and [shares], or zero when that record lies
    in the future or nothing is stored. *)
Theorem runtime_is_age_of_earliest_record (conn : db) (now : Z) :
  let recorded :=
    map fst (map_to_list (pool_metrics conn))
    ++ map (fun kr => ur_ts kr.2) (map_to_list (user_stats conn))
    ++ map se_ts (shares conn) in
  (0 <= get_pool_runtime_seconds conn now)%Z
  /\ (Forall (fun t => t <> 0%Z) recorded ->
      (forall t, t ∈ recorded -> (now - t <= get_pool_runtime_seconds conn now)%Z)
      /\ (get_pool_runtime_seconds conn now = 0%Z
          \/ exists t, t ∈ recorded /\ get_pool_runtime_seconds conn now = (now - t)%Z)).
Proof.
  cbv zeta. unfold get_pool_runtime_seconds.
  set (l1 := map fst (map_to_list (pool_metrics conn))).
  set (l2 := map (fun kr => ur_ts kr.2) (map_to_list (user_stats conn))).
  set (l3 := map se_ts (shares conn)).
  set (mins := table_min l1 ++ table_min l2 ++ table_min l3).
  assert (Hsub : forall m, m ∈ mins -> m ∈ l1 ++ l2 ++ l3).
  { intros m. unfold mins. rewrite !elem_of_app.
    intros [H | [H | H]]; apply (proj1 (table_min_spec _)) in H; auto. }
  split.
  - destruct (min_of mins) as [e |]; [| lia]. destruct (e =? 0)%Z; lia.
  - intros Hnz.
    assert (Hcov : forall x, x ∈ l1 ++ l2 ++ l3 -> exists m, m ∈ mins /\ (m <= x)%Z).
    { apply Forall_app in Hnz as [H1 H23]. apply Forall_app in H23 as [H2 H3].
      intros x. unfold mins. rewrite !elem_of_app.
      intros [H | [H | H]];
        [destruct (proj2 (table_min_spec l1) H1 x H) as (m & Hm & Hle)
        |destruct (proj2 (table_min_spec l2) H2 x H) as (m & Hm & Hle)
        |destruct (proj2 (table_min_spec l3) H3 x H) as (m & Hm & Hle)];
        exists m; rewrite !elem_of_app; auto. }
    destruct (min_of mins) as [e |] eqn:E.
    + destruct (min_of_spec mins e E) as [He Hle].
      rewrite Forall_forall in Hnz. pose proof (Hnz e (Hsub e He)) as Hz.
      destruct (Z.eqb_spec e 0) as [-> | _]; [contradiction |]. split.
      * intros t Ht. destruct (Hcov t Ht) as (m & Hm & Hmt).
        specialize (Hle m Hm). lia.
      * destruct (Z.max_spec 0 (now - e)) as [[_ ->] | [_ ->]]; [right | now left].
        exists e. split; [now apply Hsub | reflexivity].
    + split; [| now left]. intros t Ht. destruct (Hcov t Ht) as (m & Hm & _).
      destruct mins; [now apply elem_of_nil in Hm | discriminate].
Qed.

Lemma runtime_is_age_of_earliest_record_witness :
  let conn :=
    with_shares (with_pool_metrics empty_db {[ 1000%Z := ∅ ]})
      [ShareEvent 900 "accepted" "a" None "1" None None] in
  let recorded :=
    map fst (map_to_list (pool_metrics conn))
    ++ map (fun kr => ur_ts kr.2) (map_to_list (user_stats conn))
    ++ map se_ts (shares conn) in
  Forall (fun t => t <> 0%Z) recorded
  /\ (forall t, t ∈ recorded -> (1500 - t <= get_pool_runtime_seconds conn 1500)%Z).
Proof.
  intros conn recorded.
  assert (H : Forall (fun t => t <> 0%Z) recorded).
  { vm_compute. repeat constructor; discriminate. }
  split; [exact H |].
  exact (proj1 (proj2 (runtime_is_age_of_earliest_record conn 1500) H)).
Defined.

(** *** The rows of a built snapshot *)

Variable json_loads : string -> option (gmap string pyval).
Variable decode_ts : string -> option Z.
Variable WORKER_TIMEOUT : Z.

Local Notation "'build'" :=
  (Snapshot._build_from_log json_loads decode_ts WORKER_TIMEOUT).

Lemma build_users (conn : db) (log : option (string * string)) (clock : nat -> Z)
    (now : Z) (s : snapshot) :
  (build conn log clock now).2 = Ok s ->
  let stored := (build conn log clock now).1 in
  exists per_wallet,
    aggregate (map_to_list (user_stats stored)) = Ok per_wallet
    /\ let by_wallet :=
         active_by_wallet (expire_stale_workers stored now WORKER_TIMEOUT)
                          (now - WORKER_TIMEOUT) in
       users s ≡ₚ map (make_row per_wallet by_wallet)
                      (elements (dom per_wallet ∪ dom by_wallet))
       /\ exists t, snap_totals s = Some t
                    /\ users_count t = Z.of_nat (length (users s)).
Proof.
  unfold Snapshot._build_from_log. cbv zeta. cbn [fst snd].
  set (stored := match log with Some _ => _ | None => conn end).
  change (user_stats (expire_stale_workers stored now WORKER_TIMEOUT))
    with (user_stats stored).
  destruct (aggregate (map_to_list (user_stats stored))) as [pw |]; [| discriminate].
  cbn [mbind result_bind]. intros H. apply Ok_inj in H. subst s.
  exists pw. split; [reflexivity |]. cbn [users snap_totals]. split.
  - apply merge_sort_Permutation.
  - eexists. split; [reflexivity |]. cbn [users_count].
    now rewrite merge_sort_Permutation.
Qed.

Lemma expired_selection (conn : db) (now t cutoff : Z) (k : string * string) :
  (exists r, workers_seen (expire_stale_workers conn now t) !! k = Some r
             /\ (cutoff <= last_seen r)%Z)
  <-> (exists r, workers_seen conn !! k = Some r /\ (cutoff <= last_seen r)%Z).
Proof.
  rewrite expire_lookup. split.
  - intros (r & Hr & Hc). destruct (workers_seen conn !! k) as [r0 |]; [| discriminate].
    cbn in Hr. injection Hr as <-. exists r0. split; [reflexivity |].
    revert Hc. unfold expire_row. now destruct (active r0 && _).
  - intros (r & -> & Hc). exists (expire_row now t r). split; [reflexivity |].
    unfold expire_row. now destruct (active r && _).
Qed.

(** X13. A snapshot built from the store has one row per wallet: no wallet is
    listed twice, and a wallet is listed exactly when the store holds a user
    row under the wallet or one of its sub-accounts, or a worker of the
    wallet seen within the timeout.  Each row names the wallet as its
    address and user, and the totals count the rows. *)
Theorem snapshot_has_one_row_per_wallet (conn : db) (log : option (string * string))
    (clock : nat -> Z) (now : Z) (s : snapshot) :
  (build conn log clock now).2 = Ok s ->
  let stored := (build conn log clock now).1 in
  NoDup (map wr_wallet (users s))
  /\ (forall w,
         w ∈ map wr_wallet (users s)
         <-> (exists key, key ∈ dom (user_stats stored) /\ (_split_addr_worker key).1 = w)
             \/ (exists worker r, workers_seen stored !! (w, worker) = Some r
                                  /\ (now - WORKER_TIMEOUT <= last_seen r)%Z))
  /\ (forall u, u ∈ users s ->
                wr_address u = wr_wallet u /\ wr_user u = wr_wallet u
                /\ wr_worker u = ""%string)
  /\ (exists t, snap_totals s = Some t /\ users_count t = Z.of_nat (length (users s))).
Proof.
  intros H stored. destruct (build_users conn log clock now s H)
    as (pw & Hpw & Hperm & Htot). fold stored in Hpw, Hperm.
  set (bw := active_by_wallet _ _) in Hperm.
  assert (Hw : map wr_wallet (users s) ≡ₚ elements (dom pw ∪ dom bw)).
  { assert (E : forall l, map wr_wallet (map (make_row pw bw) l) = l).
    { induction l as [| x l IH]; [reflexivity |]. cbn [map]. now rewrite IH. }
    rewrite <- (E (elements (dom pw ∪ dom bw))).
    change (map ?f ?l) with (f <$> l). now rewrite Hperm. }
  split; [rewrite Hw; apply NoDup_elements |]. split; [| split; [| exact Htot]].
  - intros w. rewrite Hw, elem_of_elements, elem_of_union.
    unfold aggregate in Hpw. rewrite (aggregate_dom _ ∅ pw w Hpw), dom_empty, elem_of_empty.
    unfold bw. rewrite active_by_wallet_dom.
    assert (Hu : (exists kr, kr ∈ map_to_list (user_stats stored)
                             /\ (_split_addr_worker kr.1).1 = w)
                 <-> (exists key, key ∈ dom (user_stats stored)
                                  /\ (_split_addr_worker key).1 = w)).
    { split.
      - intros ([k r] & Hkr & Hs). exists k. split; [| exact Hs].
        apply elem_of_map_to_list in Hkr. apply elem_of_dom. now exists r.
      - intros (k & Hk & Hs). apply elem_of_dom in Hk as [r Hr].
        exists (k, r). split; [now apply elem_of_map_to_list | exact Hs]. }
    assert (Hs : (exists worker r,
                     workers_seen (expire_stale_workers stored now WORKER_TIMEOUT)
                       !! (w, worker) = Some r
                     /\ (now - WORKER_TIMEOUT <= last_seen r)%Z)
                 <-> (exists worker r, workers_seen stored !! (w, worker) = Some r
                                       /\ (now - WORKER_TIMEOUT <= last_seen r)%Z)).
    { split; intros (worker & Hr); exists worker;
        now apply (expired_selection stored now WORKER_TIMEOUT _ (w, worker)). }
    rewrite Hu, Hs. tauto.
  - intros u Hu. rewrite Hperm in Hu. change (map ?f ?l) with (f <$> l) in Hu.
    apply list_elem_of_fmap in Hu as (w & -> & _). now split.
Qed.

(** X14. The workers a row of the snapshot lists as active are the workers of
    the wallet with a non-empty name whose row in [workers_seen] was seen
    within the timeout, each once; the [active] flag of the row plays no
    part. *)
Theorem snapshot_lists_recently_seen_workers (conn : db) (log : option (string * string))
    (clock : nat -> Z) (now : Z) (s : snapshot) (u : wallet_row) :
  (build conn log clock now).2 = Ok s ->
  u ∈ users s ->
  let stored := (build conn log clock now).1 in
  NoDup (wr_active_workers u)
  /\ (forall n,
         n ∈ wr_active_workers u
         <-> n <> ""%string
             /\ exists r, workers_seen stored !! (wr_wallet u, n) = Some r
                          /\ (now - WORKER_TIMEOUT <= last_seen r)%Z)
  /\ (wr_active_workers u <> [] -> wr_workers u = Z.of_nat (length (wr_active_workers u))).
Proof.
  intros H Hu stored. destruct (build_users conn log clock now s H)
    as (pw & Hpw & Hperm & Htot). fold stored in Hpw, Hperm.
  rewrite Hperm in Hu. change (map ?f ?l) with (f <$> l) in Hu.
  apply list_elem_of_fmap in Hu as (w & -> & _).
  cbn [make_row wr_active_workers wr_wallet wr_workers].
  split; [apply seen_names_NoDup |]. split.
  - intros n. rewrite seen_names_spec, active_by_wallet_names.
    rewrite (expired_selection stored now WORKER_TIMEOUT _ (w, n)).
    rewrite elem_of_nil. destruct n; cbn [is_empty]; split.
    + intros [? _]. discriminate.
    + intros [? _]. congruence.
    + intros (_ & _ & Hr). split; [discriminate | exact Hr].
    + intros [_ Hr]. split; [reflexivity |]. tauto.
  - destruct (seen_names _ _); [congruence | reflexivity].
Qed.

End SnapshotLaws.

Lemma snapshot_has_one_row_per_wallet_witness :
  let r :=
    Snapshot._build_from_log Lib.json_flat Lib.utc_stamp 300 Store.empty_db
      (Some ("ckpool.log"%string, Scenario.two_workers_log)) (fun _ => 1704067400%Z)
      1704067400%Z in
  exists s,
    r.2 = Ok s
    /\ NoDup (map Snapshot.wr_wallet (Snapshot.users s))
    /\ exists t, Snapshot.snap_totals s = Some t
                 /\ Snapshot.users_count t = Z.of_nat (length (Snapshot.users s)).
Proof.
  intros r. destruct r.2 as [s |] eqn:H; [| vm_compute in H; discriminate].
  exists s. split; [reflexivity |].
  pose proof (snapshot_has_one_row_per_wallet Lib.json_flat Lib.utc_stamp 300 Store.empty_db
                (Some ("ckpool.log"%string, Scenario.two_workers_log))
                (fun _ => 1704067400%Z) 1704067400%Z s H) as (H1 & _ & _ & H4).
  split; [exact H1 | exact H4].
Defined.

Lemma snapshot_lists_recently_seen_workers_witness :
  let r :=
    Snapshot._build_from_log Lib.json_flat Lib.utc_stamp 300 Store.empty_db
      (Some ("ckpool.log"%string, Scenario.two_workers_log)) (fun _ => 1704067400%Z)
      1704067400%Z in
  exists s u,
    r.2 = Ok s /\ u ∈ Snapshot.users s
    /\ NoDup (Snapshot.wr_active_workers u)
    /\ (Snapshot.wr_active_workers u <> [] ->
        Snapshot.wr_workers u = Z.of_nat (length (Snapshot.wr_active_workers u))).
Proof.
  intros r. destruct r.2 as [s |] eqn:H; [| vm_compute in H; discriminate].
  destruct (Snapshot.users s) as [| u us] eqn:Hu.
  { exfalso. pose proof H as H'. vm_compute in H'. apply Ok_inj in H'.
    rewrite <- H' in Hu. discriminate Hu. }
  assert (Hin : u ∈ Snapshot.users s) by (rewrite Hu; left).
  exists s, u. split; [reflexivity |]. split; [exact Hin |].
  pose proof (snapshot_lists_recently_seen_workers Lib.json_flat Lib.utc_stamp 300
                Store.empty_db (Some ("ckpool.log"%string, Scenario.two_workers_log))
                (fun _ => 1704067400%Z) 1704067400%Z s u H Hin) as (H1 & _ & H3).
  split; [exact H1 | exact H3].
Defined.

(** ** Remote users, retries and the state object *)

Section RemoteUsers.

Import Text Http.

Variable repr : pyval -> string.

Lemma prefix_app (p r : string) : String.prefix p (p +:+ r) = true.
Proof.
  induction p as [| a p IH]; [rewrite append_nil_l; apply prefix_nil_l |].
  now rewrite append_cons, prefix_cons, Ascii.eqb_refl.
Qed.

Lemma prefix_longer (w : string) (a : ascii) : String.prefix (w +:+ String a "") w = false.
Proof.
  induction w as [| b w IH]; [reflexivity |].
  now rewrite append_cons, prefix_cons, IH, andb_false_r.
Qed.

Lemma drop_app_exact (p r : string) : Re.drop (String.length p) (p +:+ r) = r.
Proof.
  rewrite drop_app_ge by lia. rewrite Nat.sub_diag. apply drop_zero.
Qed.

Lemma truthy_str (s : string) : Py.truthy (PStr s) = negb (is_empty s).
Proof. now destruct s. Qed.

(** X15. A user entry of the remote status that names no wallet gets one from
    its [user] field: the part before the first dot is the wallet and the
    address, the part after it the worker; a [user] without a dot is the
    wallet itself and the worker is empty. *)
Theorem remote_user_is_split_at_first_dot (d : gmap string pyval) (w k : string) :
  Py.truthy (Py.get d "wallet") = false ->
  contains "." w = false ->
  (Py.get d "user" = PStr (w +:+ String "." k) ->
   fix_user repr (PDict d)
   = Ok (PDict (<["worker"%string := PStr k]>
                (<["address"%string := PStr w]> (<["wallet"%string := PStr w]> d)))))
  /\ (Py.get d "user" = PStr w ->
      fix_user repr (PDict d)
      = Ok (PDict (<["worker"%string := PStr ""]>
                   (<["address"%string := PStr w]> (<["wallet"%string := PStr w]> d))))).
Proof.
  intros Hnw Hw. unfold fix_user. rewrite Hnw. split; intros ->.
  - assert (Ht : Py.truthy (PStr (w +:+ String "." k)) = true).
    { rewrite truthy_str. destruct w; [reflexivity | now rewrite append_cons]. }
    unfold Py.or_else. rewrite Ht. unfold before_dot.
    rewrite (split_once_app w k Hw). cbn [mbind result_bind py_str].
    unfold startswith.
    replace (w +:+ String "." k) with ((w +:+ ".") +:+ k)
      by (now rewrite append_assoc, append_cons, append_nil_l).
    rewrite prefix_app.
    replace (String.length w + 1)%nat with (String.length (w +:+ "."))
      by (rewrite length_append; reflexivity).
    now rewrite drop_app_exact.
  - assert (Hb : before_dot w = w).
    { unfold before_dot. apply split_once_none in Hw. now rewrite Hw. }
    unfold Py.or_else. rewrite truthy_str. destruct (is_empty w) eqn:Hemp; cbn [negb].
    + destruct w; [| discriminate]. reflexivity.
    + rewrite Hb. cbn [mbind result_bind py_str]. unfold startswith.
      now rewrite prefix_longer.
Qed.

End RemoteUsers.

Lemma remote_user_is_split_at_first_dot_witness :
  let d : gmap string pyval := {[ "user"%string := PStr "bc1qexample.rig1" ]} in
  Py.truthy (Py.get d "wallet") = false
  /\ Text.contains "." "bc1qexample" = false
  /\ Py.get d "user" = PStr ("bc1qexample" +:+ String "." "rig1")
  /\ Http.fix_user (fun _ => ""%string) (PDict d)
     = Ok (PDict (<["worker"%string := PStr "rig1"]>
                  (<["address"%string := PStr "bc1qexample"]>
                   (<["wallet"%string := PStr "bc1qexample"]> d)))).
Proof.
  intros d.
  assert (H1 : Py.truthy (Py.get d "wallet") = false) by reflexivity.
  assert (H2 : Text.contains "." "bc1qexample" = false) by reflexivity.
  assert (H3 : Py.get d "user" = PStr ("bc1qexample" +:+ String "." "rig1")) by reflexivity.
  split; [exact H1 |]. split; [exact H2 |]. split; [exact H3 |].
  exact (proj1 (remote_user_is_split_at_first_dot (fun _ => ""%string) d "bc1qexample" "rig1" H1 H2) H3).
Defined.

Section RetryLaws.

Import Retry.

(** What a run of the retry loop amounts to, for a pause whose running
    total is [F]. *)
Lemma retry_loop_spec (pause F : nat -> Q) (tries : nat -> attempt) (left i : nat) (slept : Q) :
  (forall j, F (S j) == F j + pause j)%Q ->
  (slept == F i)%Q ->
  match retry_loop pause tries i left slept with
  | (Returned k, s) =>
      (i < k <= i + left)%nat /\ tries (k - 1)%nat = Done
      /\ (forall j, (i <= j < k - 1)%nat -> tries j = Locked) /\ (s == F (k - 1)%nat)%Q
  | (Reraised k, s) =>
      (i < k <= i + left)%nat /\ tries (k - 1)%nat = Failed
      /\ (forall j, (i <= j < k - 1)%nat -> tries j = Locked) /\ (s == F (k - 1)%nat)%Q
  | (GaveUp, s) =>
      (forall j, (i <= j < i + left)%nat -> tries j = Locked) /\ (s == F (i + left)%nat)%Q
  end.
Proof.
  intros HF. revert i slept. induction left as [| left IH]; intros i slept Hs.
  - cbn [retry_loop]. split; [intros j Hj; lia |]. now rewrite Nat.add_0_r.
  - cbn [retry_loop]. destruct (tries i) eqn:E.
    + replace (S i - 1)%nat with i by lia.
      repeat split; try lia; try assumption; try (intros j Hj; lia).
    + assert (Hs' : (slept + pause i == F (S i))%Q) by (rewrite HF, Hs; reflexivity).
      specialize (IH (S i) (slept + pause i)%Q Hs').
      destruct (retry_loop pause tries (S i) left (slept + pause i)%Q) as [[k | k |] s].
      * destruct IH as (H1 & H2 & H3 & H4). repeat split; try lia; try assumption.
        intros j Hj. destruct (Nat.eq_dec j i) as [-> | Hne]; [exact E | apply H3; lia].
      * destruct IH as (H1 & H2 & H3 & H4). repeat split; try lia; try assumption.
        intros j Hj. destruct (Nat.eq_dec j i) as [-> | Hne]; [exact E | apply H3; lia].
      * destruct IH as (H1 & H2). split.
        -- intros j Hj. destruct (Nat.eq_dec j i) as [-> | Hne]; [exact E | apply H1; lia].
        -- now rewrite H2, Nat.add_succ_r.
    + replace (S i - 1)%nat with i by lia.
      repeat split; try lia; try assumption; try (intros j Hj; lia).
Qed.

(** X16. [safe_commit] returns from the first attempt that is not refused for
    a lock, or lets its exception through; before that it has slept [delay]
    once per locked attempt.  After [retries] locked attempts - none at all
    when [retries] is not positive - it raises the persistent-lock error. *)
Theorem safe_commit_stops_at_first_unlocked_attempt (tries : nat -> attempt)
    (retries : Z) (delay : Q) :
  match safe_commit tries retries delay with
  | (Returned k, slept) =>
      (1 <= k <= Z.to_nat retries)%nat /\ tries (k - 1)%nat = Done
      /\ (forall j, (j < k - 1)%nat -> tries j = Locked)
      /\ (slept == inject_Z (Z.of_nat (k - 1)) * delay)%Q
  | (Reraised k, slept) =>
      (1 <= k <= Z.to_nat retries)%nat /\ tries (k - 1)%nat = Failed
      /\ (forall j, (j < k - 1)%nat -> tries j = Locked)
      /\ (slept == inject_Z (Z.of_nat (k - 1)) * delay)%Q
  | (GaveUp, slept) =>
      (forall j, (j < Z.to_nat retries)%nat -> tries j = Locked)
      /\ (slept == inject_Z (Z.of_nat (Z.to_nat retries)) * delay)%Q
  end.
Proof.
  unfold safe_commit.
  pose proof (retry_loop_spec (fun _ => delay) (fun j => inject_Z (Z.of_nat j) * delay)%Q
                tries (Z.to_nat retries) 0 0) as H.
  destruct (retry_loop _ tries 0 (Z.to_nat retries) 0) as [[k | k |] s];
    (destruct H as (H1 & H2);
     [intros j; rewrite Nat2Z.inj_succ; unfold Z.succ; rewrite inject_Z_plus; ring
     |cbn; ring |]).
  - destruct H2 as (H2 & H3 & H4). repeat split; try lia; try assumption.
    intros j Hj. apply H3. lia.
  - destruct H2 as (H2 & H3 & H4). repeat split; try lia; try assumption.
    intros j Hj. apply H3. lia.
  - split; [intros j Hj; apply H1; lia | exact H2].
Qed.

(** X17. [execute_with_retry] returns from the first attempt that is not
    refused for a lock, or lets its exception through, and gives up after
    [retries] locked attempts.  Its pause grows by [delay] at each locked
    attempt: after [n] of them it has slept [delay * n * (n + 1) / 2]. *)
Theorem execute_with_retry_backs_off_linearly (tries : nat -> attempt)
    (retries : Z) (delay : Q) :
  let total (n : nat) := (delay * inject_Z (Z.of_nat n * (Z.of_nat n + 1)) / 2)%Q in
  match execute_with_retry tries retries delay with
  | (Returned k, slept) =>
      (1 <= k <= Z.to_nat retries)%nat /\ tries (k - 1)%nat = Done
      /\ (forall j, (j < k - 1)%nat -> tries j = Locked)
      /\ (slept == total (k - 1)%nat)%Q
  | (Reraised k, slept) =>
      (1 <= k <= Z.to_nat retries)%nat /\ tries (k - 1)%nat = Failed
      /\ (forall j, (j < k - 1)%nat -> tries j = Locked)
      /\ (slept == total (k - 1)%nat)%Q
  | (GaveUp, slept) =>
      (forall j, (j < Z.to_nat retries)%nat -> tries j = Locked)
      /\ (slept == total (Z.to_nat retries))%Q
  end.
Proof.
  intros total. unfold execute_with_retry.
  pose proof (retry_loop_spec (fun i => delay * inject_Z (Z.of_nat i + 1))%Q total
                tries (Z.to_nat retries) 0 0) as H.
  destruct (retry_loop _ tries 0 (Z.to_nat retries) 0) as [[k | k |] s];
    (destruct H as (H1 & H2);
     [intros j; unfold total; cbv beta; rewrite Nat2Z.inj_succ; unfold Z.succ;
      rewrite !inject_Z_mult, !inject_Z_plus; change (inject_Z 1) with 1%Q; field
     |unfold total; cbv beta; change (Z.of_nat 0) with 0%Z;
      change (inject_Z (0 * (0 + 1))) with 0%Q; field |]).
  - destruct H2 as (H2 & H3 & H4). repeat split; try lia; try assumption.
    intros j Hj. apply H3. lia.
  - destruct H2 as (H2 & H3 & H4). repeat split; try lia; try assumption.
    intros j Hj. apply H3. lia.
  - split; [intros j Hj; apply H1; lia | exact H2].
Qed.

End RetryLaws.

Section StateLaws.

Import Store State.

(** X18. [refresh] builds at most once per second of its clock: after a call
    the state carries the second of the call, and a further call in that
    second - whatever its builder would give - leaves state and store as
    they are.  A build that raises keeps the snapshot of before, and still
    uses up the second. *)
Theorem refresh_is_throttled_to_one_build_a_second {S : Type}
    (build build' : db -> db * result S) (now : Z) (st : state S) (conn conn' : db) :
  let after := refresh build now st conn in
  _last_refresh_ts after.1 = now
  /\ refresh build' now after.1 conn' = (after.1, conn')
  /\ ((build conn).2 = Raise -> _snapshot after.1 = _snapshot st).
Proof.
  cbv zeta. unfold refresh.
  destruct (now =? _last_refresh_ts st)%Z eqn:E.
  - cbn [fst]. rewrite E. apply Z.eqb_eq in E. now repeat split.
  - destruct (build conn) as [c r]. cbn [fst snd _last_refresh_ts _snapshot].
    rewrite Z.eqb_refl. repeat split. now intros ->.
Qed.

(** X25. [snapshot] called in the second of a [refresh] answers with the
    snapshot that call left and builds nothing, also when that snapshot is
    blank; and whenever the cached snapshot is not blank, [snapshot] answers
    with it and leaves state and store alone. *)
Theorem snapshot_after_refresh_builds_nothing {S : Type} (blank : S -> bool)
    (build build' : db -> db * result S) (now : Z) (st : state S) (conn conn' : db) :
  (let after := refresh build now st conn in
   snapshot blank build' now after.1 conn' = (_snapshot after.1, (after.1, conn')))
  /\ (blank (_snapshot st) = false ->
      snapshot blank build now st conn = (_snapshot st, (st, conn))).
Proof.
  split.
  - cbv zeta. unfold snapshot.
    assert (H : refresh build' now (refresh build now st conn).1 conn'
                = ((refresh build now st conn).1, conn')).
    { unfold refresh. destruct (now =? _last_refresh_ts st)%Z eqn:E.
      - cbn [fst]. now rewrite E.
      - destruct (build conn) as [c r]. cbn [fst _last_refresh_ts].
        now rewrite Z.eqb_refl. }
    rewrite H. now destruct (blank _).
  - intros H. unfold snapshot. now rewrite H.
Qed.

Lemma snapshot_after_refresh_builds_nothing_witness :
  let build := fun c : Store.db => (c, Ok 7%Z) in
  let st := State.MkState 100%Z 3%Z in
  let blank := fun s : Z => (s =? 0)%Z in
  blank (State._snapshot st) = false
  /\ State.snapshot blank build 200%Z st Store.empty_db = (3%Z, (st, Store.empty_db)).
Proof.
  intros build st blank.
  assert (H : blank (State._snapshot st) = false) by reflexivity.
  split; [exact H |].
  exact (proj2 (snapshot_after_refresh_builds_nothing blank build build 200%Z st
                  Store.empty_db Store.empty_db) H).
Defined.

End StateLaws.

(** ** The blocks ledger *)

Section LedgerLaws.

Import Ledger.

Variable decode_date : string -> option Z.
Variable float_text : Num.float -> string.

Lemma ledger_coalesce_twice {A : Type} (a b : option A) :
  coalesce a (coalesce a b) = coalesce a b.
Proof. now destruct a. Qed.

Lemma ledger_coalesce_same {A : Type} (a : option A) : coalesce a a = a.
Proof. now destruct a. Qed.

Lemma merge_block_twice (new old : block_row) :
  merge_block new (merge_block new old) = merge_block new old.
Proof. unfold merge_block. cbn. now rewrite !ledger_coalesce_twice. Qed.

Lemma merge_block_same (new : block_row) : merge_block new new = new.
Proof. destruct new. unfold merge_block. cbn. now rewrite !ledger_coalesce_same. Qed.

Lemma upsert_block_inv (blocks blocks' : gmap Z block_row) (rec : block_rec) :
  _upsert_block float_text blocks rec = Ok blocks' ->
  exists new,
    (forall b, _upsert_block float_text b rec
               = Ok (<[height rec := match b !! height rec with
                                     | Some old => merge_block new old
                                     | None => new
                                     end]> b))
    /\ blocks' = <[height rec := match blocks !! height rec with
                                 | Some old => merge_block new old
                                 | None => new
                                 end]> blocks.
Proof.
  unfold _upsert_block.
  destruct (fits_int64 (height rec) && from_option fits_int64 true (rec_ts rec));
    [| discriminate].
  destruct (to_text float_text (rec_blockhash rec)) as [bh |]; [| discriminate].
  destruct (to_text float_text (rec_txid rec)) as [tx |]; [| discriminate].
  destruct (to_text float_text (rec_address rec)) as [ad |]; [| discriminate].
  cbn [mbind result_bind]. intros H. apply Ok_inj in H.
  exists (BlockRow bh (rec_ts rec) (to_real (rec_reward_btc rec)) tx ad).
  split; [reflexivity | now symmetry].
Qed.

(** X19. Writing the same block record a second time changes nothing, and a
    write touches no other height. *)
Theorem block_upsert_is_idempotent (blocks blocks' : gmap Z block_row) (rec : block_rec) :
  _upsert_block float_text blocks rec = Ok blocks' ->
  _upsert_block float_text blocks' rec = Ok blocks'
  /\ forall h, h <> height rec -> blocks' !! h = blocks !! h.
Proof.
  intros H. destruct (upsert_block_inv _ _ _ H) as (new & Hall & ->). split.
  - rewrite Hall, lookup_insert_eq, insert_insert_eq. do 2 f_equal.
    destruct (blocks !! height rec); [apply merge_block_twice | apply merge_block_same].
  - intros h Hh. now apply lookup_insert_ne.
Qed.

(** *** Rewards of a wallet *)

#[local] Instance ts_desc_trans : Transitive ts_desc.
Proof. intros [x |] [y |] [z |]; unfold ts_desc; try tauto; lia. Qed.

#[local] Instance newer_trans : Transitive newer.
Proof. intros a b c. unfold newer. apply ts_desc_trans. Qed.

#[local] Instance newer_total : Total newer.
Proof.
  intros a b. unfold newer, ts_desc.
  destruct (block_ts a.2), (block_ts b.2); try tauto; lia.
Qed.

(** X20. [get_wallet_rewards] lists the blocks whose address is the wallet,
    each with its own height, hash, time, reward and transaction, and lists
    them newest first, those without a time last. *)
Theorem wallet_rewards_are_its_blocks_newest_first (blocks : gmap Z block_row)
    (addr : string) :
  (forall rw,
      rw ∈ get_wallet_rewards blocks addr
      <-> exists row,
            blocks !! rw_height rw = Some row /\ address row = Some addr
            /\ rw = reward_of (rw_height rw, row))
  /\ StronglySorted (fun a b => ts_desc (rw_ts a) (rw_ts b))
                    (get_wallet_rewards blocks addr).
Proof.
  unfold get_wallet_rewards. change (map ?f ?l) with (f <$> l). split.
  - intros rw. rewrite list_elem_of_fmap. split.
    + intros ([h row] & -> & Hin). rewrite merge_sort_Permutation in Hin.
      apply list_elem_of_In, filter_In in Hin as [Hin Ha].
      apply list_elem_of_In, elem_of_map_to_list in Hin.
      apply bool_decide_eq_true in Ha. exists row. cbn in *. auto.
    + intros (row & Hrow & Ha & Hrw). exists (rw_height rw, row). split; [exact Hrw |].
      rewrite merge_sort_Permutation. apply list_elem_of_In, filter_In. split.
      * now apply list_elem_of_In, elem_of_map_to_list.
      * now apply bool_decide_eq_true.
  - apply (StronglySorted_fmap reward_of newer); [now intros x y |].
    apply StronglySorted_merge_sort; apply _.
Qed.

(** *** Ingesting a ledger file *)



End LedgerLaws.

Lemma block_upsert_is_idempotent_witness :
  let rec :=
    Ledger.BlockRec 840000 (PStr "00000000000000000002") (Some 1713571767%Z)
      (Some (Num.Fin (3125 # 1000))) PNone (PStr "bc1qexample") in
  exists blocks',
    Ledger._upsert_block (fun _ => ""%string) ∅ rec = Ok blocks'
    /\ Ledger._upsert_block (fun _ => ""%string) blocks' rec = Ok blocks'.
Proof.
  intros rec.
  destruct (Ledger._upsert_block (fun _ => ""%string) ∅ rec) as [blocks' |] eqn:H;
    [| vm_compute in H; discriminate].
  exists blocks'. split; [reflexivity |].
  exact (proj1 (block_upsert_is_idempotent (fun _ => ""%string) ∅ blocks' rec H)).
Defined.


(** ** Liveness of a recorded worker, and pool status lines *)

Section WorkerLiveness.

Import Text Classifier Store.

(** X22. A worker recorded by [upsert_worker_seen] is among the active names
    of its wallet exactly when it was recorded as active and its time lies
    within the timeout; the other names of the wallet are listed as
    before. *)
Theorem recorded_worker_is_active_until_timeout (conn : db) (wallet worker : string)
    (ts : Z) (act : bool) (now_ts timeout_s : Z) :
  let conn' := upsert_worker_seen conn wallet worker ts act in
  (worker ∈ _active_workers_for_wallet conn' wallet now_ts timeout_s
   <-> act = true /\ (now_ts - timeout_s <= ts)%Z)
  /\ forall other, other <> worker ->
       (other ∈ _active_workers_for_wallet conn' wallet now_ts timeout_s
        <-> other ∈ _active_workers_for_wallet conn wallet now_ts timeout_s).
Proof.
  cbv zeta. split.
  - rewrite active_workers_mem. unfold upsert_worker_seen, with_workers_seen.
    cbn [workers_seen]. rewrite lookup_insert_eq. split.
    + intros (r & Hr & Ha & Hf). injection Hr as <-. now split.
    + intros [-> Hf]. exists (SeenRow ts true). now split.
  - intros other Hne. rewrite !active_workers_mem.
    unfold upsert_worker_seen, with_workers_seen. cbn [workers_seen].
    now rewrite lookup_insert_ne by congruence.
Qed.

(** X23. The expiry sweep run at some time with some timeout does not change
    which names [_active_workers_for_wallet] gives for that time and
    timeout: the rows it flags are rows the query leaves out already. *)
Theorem expiry_sweep_changes_no_active_listing (conn : db) (wallet : string)
    (now_ts timeout_s : Z) (w : string) :
  w ∈ _active_workers_for_wallet (expire_stale_workers conn now_ts timeout_s)
        wallet now_ts timeout_s
  <-> w ∈ _active_workers_for_wallet conn wallet now_ts timeout_s.
Proof.
  rewrite !active_workers_mem. setoid_rewrite expire_lookup. split.
  - intros (r & Hr & Ha & Hf).
    destruct (workers_seen conn !! (wallet, w)) as [r0 |]; [| discriminate].
    cbn in Hr. injection Hr as <-. exists r0. split; [reflexivity |].
    revert Ha Hf. unfold expire_row.
    destruct (active r0 && (timeout_s <? now_ts - last_seen r0)%Z) eqn:E;
      cbn [active last_seen]; [discriminate | auto].
  - intros (r & -> & Ha & Hf). exists r. split; [| auto].
    cbn. f_equal. unfold expire_row.
    destruct (Z.ltb_spec timeout_s (now_ts - last_seen r)); [lia |].
    now rewrite andb_false_r.
Qed.

End WorkerLiveness.

Section PoolLines.

Import Text Classifier Store.






End PoolLines.

